(** * The turn orchestration engine of [reasoning_agent.js]

    A shallow embedding of the schema builder, the decision extraction, the
    game-session client and the main loop of [ReasoningAgentJS], with the
    statements the design document makes about them.

    JavaScript values are kept as the program sees them: JSON values with
    their truthiness and property lookup, numbers as the exact values
    [JSON.parse] can produce, arrays as lists.  The two remote services and
    [JSON.parse] are parameters of the development. *)

From Stdlib Require Import List String Ascii Bool Arith ZArith QArith Lia.
From Stdlib Require Import DecimalString.
Import ListNotations.
Close Scope Q_scope.
Local Open Scope string_scope.

(** ** JavaScript values *)

Module JS.

(** Numbers that [JSON.parse] can return: every finite double is a rational,
    and an overflowing literal such as [1e999] parses to an infinity.  [NaN]
    cannot be produced by [JSON.parse].  The operations used on coordinates
    ([Math.trunc], [Math.max], [Math.min]) are exact on doubles, so they are
    the same functions on rationals.  The two zeros are not distinguished. *)
Inductive num : Type :=
| Fin (q : Q)
| PosInf
| NegInf.

#[warnings="-register-all"]
Inductive JSON : Type :=
| JNull
| JBool (b : bool)
| JNum (n : num)
| JStr (s : string)
| JArr (xs : list JSON)
| JObj (fields : list (string * JSON)).

Definition num_of_Z (z : Z) : num := Fin (inject_Z z).

(** Numeric equality, the [===] of two numbers. *)
Definition num_eq (a b : num) : Prop :=
  match a, b with
  | Fin p, Fin q => (p == q)%Q
  | PosInf, PosInf => True
  | NegInf, NegInf => True
  | _, _ => False
  end.

Definition num_leb (a b : num) : bool :=
  match a, b with
  | NegInf, _ => true
  | _, PosInf => true
  | Fin p, Fin q => Qle_bool p q
  | _, _ => false
  end.

(** [Math.trunc]: the integer part, rounding toward zero. *)
Definition Qtrunc (q : Q) : Z := Z.quot (Qnum q) (Zpos (Qden q)).

Definition Math_trunc (v : num) : num :=
  match v with
  | Fin q => num_of_Z (Qtrunc q)
  | PosInf => PosInf
  | NegInf => NegInf
  end.

Definition Math_max (a b : num) : num := if num_leb b a then a else b.
Definition Math_min (a b : num) : num := if num_leb a b then a else b.

(** Truthiness ([if (v)], [v || d], [Boolean(v)]). *)
Definition truthy (v : JSON) : bool :=
  match v with
  | JNull => false
  | JBool b => b
  | JNum (Fin q) => negb (Qeq_bool q 0)
  | JNum _ => true
  | JStr s => negb (String.eqb s "")
  | JArr _ => true
  | JObj _ => true
  end.

(** An absent property or variable is [undefined]: [None]. *)
Definition truthy_opt (v : option JSON) : bool :=
  match v with
  | Some j => truthy j
  | None => false
  end.

Fixpoint assoc (k : string) (fs : list (string * JSON)) : option JSON :=
  match fs with
  | [] => None
  | (k', v) :: rest => if String.eqb k k' then Some v else assoc k rest
  end.

(** [v?.k] and, on a value that is not [null], [v.k].  The keys looked up in
    this program are own properties of no array, string, number or boolean. *)
Definition prop (k : string) (v : JSON) : option JSON :=
  match v with
  | JObj fs => assoc k fs
  | _ => None
  end.

(** [a || d] on a possibly undefined [a]. *)
Definition or_else (a : option JSON) (d : JSON) : JSON :=
  match a with
  | Some j => if truthy j then j else d
  | None => d
  end.

(** [a ?? d]: only [null] and [undefined] are replaced. *)
Definition coalesce (a : option JSON) (d : JSON) : JSON :=
  match a with
  | Some JNull => d
  | Some j => j
  | None => d
  end.

Definition is_string (v : option JSON) : option string :=
  match v with
  | Some (JStr s) => Some s
  | _ => None
  end.

(** [typeof v === 'number' ? v : null] *)
Definition number_or_null (v : option JSON) : option num :=
  match v with
  | Some (JNum n) => Some n
  | _ => None
  end.

(** [arr.slice(start)] *)
Definition slice {A : Type} (start : Z) (l : list A) : list A :=
  let len := Z.of_nat (List.length l) in
  let from := if (start <? 0)%Z then Z.max (len + start) 0 else Z.min start len in
  skipn (Z.to_nat from) l.

(** [arr.flat()] on an array of arrays whose elements are not arrays. *)
Definition flat {A : Type} (l : list (list A)) : list A := List.concat l.

(** [arr[arr.length - 1]], [undefined] on the empty array. *)
Definition last_elem {A : Type} (l : list A) : option A :=
  nth_error l (List.length l - 1).

(** [names.join(sep)] *)
Definition join (sep : string) (l : list string) : string := String.concat sep l.

(** Whether [String(v)], a template literal or a property key can convert
    [v] to a text.  Every parsed value can, but for an object with a member
    [toString] of its own: the member is data, not a function, and the
    conversion throws a [TypeError].  An array prints its elements, so it
    cannot be converted when one of them cannot. *)
Fixpoint printable (v : JSON) : bool :=
  match v with
  | JObj fields =>
      match assoc "toString" fields with
      | Some _ => false
      | None => true
      end
  | JArr xs => forallb printable xs
  | _ => true
  end.

(** The same for a possibly undefined value. *)
Definition printable_opt (v : option JSON) : bool :=
  match v with
  | Some j => printable j
  | None => true
  end.

(** [names.includes(s)] *)
Definition includes (s : string) (l : list string) : bool :=
  existsb (String.eqb s) l.

End JS.
Import JS.

(** ** Configuration constants *)

Definition MAX_ACTIONS : nat := 400.
Definition MESSAGE_LIMIT : nat := 5.

Definition ACTION_NAME_BY_ID : list (string * string) :=
  [("0", "RESET"); ("1", "ACTION1"); ("2", "ACTION2"); ("3", "ACTION3");
   ("4", "ACTION4"); ("5", "ACTION5"); ("6", "ACTION6"); ("7", "ACTION7")].

Fixpoint lookup_name (k : string) (tbl : list (string * string)) : option string :=
  match tbl with
  | [] => None
  | (k', v) :: rest => if String.eqb k k' then Some v else lookup_name k rest
  end.

(** The members every object literal inherits: [table[k]] answers with one
    of them, a function or (for [__proto__]) the prototype object, when [k]
    is no key of the table itself. *)
Definition inherited_members : list string :=
  ["constructor"; "__defineGetter__"; "__defineSetter__"; "hasOwnProperty";
   "__lookupGetter__"; "__lookupSetter__"; "isPrototypeOf";
   "propertyIsEnumerable"; "toString"; "valueOf"; "__proto__";
   "toLocaleString"].

Definition inherited (k : string) : bool := includes k inherited_members.

(** How a whole number from 0 to 15 prints. *)
Definition small_decimal (z : Z) : option string :=
  match z with
  | 0%Z => Some "0" | 1%Z => Some "1" | 2%Z => Some "2" | 3%Z => Some "3"
  | 4%Z => Some "4" | 5%Z => Some "5" | 6%Z => Some "6" | 7%Z => Some "7"
  | 8%Z => Some "8" | 9%Z => Some "9" | 10%Z => Some "10" | 11%Z => Some "11"
  | 12%Z => Some "12" | 13%Z => Some "13" | 14%Z => Some "14" | 15%Z => Some "15"
  | _ => None
  end.

(** The property key [table[id]] converts [id] to: its text, when the text
    matters; [Other] for a text that is no key of the tables of this program
    and spells no inherited member (a fraction, a number outside 0..15, an
    array of several elements, which prints with commas); [Unprintable] when
    the conversion throws. *)
Inductive KeyText : Type :=
| Text (k : string)
| Other
| Unprintable.

Fixpoint key_text (id : JSON) : KeyText :=
  match id with
  | JNull => Text "null"
  | JBool true => Text "true"
  | JBool false => Text "false"
  | JNum (Fin q) =>
      if Qeq_bool q (inject_Z (Qtrunc q))
      then match small_decimal (Qtrunc q) with
           | Some k => Text k
           | None => Other
           end
      else Other
  | JNum _ => Other
  | JStr s => Text s
  | JArr nil => Text ""
  | JArr (JNull :: nil) => Text ""
  | JArr (x :: nil) => key_text x
  | JArr xs => if forallb printable xs then Other else Unprintable
  | JObj fields =>
      match assoc "toString" fields with
      | Some _ => Unprintable
      | None => Text "[object Object]"
      end
  end.

(** What [table[id]] answers. *)
Inductive Entry : Type :=
| Found (v : string)
| Inherited (k : string)
| Missing
| Throws.

Definition table_entry (tbl : list (string * string)) (id : JSON) : Entry :=
  match key_text id with
  | Text k =>
      match lookup_name k tbl with
      | Some v => Found v
      | None => if inherited k then Inherited k else Missing
      end
  | Other => Missing
  | Unprintable => Throws
  end.

(** An entry of [allowedNames]: a name, or an inherited member that
    [ACTION_NAME_BY_ID[id]] answered with and [filter(Boolean)] kept. *)
Inductive Name : Type :=
| Named (s : string)
| Member (k : string).

(** How an entry prints in [join] and in a template literal; a built-in
    function prints as Node prints it. *)
Definition member_text (k : string) : string :=
  if String.eqb k "__proto__" then "[object Object]"
  else "function " ++ (if String.eqb k "constructor" then "Object" else k)
         ++ "() { [native code] }".

Definition print_name (n : Name) : string :=
  match n with
  | Named s => s
  | Member k => member_text k
  end.

(** [names.includes(s)] for a string [s]: no member is a string. *)
Definition includes_name (s : string) (l : list Name) : bool :=
  existsb (fun n => match n with Named t => String.eqb s t | Member _ => false end) l.

Definition action_name_by_id (id : JSON) : Entry :=
  table_entry ACTION_NAME_BY_ID id.

(** [ids.map(id => ACTION_NAME_BY_ID[id]).filter(Boolean)]: [None] when a
    lookup throws.  Every name of the table is a non-empty string and every
    inherited member is truthy, so [filter(Boolean)] drops exactly the
    [undefined] entries. *)
Fixpoint map_filter_names (ids : list JSON) : option (list Name) :=
  match ids with
  | [] => Some []
  | id :: rest =>
      match action_name_by_id id, map_filter_names rest with
      | Throws, _ => None
      | _, None => None
      | Found v, Some names => Some (Named v :: names)
      | Inherited k, Some names => Some (Member k :: names)
      | Missing, Some names => Some names
      end
  end.

(** The entry of the table that puts [n] among the names. *)
Definition entry_of (n : Name) : Entry :=
  match n with
  | Named v => Found v
  | Member k => Inherited k
  end.

(** What the lookups can put among the names: a name of the action table,
    or a member every object inherits. *)
Definition offered_name (n : Name) : Prop :=
  match n with
  | Named v => In v (map snd ACTION_NAME_BY_ID)
  | Member k => inherited k = true
  end.

(** ** The reasoning tool schema ([buildReasoningTools]) *)

Record PropSchema : Type := mkProp {
  ps_type : list string;
  ps_description : string;
  ps_minLength : option nat;
  ps_maxLength : option nat;
  ps_enum : option (list Name);
  ps_minimum : option Z;
  ps_maximum : option Z
}.

Record Parameters : Type := mkParameters {
  par_type : string;
  properties : list (string * PropSchema);
  required : list string;
  additionalProperties : bool
}.

Record Tool : Type := mkTool {
  tool_type : string;
  tool_name : string;
  tool_description : string;
  parameters : Parameters;
  strict : bool
}.

Definition text_prop (description : string) (lo hi : nat) : PropSchema :=
  mkProp ["string"] description (Some lo) (Some hi) None None None.

Definition coord_prop (description : string) : PropSchema :=
  mkProp ["integer"; "null"] description None None None (Some 0%Z) (Some 63%Z).

Definition x_description : string :=
  "Required when action==ACTION6. X coordinate in [0,63]; otherwise null.".
Definition y_description : string :=
  "Required when action==ACTION6. Y coordinate in [0,63]; otherwise null.".

Definition base_properties (allowedNames : list Name) : list (string * PropSchema) :=
  [ ("reason", text_prop "Detailed reasoning for choosing this action" 10 2000);
    ("short_description", text_prop "Brief description of the action" 5 500);
    ("hypothesis", text_prop "Current hypothesis about game mechanics" 10 2000);
    ("aggregated_findings",
       text_prop "Summary of discoveries and learnings so far" 10 2000);
    ("action",
       mkProp ["string"] ("Choose one of: " ++ join ", " (map print_name allowedNames))
              None None (Some allowedNames) None None) ].

Definition base_required : list string :=
  ["reason"; "short_description"; "hypothesis"; "aggregated_findings"; "action"].

(** The two pushes of the [if (allowedNames.includes('ACTION6'))] block are
    the two appends below. *)
Definition buildReasoningTools (allowedNames : list Name) : list Tool :=
  let coord := includes_name "ACTION6" allowedNames in
  let props :=
    if coord
    then (base_properties allowedNames
            ++ [("x", coord_prop x_description); ("y", coord_prop y_description)])%list
    else base_properties allowedNames in
  let req := if coord then (base_required ++ ["x"; "y"])%list else base_required in
  [ mkTool "function" "choose_action"
      ("Choose exactly one game action from ["
         ++ join ", " (map print_name allowedNames)
         ++ "] and justify it."
         ++ (if coord then " If ACTION6, include integer x,y in [0,63]." else ""))
      (mkParameters "object" props req false)
      true ].

(** The parameters object of the one tool the builder returns. *)
Definition schema_of (allowedNames : list Name) : Parameters :=
  match buildReasoningTools allowedNames with
  | t :: _ => parameters t
  | [] => mkParameters "object" [] [] false
  end.

(** The same for a list of action names. *)
Definition decision_schema (allowedNames : list string) : Parameters :=
  schema_of (map Named allowedNames).

Fixpoint lookup_prop (k : string) (ps : list (string * PropSchema)) : option PropSchema :=
  match ps with
  | [] => None
  | (k', p) :: rest => if String.eqb k k' then Some p else lookup_prop k rest
  end.

(** *** What the emitted schema accepts

    The schema is data for the decision service.  Its meaning is that of the
    JSON-Schema keywords the builder writes: [type], [enum], [minLength],
    [maxLength], [minimum], [maximum], [required] and
    [additionalProperties].  Nothing else appears in the schema, so this
    reading covers it. *)

Definition is_integer (n : num) : bool :=
  match n with
  | Fin q => Qeq_bool q (inject_Z (Qtrunc q))
  | _ => false
  end.

Definition has_type (v : JSON) (t : string) : bool :=
  match v with
  | JNull => String.eqb t "null"
  | JBool _ => String.eqb t "boolean"
  | JNum n => String.eqb t "number" || (String.eqb t "integer" && is_integer n)
  | JStr _ => String.eqb t "string"
  | JArr _ => String.eqb t "array"
  | JObj _ => String.eqb t "object"
  end.

Definition opt_holds {A : Type} (o : option A) (f : A -> bool) : bool :=
  match o with
  | Some a => f a
  | None => true
  end.

(** The number of characters of a text, which is kept as its UTF-8 bytes:
    the bytes that do not continue a character ([10xxxxxx]).  [minLength]
    and [maxLength] count characters. *)
Definition continues_character (c : ascii) : bool :=
  match c with
  | Ascii _ _ _ _ _ _ false true => true
  | _ => false
  end.

Fixpoint characters (s : string) : nat :=
  match s with
  | EmptyString => 0
  | String c rest =>
      if continues_character c then characters rest else S (characters rest)
  end.

Definition value_accepted (p : PropSchema) (v : JSON) : bool :=
  existsb (has_type v) (ps_type p)
  && opt_holds (ps_enum p)
       (fun l => match v with JStr s => includes_name s l | _ => false end)
  && opt_holds (ps_minLength p)
       (fun lo => match v with JStr s => (lo <=? characters s)%nat | _ => true end)
  && opt_holds (ps_maxLength p)
       (fun hi => match v with JStr s => (characters s <=? hi)%nat | _ => true end)
  && opt_holds (ps_minimum p)
       (fun lo => match v with JNum n => num_leb (num_of_Z lo) n | _ => true end)
  && opt_holds (ps_maximum p)
       (fun hi => match v with JNum n => num_leb n (num_of_Z hi) | _ => true end).

Definition schema_accepts (s : Parameters) (args : JSON) : bool :=
  match args with
  | JObj fs =>
      forallb (fun k => match assoc k fs with Some _ => true | None => false end)
              (required s)
      && forallb (fun kv =>
                    match lookup_prop (fst kv) (properties s) with
                    | Some p => value_accepted p (snd kv)
                    | None => additionalProperties s
                    end) fs
  | _ => false
  end.

(** ** Messages, requests and the agent object *)

(** An item of [response.output]: the fields this program reads. *)
Record OutputItem : Type := mkItem {
  item_type : string;
  item_arguments : option string;
  item_call_id : option string
}.

(** The decision service's answer; [output] may be missing.  The usage
    counters only feed the token bookkeeping, which no statement below is
    about and which is left out of the agent object; an answer whose
    counters cannot be added or printed makes the turn throw right after the
    call, as a rejected call does, and is taken with the rejected calls. *)
Record Response : Type := mkResponse {
  output : option (list OutputItem)
}.

(** The user message of a turn.  Its text is a fixed template over the
    allowed names and the printed raw grid, its image the rendered screen;
    the message is kept as these three inputs. *)
Record UserMessage : Type := mkUser {
  um_allowed : list Name;
  um_grid : JSON;
  um_image : string
}.

(** The items of the conversation: a turn is
    [[userMessage, ...assistantOutputItems, toolOutputItem]].  The tool
    output is kept as the object handed to [JSON.stringify]. *)
Inductive InputItem : Type :=
| UserMsg (m : UserMessage)
| ModelItem (i : OutputItem)
| ToolOutput (call_id : string) (result : JSON).

Definition Turn : Type := list InputItem.

Record Coord : Type := mkCoord { cx : num; cy : num }.

(** The body posted to [/api/cmd/<action>]. *)
Record Payload : Type := mkPayload {
  p_game_id : string;
  p_guid : option JSON;
  p_card_id : option string;
  p_reasoning : option JSON;
  p_x : option num;
  p_y : option num
}.

(** The request to [openai.responses.create]; [instructions] is the system
    prompt, a template over the allowed names. *)
Record CreatePayload : Type := mkCreate {
  cp_model : string;
  cp_instructions : list Name;
  cp_tools : list Tool;
  cp_tool_choice : string;
  cp_parallel_tool_calls : bool;
  cp_store : bool;
  cp_input : list InputItem;
  cp_reasoning : option (string * string)
}.

Record Agent : Type := mkAgent {
  gameId : string;
  cardId : string;
  model : string;
  reasoningEffort : string;
  guid : JSON;
  frames : list JSON;
  history : list JSON;
  screenHistory : list string;
  actionCounter : nat;
  turns : list Turn
}.

(** [new ReasoningAgentJS({ gameId, cardId, model, effort })] *)
Definition newAgent (gameId cardId model effort : string) : Agent :=
  mkAgent gameId cardId model effort (JStr "") [] [] [] 0 [].

Definition set_guid (g : JSON) (a : Agent) : Agent :=
  mkAgent (gameId a) (cardId a) (model a) (reasoningEffort a) g (frames a)
          (history a) (screenHistory a) (actionCounter a) (turns a).

Definition set_frames (fs : list JSON) (a : Agent) : Agent :=
  mkAgent (gameId a) (cardId a) (model a) (reasoningEffort a) (guid a) fs
          (history a) (screenHistory a) (actionCounter a) (turns a).

Definition set_history (h : list JSON) (a : Agent) : Agent :=
  mkAgent (gameId a) (cardId a) (model a) (reasoningEffort a) (guid a) (frames a)
          h (screenHistory a) (actionCounter a) (turns a).

Definition set_screenHistory (sh : list string) (a : Agent) : Agent :=
  mkAgent (gameId a) (cardId a) (model a) (reasoningEffort a) (guid a) (frames a)
          (history a) sh (actionCounter a) (turns a).

Definition set_actionCounter (n : nat) (a : Agent) : Agent :=
  mkAgent (gameId a) (cardId a) (model a) (reasoningEffort a) (guid a) (frames a)
          (history a) (screenHistory a) n (turns a).

Definition set_turns (ts : list Turn) (a : Agent) : Agent :=
  mkAgent (gameId a) (cardId a) (model a) (reasoningEffort a) (guid a) (frames a)
          (history a) (screenHistory a) (actionCounter a) ts.

Definition nonempty (s : string) : bool := negb (String.eqb s "").

(** *** The turn window *)

(** [clearHistory()] *)
Definition clearHistory (a : Agent) : Agent :=
  set_screenHistory [] (set_history [] a).

(** [flattenTurns()], for a window cap [limit] (the program's cap is
    [MESSAGE_LIMIT]). *)
Definition flattenTurnsWith (limit : nat) (ts : list Turn) : list InputItem :=
  let start := Z.max 0 (Z.of_nat (List.length ts) - Z.of_nat limit) in
  flat (slice start ts).

Definition flattenTurns (a : Agent) : list InputItem :=
  flattenTurnsWith MESSAGE_LIMIT (turns a).

(** [this.turns.push(t); if (this.turns.length > limit) this.turns =
    this.turns.slice(-limit)] *)
Definition pushTurnWith (limit : nat) (t : Turn) (ts : list Turn) : list Turn :=
  let ts' := (ts ++ [t])%list in
  if (limit <? List.length ts')%nat then slice (- Z.of_nat limit) ts' else ts'.

Definition pushTurn (t : Turn) (a : Agent) : Agent :=
  set_turns (pushTurnWith MESSAGE_LIMIT t (turns a)) a.

(** [this.screenHistory.push(s); if (this.screenHistory.length > 10)
    this.screenHistory.shift()] *)
Definition pushScreen (s : string) (a : Agent) : Agent :=
  let sh := (screenHistory a ++ [s])%list in
  set_screenHistory (if (10 <? List.length sh)%nat then tl sh else sh) a.

(** *** The pure parts of [callOpenAI] *)

(** [v?.k] on a possibly undefined [v]. *)
Definition oprop (k : string) (v : option JSON) : option JSON :=
  match v with
  | Some j => prop k j
  | None => None
  end.

Definition default_names : list Name :=
  [Named "ACTION1"; Named "ACTION2"; Named "ACTION3"; Named "ACTION4"].

(** The allowed names of a turn, [RESET] pushed last; [None] when a lookup
    of [ACTION_NAME_BY_ID] throws. *)
Definition allowedNamesOf (latestFrame : option JSON) : option (list Name) :=
  let names :=
    match oprop "available_actions" latestFrame with
    | Some (JArr (id :: ids)) => map_filter_names (id :: ids)
    | _ => Some default_names
    end in
  option_map (fun l => (l ++ [Named "RESET"])%list) names.

(** [Math.min(63, Math.max(0, Math.trunc(v)))] *)
Definition clamp63 (v : num) : num :=
  Math_min (num_of_Z 63) (Math_max (num_of_Z 0) (Math_trunc v)).

(** What the scan of [response.output] leaves in its local variables;
    [pk_warned] records that the [console.warn] of the coordinate default was
    reached. *)
Record Picked : Type := mkPicked {
  pk_actionName : string;
  pk_args : JSON;
  pk_functionCallId : option string;
  pk_actionData : option Coord;
  pk_warned : bool
}.

Definition truthy_string (o : option string) : option string :=
  match o with
  | Some s => if nonempty s then Some s else None
  | None => None
  end.

(** [(args.reason || '').slice(0, 200)]: a string or an array has [slice];
    any other truthy value has none and the call throws a [TypeError]
    ([None]).  The slice of a string counts UTF-16 code units and may cut a
    character in two, which the bytes of a text do not express: it is the
    built-in's, [slice200]. *)
Definition response_preview (slice200 : string -> string) (args : JSON)
    : option JSON :=
  match or_else (prop "reason" args) (JStr "") with
  | JStr s => Some (JStr (slice200 s))
  | JArr xs => Some (JArr (firstn 200 xs))
  | _ => None
  end.

Definition reasoning_effort_field (effort : string) : list (string * JSON) :=
  if nonempty effort then [("reasoning_effort", JStr effort)] else [].

(** The [meta] object, without its token counters. *)
Definition build_meta (a : Agent) (latestFrame : option JSON) (args : JSON)
    (actionName : string) (preview : JSON) : JSON :=
  JObj ([("model", JStr (model a)); ("agent_type", JStr "reasoning_agent")]
        ++ reasoning_effort_field (reasoningEffort a)
        ++ [("hypothesis", or_else (prop "hypothesis" args) (JStr ""));
            ("aggregated_findings",
               or_else (prop "aggregated_findings" args) (JStr ""));
            ("response_preview", preview);
            ("action_chosen", JStr actionName);
            ("game_context",
               JObj [("score", coalesce (oprop "score" latestFrame) (JNum (num_of_Z 0)));
                     ("state", coalesce (oprop "state" latestFrame) (JStr "NOT_PLAYED"));
                     ("action_counter", JNum (num_of_Z (Z.of_nat (actionCounter a))));
                     ("frame_count", JNum (num_of_Z (Z.of_nat (List.length (frames a)))))])])%list.

Definition build_historyEntry (args : JSON) (actionName : string) : JSON :=
  JObj [("name", JStr actionName);
        ("reason", or_else (prop "reason" args) (JStr ""));
        ("short_description", or_else (prop "short_description" args) (JStr ""));
        ("hypothesis", or_else (prop "hypothesis" args) (JStr ""));
        ("aggregated_findings", or_else (prop "aggregated_findings" args) (JStr ""))].

(** The meta object of the initial reset. *)
Definition initial_meta (a : Agent) : JSON :=
  JObj [("model", JStr (model a)); ("agent_type", JStr "reasoning_agent");
        ("response_preview", JStr "Initial reset");
        ("action_chosen", JStr "RESET");
        ("game_context",
           JObj [("score", JNum (num_of_Z 0)); ("state", JStr "NOT_PLAYED");
                 ("action_counter", JNum (num_of_Z 0));
                 ("frame_count", JNum (num_of_Z 0))])].

(** What [callOpenAI] returns. *)
Record Decision : Type := mkDecision {
  d_actionName : string;
  d_meta : JSON;
  d_historyEntry : JSON;
  d_actionData : option Coord;
  d_responseOutputItems : option (list OutputItem);
  d_userMessage : UserMessage;
  d_functionCallId : option string
}.

(** *** The pure part of [doAction]: the request body *)

Definition buildPayload (a : Agent) (actionName : string)
    (reasoningMeta : option JSON) (actionData : option Coord) : Payload :=
  let coords := if String.eqb actionName "ACTION6" then actionData else None in
  mkPayload (gameId a)
    (if truthy (guid a) then Some (guid a) else None)
    (if String.eqb actionName "RESET" && nonempty (cardId a)
     then Some (cardId a) else None)
    (if truthy_opt reasoningMeta then reasoningMeta else None)
    (option_map cx coords)
    (option_map cy coords).

Definition command_url (actionName : string) : string := "/api/cmd/" ++ actionName.

(** The object stringified into the tool output of a turn. *)
Definition toolResult (actionName : string) (actionData : option Coord) (next : JSON) : JSON :=
  JObj ([("status", JStr "success"); ("action", JStr actionName)]
        ++ match actionData with
           | Some c => [("x", JNum (cx c)); ("y", JNum (cy c))]
           | None => []
           end
        ++ [("result",
               JObj [("score", coalesce (prop "score" next) (JNum (num_of_Z 0)));
                     ("state", coalesce (prop "state" next) (JStr ""));
                     ("full_reset", coalesce (prop "full_reset" next) (JBool false))])])%list.

Definition turnRecord (d : Decision) (next : JSON) : Turn :=
  (UserMsg (d_userMessage d)
   :: map ModelItem (match d_responseOutputItems d with Some l => l | None => [] end)
   ++ [ToolOutput (match truthy_string (d_functionCallId d) with
                   | Some c => c
                   | None => "call_0"
                   end)
                  (toolResult (d_actionName d) (d_actionData d) next)])%list.

(** [latest?.state === 'WIN'] *)
Definition is_win (latest : option JSON) : bool :=
  match oprop "state" latest with
  | Some (JStr s) => String.eqb s "WIN"
  | _ => false
  end.

(** The grid handed to the renderer. *)
Definition currentGridOf (latest : option JSON) : JSON :=
  match oprop "frame" latest with
  | Some (JArr (g :: gs)) =>
      match last_elem (g :: gs) with
      | Some grid => grid
      | None => JArr []
      end
  | _ => JArr []
  end.

(** The user message and the request [callOpenAI] composes for a turn,
    from the allowed names it found. *)
Definition userMessageOf (allowedNames : list Name) (latestFrame : option JSON)
    (currentScreenB64 : string) : UserMessage :=
  mkUser allowedNames
         (or_else (oprop "frame" latestFrame) (JArr []))
         currentScreenB64.

(** [[...this.flattenTurns(), userMessage]] *)
Definition messagesInputOf (a : Agent) (allowedNames : list Name)
    (latestFrame : option JSON) (currentScreenB64 : string) : list InputItem :=
  (flattenTurns a
     ++ [UserMsg (userMessageOf allowedNames latestFrame currentScreenB64)])%list.

Definition createPayloadOf (a : Agent) (allowedNames : list Name)
    (latestFrame : option JSON) (currentScreenB64 : string) : CreatePayload :=
  let tools := buildReasoningTools allowedNames in
  let messagesInput := messagesInputOf a allowedNames latestFrame currentScreenB64 in
  mkCreate (model a) allowedNames tools "required" false true messagesInput
           (if nonempty (reasoningEffort a) then Some (reasoningEffort a, "auto") else None).

(** The object [callOpenAI] returns, from what the scan picked. *)
Definition decisionOf (a : Agent) (allowedNames : list Name)
    (latestFrame : option JSON) (currentScreenB64 : string)
    (out : option (list OutputItem)) (pk : Picked) (preview : JSON) : Decision :=
  mkDecision (pk_actionName pk)
    (build_meta a latestFrame (pk_args pk) (pk_actionName pk) preview)
    (build_historyEntry (pk_args pk) (pk_actionName pk))
    (pk_actionData pk)
    out
    (userMessageOf allowedNames latestFrame currentScreenB64)
    (pk_functionCallId pk).

(** [if (data?.guid) this.guid = data.guid] *)
Definition adoptGuid (data : JSON) (a : Agent) : Agent :=
  match prop "guid" data with
  | Some g => if truthy g then set_guid g a else a
  | None => a
  end.

(** The bookkeeping of a turn between the decision and the submission. *)
Definition rememberDecision (currentB64 : string) (d : Decision) (a : Agent) : Agent :=
  let a1 := pushScreen currentB64 a in
  set_history (history a1 ++ [d_historyEntry d])%list a1.

(** [this.frames.push(next); this.actionCounter += 1] *)
Definition recordFrame (next : JSON) (a : Agent) : Agent :=
  let a1 := set_frames (frames a ++ [next])%list a in
  set_actionCounter (actionCounter a1 + 1) a1.

(** The two tests that let the [while] loop go on to another turn. *)
Definition under_budget (a : Agent) : bool := (actionCounter a <? MAX_ACTIONS)%nat.
Definition latest_is_win (a : Agent) : bool := is_win (last_elem (frames a)).

(** ** Console output and calls to the outside *)

Inductive LogLine : Type :=
| AllowedActions (names : list Name)
| TokenUsage
| CoordinatesDefaulted
| ActionResult (actionName : string) (score state : option JSON)
| WinReached (actionCounter : nat).

(** [WriteFile] is the debug dump of the request input to
    [messages.json]. *)
Inductive Event : Type :=
| ConsoleLog (l : LogLine)
| ConsoleWarn (l : LogLine)
| WriteFile (input : list InputItem)
| CallDecision (p : CreatePayload)
| CallPost (url : string) (p : Payload).

Definition is_decision (e : Event) : bool :=
  match e with CallDecision _ => true | _ => false end.

Definition is_post (e : Event) : bool :=
  match e with CallPost _ _ => true | _ => false end.

Definition is_warning (e : Event) : bool :=
  match e with ConsoleWarn _ => true | _ => false end.

Definition count_decisions (tr : list Event) : nat :=
  List.length (filter is_decision tr).

Definition count_posts (tr : list Event) : nat :=
  List.length (filter is_post tr).

(** ** Command-line arguments ([parseArgs]) *)

(** [s.split(c)] for a one-character separator: the pieces between the
    separators, the empty string giving one empty piece. *)
Fixpoint split_on (c : ascii) (s : string) : list string :=
  match s with
  | EmptyString => [EmptyString]
  | String x rest =>
      if Ascii.eqb x c then EmptyString :: split_on c rest
      else match split_on c rest with
           | piece :: pieces => String x piece :: pieces
           | [] => [String x EmptyString]
           end
  end.

(** [s.startsWith('--')] *)
Definition starts_with_dashes (s : string) : bool :=
  match s with
  | String "-" (String "-" _) => true
  | _ => false
  end.

(** [key.replace(/^--/, '')] *)
Definition strip_dashes (key : string) : string :=
  match key with
  | String "-" (String "-" rest) => rest
  | _ => key
  end.

Record CliArgs : Type := mkCliArgs {
  arg_model : string;
  arg_effort : string;
  arg_game : string
}.

(** The three [if (k === ... && v) out.... = v] lines; [None] is an
    [undefined] value. *)
Definition assign (k : string) (v : option string) (out : CliArgs) : CliArgs :=
  let given := match v with Some t => nonempty t | None => false end in
  let value := match v with Some t => t | None => EmptyString end in
  let out1 := if String.eqb k "model" && given
              then mkCliArgs value (arg_effort out) (arg_game out) else out in
  let out2 := if String.eqb k "effort" && given
              then mkCliArgs (arg_model out1) value (arg_game out1) else out1 in
  if String.eqb k "game" && given
  then mkCliArgs (arg_model out2) (arg_effort out2) value else out2.

(** The [while (parts.length)] loop over the remaining tokens. *)
Fixpoint parseLoop (parts : list string) (out : CliArgs) : CliArgs :=
  match parts with
  | [] => out
  | token :: rest =>
      if String.eqb token "" then out
      else if starts_with_dashes token then
        let pieces := split_on "=" token in
        let key := hd EmptyString pieces in
        let maybeVal := nth_error pieces 1 in
        let k := strip_dashes key in
        match maybeVal with
        | Some v => parseLoop rest (assign k (Some v) out)
        | None =>
            match rest with
            | next :: rest' =>
                if nonempty next && negb (starts_with_dashes next)
                then parseLoop rest' (assign k (Some next) out)
                else parseLoop rest (assign k None out)
            | [] => parseLoop rest (assign k None out)
            end
        end
      else parseLoop rest out
  end.

Definition parseArgs (argv : list string) : CliArgs :=
  parseLoop argv (mkCliArgs "" "" "").

(** [c] does not occur in [s]. *)
Fixpoint free_of (c : ascii) (s : string) : bool :=
  match s with
  | EmptyString => true
  | String x rest => negb (Ascii.eqb x c) && free_of c rest
  end.

(** A flag written with its value attached, [--k=v...]. *)
Definition attached (k tail : string) : string := "--" ++ k ++ String "=" tail.

(** ** The runner ([main]) and the shutdown state *)

(** [s.startsWith(p)] *)
Fixpoint starts_with (p s : string) : bool :=
  match p, s with
  | EmptyString, _ => true
  | String a p', String b s' => Ascii.eqb a b && starts_with p' s'
  | String _ _, EmptyString => false
  end.

(** [a || d] on strings. *)
Definition or_default (a d : string) : string := if nonempty a then a else d.

(** The environment variables the runner reads, an unset one being the
    empty string (each is read as [process.env.X || d]), and the arguments
    after the script name. *)
Record Env : Type := mkEnv {
  ARC_API_KEY : string;
  OPENAI_API_KEY : string;
  OPENAI_MODEL : string;
  REASONING_EFFORT : string;
  GAME_ID : string;
  TAGS : string;
  argv : list string
}.

Definition DEFAULT_OPENAI_MODEL (env : Env) : string :=
  or_default (OPENAI_MODEL env) "gpt-5".
Definition DEFAULT_REASONING_EFFORT (env : Env) : string :=
  or_default (REASONING_EFFORT env) "".
Definition DEFAULT_GAME_FILTER (env : Env) : string :=
  or_default (GAME_ID env) "".

(** The constants [main] derives from the command line and the defaults. *)
Definition SELECTED_MODEL (env : Env) : string :=
  or_default (arg_model (parseArgs (argv env))) (DEFAULT_OPENAI_MODEL env).
Definition SELECTED_EFFORT (env : Env) : string :=
  or_default (arg_effort (parseArgs (argv env))) (DEFAULT_REASONING_EFFORT env).
Definition GAME_FILTER (env : Env) : string :=
  or_default (arg_game (parseArgs (argv env))) (DEFAULT_GAME_FILTER env).

(** The tags of the scorecard: [['agent', 'reasoning_agent_js',
    SELECTED_MODEL, ...(SELECTED_EFFORT ? [SELECTED_EFFORT] : []),
    ...tags]] with [tags = (process.env.TAGS || '').split(',').filter(Boolean)]. *)
Definition scorecard_tags (env : Env) : list string :=
  (["agent"; "reasoning_agent_js"; SELECTED_MODEL env]
     ++ (if nonempty (SELECTED_EFFORT env) then [SELECTED_EFFORT env] else [])
     ++ List.filter nonempty (split_on "," (TAGS env)))%list.

(** The [Runtime] object: [cardId] is [null] until a scorecard is open. *)
Record Runtime : Type := mkRuntime {
  rt_cardId : option string;
  rt_shuttingDown : bool
}.

(** What the runner does towards the outside: its calls, its error lines
    and, for every game it plays, the events of that session. *)
Inductive MainEvent : Type :=
| ErrorLine
| OpenCard (tags : list string)
| ListGames
| CloseCard (card_id : string)
| PlayGame (gameId : string) (events : list Event).

(** How the process ends: an explicit [process.exit(n)], or [main]
    returning. *)
Inductive Exit : Type :=
| ExitCode (n : nat)
| Returned.

Definition is_close (e : MainEvent) : bool :=
  match e with CloseCard _ => true | _ => false end.

Definition count_closes (tr : list MainEvent) : nat :=
  List.length (filter is_close tr).

Definition is_network (e : MainEvent) : bool :=
  match e with ErrorLine => false | _ => true end.

(** The game ids played, in order. *)
Fixpoint played (tr : list MainEvent) : list string :=
  match tr with
  | [] => []
  | PlayGame g _ :: rest => g :: played rest
  | _ :: rest => played rest
  end.

(** The decision calls of all sessions together. *)
Fixpoint total_decisions (tr : list MainEvent) : nat :=
  match tr with
  | [] => 0
  | PlayGame _ events :: rest => count_decisions events + total_decisions rest
  | _ :: rest => total_decisions rest
  end.

(** [(gamesList || []).map(g => g.game_id)]: [None] is a [TypeError] (a
    truthy value without [map], or a [null] entry); an entry of the result
    is [None] when the game has no [game_id]. *)
Definition game_ids (gamesList : JSON) : option (list (option JSON)) :=
  if truthy gamesList then
    match gamesList with
    | JArr gs =>
        if existsb (fun g => match g with JNull => true | _ => false end) gs
        then None
        else Some (map (prop "game_id") gs)
    | _ => None
    end
  else Some [].

(** [filter ? all.filter(g => g.startsWith(filter)) : all]: with a filter,
    an id that is not a string has no [startsWith] and the call throws. *)
Definition select_games (filter_ : string) (all : list (option JSON))
    : option (list (option JSON)) :=
  if nonempty filter_ then
    if forallb (fun g => match g with Some (JStr _) => true | _ => false end) all
    then Some (List.filter
                 (fun g => match g with
                           | Some (JStr id) => starts_with filter_ id
                           | _ => false
                           end) all)
    else None
  else Some all.

(** ** The picture of a grid ([gridToPngBase64])

    What the function draws, as the calls it makes on the canvas; the
    encoding of the canvas as a PNG is the library's.  Pixels are integers.
    The font, whose size is a floating-point product, styles the labels
    only and is left out; a label is kept as the pair it prints.  The
    sessions below take the rendering as a function given from outside,
    which answers or throws; this part follows what it draws and when it
    throws. *)

Definition ZONE_SIZE : nat := 16.

Definition keyColors : list (string * string) :=
  [("0", "#FFFFFF"); ("1", "#CCCCCC"); ("2", "#999999"); ("3", "#666666");
   ("4", "#333333"); ("5", "#000000"); ("6", "#E53AA3"); ("7", "#FF7BCC");
   ("8", "#F93C31"); ("9", "#1E93FF"); ("10", "#88D8F1"); ("11", "#FFDC00");
   ("12", "#FF851B"); ("13", "#921231"); ("14", "#4FCC30"); ("15", "#A356D6")].

Definition fallback_color : string := "#888888".

Inductive CanvasOp : Type :=
| FillRect (fillStyle : string) (x y w h : Z)
| StrokeRect (strokeStyle : string) (lineWidth : Z) (x y w h : Z)
| FillText (fillStyle : string) (label : nat * nat) (x y : Z).

Record Canvas : Type := mkCanvas {
  cv_width : Z;
  cv_height : Z;
  cv_ops : list CanvasOp
}.

(** How a computation of the drawing ends: with a value, with a
    [TypeError], or at a value whose handling is not followed. *)
Inductive Outcome (A : Type) : Type :=
| Done (a : A)
| TypeError
| Unfollowed.
Arguments Done {A} a.
Arguments TypeError {A}.
Arguments Unfollowed {A}.

(** [keyColors[v] || '#888888'] for a cell [v] of the grid: the colour of
    the key [v] prints as, the fallback when it prints as no key, a
    [TypeError] when it cannot be printed.  A cell that spells an inherited
    member sets [fillStyle] to that member, which the canvas library
    decides about: it is not followed. *)
Definition cell_color (v : JSON) : Outcome string :=
  match table_entry keyColors v with
  | Found c => Done c
  | Missing => Done fallback_color
  | Inherited _ => Unfollowed
  | Throws => TypeError
  end.

(** The UTF-16 units of a text, which is kept as its UTF-8 bytes: [s[x]]
    is the [x]-th of them, as a text of its own.  A character outside the
    basic plane has two units, each half a character; both are kept as the
    bytes of the whole character, which like either half is no key of any
    table. *)
Definition four_byte_lead (c : ascii) : bool :=
  match c with
  | Ascii _ _ _ false true true true true => true
  | _ => false
  end.

Fixpoint units_from (s : string) : string * list string :=
  match s with
  | EmptyString => (EmptyString, [])
  | String c rest =>
      let (pending, us) := units_from rest in
      if continues_character c then (String c pending, us)
      else (EmptyString,
            ((if four_byte_lead c
              then [String c pending; String c pending]
              else [String c pending]) ++ us)%list)
  end.

Definition units (s : string) : list string := snd (units_from s).

(** How the index [x] prints as a property key. *)
Definition index_key (x : nat) : string :=
  NilEmpty.string_of_uint (Nat.to_uint x).

(** [grid[y][x]]: reading an index of [null] or [undefined] throws, a
    number or a boolean has no such member, an array answers with its
    element or [undefined], a string with its unit there, and an object
    with its member of that key. *)
Definition row_cell (row : option JSON) (x : nat) : Outcome (option JSON) :=
  match row with
  | None | Some JNull => TypeError
  | Some (JArr vs) => Done (nth_error vs x)
  | Some (JBool _) | Some (JNum _) => Done None
  | Some (JStr s) => Done (option_map JStr (nth_error (units s) x))
  | Some (JObj fields) => Done (assoc (index_key x) fields)
  end.

Definition fill_of (v : option JSON) : Outcome string :=
  match v with
  | None => Done fallback_color
  | Some j => cell_color j
  end.

(** A loop whose passes append their drawing calls; it stops at the first
    pass that does not complete. *)
Fixpoint for_each {A B : Type} (f : A -> Outcome (list B)) (l : list A)
    : Outcome (list B) :=
  match l with
  | [] => Done []
  | a :: rest =>
      match f a with
      | Done ops =>
          match for_each f rest with
          | Done more => Done (ops ++ more)%list
          | TypeError => TypeError
          | Unfollowed => Unfollowed
          end
      | TypeError => TypeError
      | Unfollowed => Unfollowed
      end
  end.

(** The values of [i] in [for (let i = start; i < n; i += ZONE_SIZE)]. *)
Fixpoint zone_steps (fuel start n : nat) : list nat :=
  match fuel with
  | O => []
  | S fuel' =>
      if (start <? n)%nat then start :: zone_steps fuel' (start + ZONE_SIZE) n else []
  end.

Definition px (n : nat) (cellSize : nat) : Z := (Z.of_nat n * Z.of_nat cellSize)%Z.

Definition draw_cell (rows : list JSON) (cellSize y x : nat)
    : Outcome (list CanvasOp) :=
  match row_cell (nth_error rows y) x with
  | Done v =>
      match fill_of v with
      | Done color =>
          Done [FillRect color (px x cellSize) (px y cellSize)
                         (Z.of_nat cellSize) (Z.of_nat cellSize);
                StrokeRect "#000000" 1 (px x cellSize) (px y cellSize)
                           (Z.of_nat cellSize) (Z.of_nat cellSize)]
      | TypeError => TypeError
      | Unfollowed => Unfollowed
      end
  | TypeError => TypeError
  | Unfollowed => Unfollowed
  end.

Definition draw_zone (width height cellSize y x : nat) : list CanvasOp :=
  [StrokeRect "#FFD700" 2 (px x cellSize) (px y cellSize)
              (px (Nat.min ZONE_SIZE (width - x)) cellSize)
              (px (Nat.min ZONE_SIZE (height - y)) cellSize);
   FillText "#FFFFFF" (x, y)
            (px x cellSize + 2)%Z
            (px y cellSize + Z.min 14 (Z.of_nat cellSize - 2))%Z].

Definition blank_canvas : Canvas :=
  mkCanvas 200 200 [FillRect "black" 0 0 200 200].

(** The two nested loops over the cells. *)
Definition draw_cells (rows : list JSON) (width height cellSize : nat)
    : Outcome (list CanvasOp) :=
  for_each (fun y => for_each (draw_cell rows cellSize y) (seq 0 width))
           (seq 0 height).

(** The two nested loops over the zones. *)
Definition draw_zones (width height cellSize : nat) : list CanvasOp :=
  List.concat
    (map (fun y =>
            List.concat (map (draw_zone width height cellSize y)
                             (zone_steps width 0 width)))
         (zone_steps height 0 height)).

(** The canvas [gridToPngBase64(grid, cellSize)] encodes. *)
Definition gridCanvas (grid : JSON) (cellSize : nat) : Outcome Canvas :=
  match grid with
  | JArr (JArr first :: rest) =>
      let rows := JArr first :: rest in
      let height := List.length rows in
      let width := List.length first in
      match draw_cells rows width height cellSize with
      | Done cells =>
          Done (mkCanvas (px width cellSize) (px height cellSize)
                  (cells ++ draw_zones width height cellSize)%list)
      | TypeError => TypeError
      | Unfollowed => Unfollowed
      end
  | _ => Done blank_canvas
  end.

Definition is_fill (op : CanvasOp) : bool :=
  match op with FillRect _ _ _ _ _ => true | _ => false end.

(** A cell that gets a colour, and a row of such cells. *)
Definition plain_cell (v : JSON) : Prop := exists c, cell_color v = Done c.
Definition plain_row (r : JSON) : Prop :=
  exists vs, r = JArr vs /\ Forall plain_cell vs.

(** ** The action reference of the prompt ([actionDocs]) *)

Definition docs : list (string * string) :=
  [("RESET", "Initialize or restarts the game/level state");
   ("ACTION1", "Simple action - varies by game (semantically mapped to up)");
   ("ACTION2", "Simple action - varies by game (semantically mapped to down)");
   ("ACTION3", "Simple action - varies by game (semantically mapped to left)");
   ("ACTION4", "Simple action - varies by game (semantically mapped to right)");
   ("ACTION5", "Simple action - varies by game (e.g., interact, select, rotate, attach/detach, execute, etc.)");
   ("ACTION6", "Complex action requiring x,y coordinates (0-63 range)");
   ("ACTION7", "Simple action - Undo (e.g., interact, select)")].

Definition newline : string := String (ascii_of_nat 10) EmptyString.

(** [docs[n] || ''] for the key an entry prints as: a description, an
    inherited member as it prints, or nothing. *)
Definition doc_text (key : string) : string :=
  match lookup_name key docs with
  | Some d => if nonempty d then d else ""
  | None => if inherited key then member_text key else ""
  end.

(** [`- ${n}: ${docs[n] || ''}`] *)
Definition doc_line (n : Name) : string :=
  "- " ++ print_name n ++ ": " ++ doc_text (print_name n).

Definition actionDocs (names : list Name) : string :=
  join newline (map doc_line names).

(** ** A scripted outside, for concrete runs

    A world that answers the calls of a session from two scripts, one per
    service, and a [JSON.parse] restricted to a handful of texts. *)

Module Demo.

Definition dq : string := String (ascii_of_nat 34) EmptyString.
Definition quoted (s : string) : string := dq ++ s ++ dq.
Definition member (k v : string) : string := quoted k ++ ":" ++ v.

Definition text_action1 : string :=
  "{" ++ member "action" (quoted "ACTION1") ++ ","
      ++ member "reason" (quoted "move up and watch the grid") ++ "}".
Definition value_action1 : JSON :=
  JObj [("action", JStr "ACTION1"); ("reason", JStr "move up and watch the grid")].

Definition text_action6_far : string :=
  "{" ++ member "action" (quoted "ACTION6") ++ "," ++ member "x" "70" ++ ","
      ++ member "y" "-1" ++ "}".
Definition value_action6_far : JSON :=
  JObj [("action", JStr "ACTION6"); ("x", JNum (num_of_Z 70));
        ("y", JNum (num_of_Z (-1)))].

Definition text_action6_inside : string :=
  "{" ++ member "action" (quoted "ACTION6") ++ "," ++ member "x" "12" ++ ","
      ++ member "y" "40" ++ "}".
Definition value_action6_inside : JSON :=
  JObj [("action", JStr "ACTION6"); ("x", JNum (num_of_Z 12));
        ("y", JNum (num_of_Z 40))].

Definition text_action6_text_x : string :=
  "{" ++ member "action" (quoted "ACTION6") ++ "," ++ member "x" (quoted "5") ++ "}".
Definition value_action6_text_x : JSON :=
  JObj [("action", JStr "ACTION6"); ("x", JStr "5")].

Definition text_action6_fraction : string :=
  "{" ++ member "action" (quoted "ACTION6") ++ "," ++ member "x" "12.5" ++ ","
      ++ member "y" "0.5" ++ "}".
Definition value_action6_fraction : JSON :=
  JObj [("action", JStr "ACTION6"); ("x", JNum (Fin (25 # 2)));
        ("y", JNum (Fin (1 # 2)))].

Definition text_no_action : string :=
  "{" ++ member "reason" (quoted "nothing to choose") ++ "}".
Definition value_no_action : JSON := JObj [("reason", JStr "nothing to choose")].

Definition text_numeric_reason : string := "{" ++ member "reason" "5" ++ "}".
Definition value_numeric_reason : JSON := JObj [("reason", JNum (num_of_Z 5))].

Definition text_action6_numeric_reason : string :=
  "{" ++ member "action" (quoted "ACTION6") ++ "," ++ member "x" (quoted "5") ++ ","
      ++ member "reason" "5" ++ "}".
Definition value_action6_numeric_reason : JSON :=
  JObj [("action", JStr "ACTION6"); ("x", JStr "5"); ("reason", JNum (num_of_Z 5))].

Definition texts : list (string * JSON) :=
  [ (text_action1, value_action1);
    (text_action6_far, value_action6_far);
    (text_action6_inside, value_action6_inside);
    (text_action6_text_x, value_action6_text_x);
    (text_action6_fraction, value_action6_fraction);
    (text_no_action, value_no_action);
    (text_numeric_reason, value_numeric_reason);
    (text_action6_numeric_reason, value_action6_numeric_reason);
    ("{}", JObj []); ("null", JNull) ].

Definition parse (s : string) : option JSON := assoc s texts.

(** A renderer that answers where the drawing of the grid completes. *)
Definition render (grid : JSON) : option string :=
  match gridCanvas grid 40 with
  | Done _ => Some "cGl4ZWxz"
  | _ => None
  end.

(** The texts of the scripts are short. *)
Definition slice200 (s : string) : string := substring 0 200 s.

Definition call (text : string) : OutputItem :=
  mkItem "function_call" (Some text) (Some "call_1").

Definition answer (text : string) : option Response :=
  Some (mkResponse (Some [mkItem "reasoning" None None; call text])).

Definition frame (state : string) (full_reset : bool) : JSON :=
  JObj [("guid", JStr "session-1"); ("state", JStr state);
        ("score", JNum (num_of_Z 0)); ("full_reset", JBool full_reset);
        ("frame", JArr [JArr [JArr [JNum (num_of_Z 0)]]]);
        ("available_actions", JArr [JNum (num_of_Z 1); JNum (num_of_Z 6)])].

Record World : Type := mkWorld {
  decisions : list (option Response);
  answers : list (option JSON)
}.

Definition post (url : string) (p : Payload) (w : World) : World * option JSON :=
  match answers w with
  | [] => (w, None)
  | r :: rest => (mkWorld (decisions w) rest, r)
  end.

Definition create (p : CreatePayload) (w : World) : World * option Response :=
  match decisions w with
  | [] => (w, None)
  | r :: rest => (mkWorld rest (answers w), r)
  end.

(** The debug file can always be written. *)
Definition write (input : list InputItem) (w : World) : World * bool := (w, true).

Definition fresh : Agent := newAgent "ls20" "card-7" "gpt-5" "".

(** An agent in the middle of a session: a session token, one frame. *)
Definition playing : Agent :=
  set_frames [frame "NOT_FINISHED" false] (set_guid (JStr "session-1") fresh).

End Demo.

(** ** The orchestrator *)

Section Orchestrator.

Set Default Proof Using "Type".

(** The outside of the agent: the state of the two remote services and of
    the file system, the game backend's [arc.post] and the decision
    service's [openai.responses.create] ([None] is a rejected call), the
    built-in [JSON.parse] ([None] is a [SyntaxError]), the renderer ([None]
    is a throw), [fs.writeFileSync] on the debug file ([false] is a throw)
    and the built-in slice of a string to its first 200 code units. *)
Context {World : Type}.
Variable arc_post : string -> Payload -> World -> World * option JSON.
Variable responses_create : CreatePayload -> World -> World * option Response.
Variable JSON_parse : string -> option JSON.
Variable gridToPngBase64 : JSON -> option string.
Variable fs_writeFileSync : list InputItem -> World -> World * bool.
Variable slice200 : string -> string.

(** [item.arguments ? JSON.parse(item.arguments) || {} : {}], inside its
    [try]/[catch]. *)
Definition parseArguments (item : OutputItem) : JSON :=
  match truthy_string (item_arguments item) with
  | Some s =>
      match JSON_parse s with
      | Some v => if truthy v then v else JObj []
      | None => JObj []
      end
  | None => JObj []
  end.

Definition is_function_call (item : OutputItem) : bool :=
  String.eqb (item_type item) "function_call".

(** The body of the [for] loop at the first [function_call] item. *)
Definition pickFrom (item : OutputItem) : Picked :=
  let args := parseArguments item in
  let actionName :=
    match is_string (prop "action" args) with
    | Some s => s
    | None => "RESET"
    end in
  let functionCallId := truthy_string (item_call_id item) in
  if String.eqb actionName "ACTION6" then
    match number_or_null (prop "x" args), number_or_null (prop "y" args) with
    | Some x, Some y =>
        mkPicked actionName args functionCallId
                 (Some (mkCoord (clamp63 x) (clamp63 y))) false
    | _, _ =>
        mkPicked actionName args functionCallId
                 (Some (mkCoord (num_of_Z 0) (num_of_Z 0))) true
    end
  else mkPicked actionName args functionCallId None false.

(** The scan of [response.output || []]: the first [function_call] decides,
    and without one the initial values stay. *)
Definition pickAction (out : option (list OutputItem)) : Picked :=
  match find is_function_call (match out with Some l => l | None => [] end) with
  | Some item => pickFrom item
  | None => mkPicked "RESET" (JObj []) None None false
  end.

(** *** Effects: the agent object, the world and the console *)

Record Sys : Type := mkSys {
  agent : Agent;
  world : World;
  trace : list Event
}.

Inductive Res (A : Type) : Type :=
| Ok (a : A) (s : Sys)
| Throw (s : Sys)
| OutOfFuel.

Arguments Ok {A} a s.
Arguments Throw {A} s.
Arguments OutOfFuel {A}.

Definition M (A : Type) : Type := Sys -> Res A.

Definition ret {A : Type} (a : A) : M A := fun s => Ok a s.

Definition bind {A B : Type} (m : M A) (k : A -> M B) : M B :=
  fun s =>
    match m s with
    | Ok a s' => k a s'
    | Throw s' => Throw s'
    | OutOfFuel => OutOfFuel
    end.

Notation "x <- m ;; k" := (bind m (fun x => k))
  (at level 61, m at next level, right associativity).
Notation "m ;;; k" := (bind m (fun _ => k))
  (at level 61, right associativity).

Definition this : M Agent := fun s => Ok (agent s) s.

Definition update (f : Agent -> Agent) : M unit :=
  fun s => Ok tt (mkSys (f (agent s)) (world s) (trace s)).

Definition emit (e : Event) : M unit :=
  fun s => Ok tt (mkSys (agent s) (world s) (trace s ++ [e])).

Definition throw {A : Type} : M A := fun s => Throw s.

(** [await arc.post(url, payload)] *)
Definition await_post (url : string) (p : Payload) : M JSON :=
  fun s =>
    let tr := (trace s ++ [CallPost url p])%list in
    match arc_post url p (world s) with
    | (w', Some data) => Ok data (mkSys (agent s) w' tr)
    | (w', None) => Throw (mkSys (agent s) w' tr)
    end.

(** [await openai.responses.create(payload)] *)
Definition await_create (p : CreatePayload) : M Response :=
  fun s =>
    let tr := (trace s ++ [CallDecision p])%list in
    match responses_create p (world s) with
    | (w', Some r) => Ok r (mkSys (agent s) w' tr)
    | (w', None) => Throw (mkSys (agent s) w' tr)
    end.

(** [fs.writeFileSync('messages.json', JSON.stringify(messagesInput, null,
    2))] *)
Definition write_messages (input : list InputItem) : M unit :=
  fun s =>
    let tr := (trace s ++ [WriteFile input])%list in
    match fs_writeFileSync input (world s) with
    | (w', true) => Ok tt (mkSys (agent s) w' tr)
    | (w', false) => Throw (mkSys (agent s) w' tr)
    end.

(** *** [callOpenAI]

    In the order of the source: the allowed names, whose lookup can throw,
    and their log line, the debug dump of the request input, which can
    throw, the request, the awaited answer, the usage log line, the scan of
    the output with its possible warning, then the meta object, whose
    preview can throw.  The token counters are left out, and so is
    [latestAction], which the function computes and never reads. *)

Definition callOpenAI (latestFrame : option JSON) (previousScreenB64 : option string)
    (currentScreenB64 : string) : M Decision :=
  a <- this ;;
  match allowedNamesOf latestFrame with
  | None => throw
  | Some allowedNames =>
      emit (ConsoleLog (AllowedActions allowedNames)) ;;;
      let createPayload :=
        createPayloadOf a allowedNames latestFrame currentScreenB64 in
      write_messages (cp_input createPayload) ;;;
      response <- await_create createPayload ;;
      emit (ConsoleLog TokenUsage) ;;;
      let pk := pickAction (output response) in
      (if pk_warned pk then emit (ConsoleWarn CoordinatesDefaulted) else ret tt) ;;;
      match response_preview slice200 (pk_args pk) with
      | None => throw
      | Some preview =>
          ret (decisionOf a allowedNames latestFrame currentScreenB64
                          (output response) pk preview)
      end
  end.

(** *** [doAction] *)

Definition doAction (actionName : string) (reasoningMeta : option JSON)
    (actionData : option Coord) : M JSON :=
  a <- this ;;
  let basePayload := buildPayload a actionName reasoningMeta actionData in
  data <- await_post (command_url actionName) basePayload ;;
  update (adoptGuid data) ;;;
  ret data.

(** Whether [`... score ${frame.score}, state ${frame.state}`] can be
    built: reading a property of [null] throws, and so does printing a score
    or a state that cannot be converted to a text. *)
Definition loggable (frame : JSON) : bool :=
  match frame with
  | JNull => false
  | _ => printable_opt (prop "score" frame) && printable_opt (prop "state" frame)
  end.

(** [console.log(`... score ${frame.score}, state ${frame.state}`)] *)
Definition log_result (actionName : string) (frame : JSON) : M unit :=
  if loggable frame
  then emit (ConsoleLog (ActionResult actionName (prop "score" frame) (prop "state" frame)))
  else throw.

(** [if (next?.full_reset) this.clearHistory()] *)
Definition handleFullReset (next : JSON) : M unit :=
  if truthy_opt (prop "full_reset" next) then update clearHistory else ret tt.

(** *** [loop] *)

(** One pass through the body of the [while], after the [WIN] test. *)
Definition turn (latest : option JSON) : M unit :=
  a <- this ;;
  match gridToPngBase64 (currentGridOf latest) with
  | None => throw
  | Some currentB64 =>
      let previousB64 := last_elem (screenHistory a) in
      d <- callOpenAI latest previousB64 currentB64 ;;
      update (rememberDecision currentB64 d) ;;;
      next <- doAction (d_actionName d) (Some (d_meta d)) (d_actionData d) ;;
      update (recordFrame next) ;;;
      log_result (d_actionName d) next ;;;
      update (pushTurn (turnRecord d next)) ;;;
      handleFullReset next
  end.

(** The [while (this.actionCounter < MAX_ACTIONS)] loop; [fuel] bounds the
    number of passes the model follows. *)
Fixpoint mainLoop (fuel : nat) : M unit :=
  fun s =>
    if under_budget (agent s) then
      if latest_is_win (agent s) then
        emit (ConsoleLog (WinReached (actionCounter (agent s)))) s
      else
        match fuel with
        | O => OutOfFuel
        | S fuel' => (turn (last_elem (frames (agent s))) ;;; mainLoop fuel') s
        end
    else Ok tt s.

Definition loop (fuel : nat) : M unit :=
  a <- this ;;
  firstFrame <- doAction "RESET" (Some (initial_meta a)) None ;;
  update (fun a => set_frames (frames a ++ [firstFrame])%list a) ;;;
  log_result "RESET" firstFrame ;;;
  mainLoop fuel.

(** The state a session starts from. *)
Definition start (a : Agent) (w : World) : Sys := mkSys a w [].


(** ** Vocabulary of the statements *)

(** The [k] most recently appended elements of [l], oldest first. *)
Definition most_recent {A : Type} (k : nat) (l : list A) : list A :=
  skipn (List.length l - k) l.

(** Appending the records [rs], one [push] at a time, to the window [ts]. *)
Definition appendTurns (limit : nat) (rs : list Turn) (ts : list Turn) : list Turn :=
  fold_left (fun w t => pushTurnWith limit t w) rs ts.

(** A decision object with every required text field in place. *)
Definition decision_args (action : string) (x y : JSON) : JSON :=
  JObj [("reason", JStr "testing how the grid reacts");
        ("short_description", JStr "probe");
        ("hypothesis", JStr "the cursor follows the action");
        ("aggregated_findings", JStr "nothing confirmed so far");
        ("action", JStr action); ("x", x); ("y", y)].

(** The values the schema of a coordinate field admits. *)
Definition coordinate_value (v : JSON) : bool :=
  match v with
  | JNull => true
  | JNum n => is_integer n && num_leb (num_of_Z 0) n && num_leb n (num_of_Z 63)
  | _ => false
  end.

(** The reading of the design document: a valid decision has null
    coordinates exactly when its action is not the coordinate action. *)
Definition coordinates_null_exactly_for_other_actions (allowed : list string) : Prop :=
  forall args,
    schema_accepts (decision_schema allowed) args = true ->
    (prop "x" args = Some JNull /\ prop "y" args = Some JNull)
    <-> is_string (prop "action" args) <> Some "ACTION6".

(** The fixed range of a coordinate: the integers of [0,63]. *)
Definition in_grid (v : num) : bool :=
  is_integer v && num_leb (num_of_Z 0) v && num_leb v (num_of_Z 63).

(** The range of the design document: the numbers of [0,63], whole or
    not. *)
Definition in_range (v : num) : bool :=
  num_leb (num_of_Z 0) v && num_leb v (num_of_Z 63).

(** The state a completed turn leaves, from the state after the submission. *)
Definition turn_end (d : Decision) (next : JSON) (s3 : Sys) : Sys :=
  let a4 := pushTurn (turnRecord d next) (recordFrame next (agent s3)) in
  mkSys (if truthy_opt (prop "full_reset" next) then clearHistory a4 else a4)
        (world s3)
        (trace s3 ++ [ConsoleLog (ActionResult (d_actionName d)
                                               (prop "score" next) (prop "state" next))]).

(** The call was issued during a run, however the run ended. *)
Definition submitted (url : string) (p : Payload) (r : Res unit) : Prop :=
  match r with
  | Ok _ s' | Throw s' => In (CallPost url p) (trace s')
  | OutOfFuel => False
  end.

Definition warned_during (r : Res unit) : Prop :=
  match r with
  | Ok _ s' | Throw s' => In (ConsoleWarn CoordinatesDefaulted) (trace s')
  | OutOfFuel => False
  end.

(** A parsed arguments object whose [reason] can be sliced. *)
Definition preview_defined (args : JSON) : bool :=
  match response_preview slice200 args with
  | Some _ => true
  | None => false
  end.

(** No action can be extracted: the output has no [function_call] item, or
    the arguments of its first one carry no string [action]. *)
Definition no_action_extracted (out : option (list OutputItem)) : bool :=
  match find is_function_call (match out with Some l => l | None => [] end) with
  | None => true
  | Some item =>
      match is_string (prop "action" (parseArguments item)) with
      | Some _ => false
      | None => true
      end
  end.

(** The events a run added to the trace it started from. *)
Definition added (s : Sys) (s' : Sys) : list Event :=
  skipn (List.length (trace s)) (trace s').

(** The decision request of a turn was issued and answered: the screen was
    rendered to [img], the allowed names [names] were found, the debug file
    was written, and the decision service answered the request with
    [response], leaving the outside as [w1]. *)
Definition decision_answered (latest : option JSON) (s : Sys) (img : string)
    (names : list Name) (response : Response) (w1 : World) : Prop :=
  gridToPngBase64 (currentGridOf latest) = Some img
  /\ allowedNamesOf latest = Some names
  /\ exists w0,
       fs_writeFileSync (messagesInputOf (agent s) names latest img) (world s)
       = (w0, true)
       /\ responses_create (createPayloadOf (agent s) names latest img) w0
          = (w1, Some response).

(** The fallback as the design document states it: RESET is submitted and a
    warning is logged, whatever the response without an action. *)
Definition reset_fallback_as_stated : Prop :=
  forall (latest : option JSON) (s : Sys) (img : string) (names : list Name)
         (w1 : World) (response : Response),
    decision_answered latest s img names response w1 ->
    no_action_extracted (output response) = true ->
    match turn latest s with
    | Ok _ s' | Throw s' =>
        (exists payload, In (CallPost (command_url "RESET") payload) (added s s'))
        /\ existsb is_warning (added s s') = true
    | OutOfFuel => False
    end.

(** The reading of the design document: a supplied pair that already lies
    within [0,63] x [0,63] is sent as it is. *)
Definition pair_in_range_sent_unchanged : Prop :=
  forall (a : Agent) (reasoningMeta : option JSON) (out : list OutputItem)
         (item : OutputItem) (x y : num),
    find is_function_call out = Some item ->
    is_string (prop "action" (parseArguments item)) = Some "ACTION6" ->
    prop "x" (parseArguments item) = Some (JNum x) ->
    prop "y" (parseArguments item) = Some (JNum y) ->
    in_range x = true -> in_range y = true ->
    let pk := pickAction (Some out) in
    let sent := buildPayload a (pk_actionName pk) reasoningMeta (pk_actionData pk) in
    exists x' y',
      p_x sent = Some x' /\ p_y sent = Some y' /\ num_eq x' x /\ num_eq y' y.

(** The reading of the design document: whenever the answered decision
    chooses ACTION6 with [x] or [y] missing or not a number, the turn goes
    on to submit ACTION6 at the origin. *)
Definition invalid_coordinates_always_submitted : Prop :=
  forall (latest : option JSON) (s : Sys) (img : string) (names : list Name)
         (w1 : World) (response : Response) (item : OutputItem),
    decision_answered latest s img names response w1 ->
    find is_function_call (match output response with Some l => l | None => [] end)
      = Some item ->
    is_string (prop "action" (parseArguments item)) = Some "ACTION6" ->
    number_or_null (prop "x" (parseArguments item)) = None
      \/ number_or_null (prop "y" (parseArguments item)) = None ->
    exists payload,
      p_x payload = Some (num_of_Z 0) /\ p_y payload = Some (num_of_Z 0)
      /\ submitted (command_url "ACTION6") payload (turn latest s).

(** The calls to the two services, in the order they were issued. *)
Inductive Call : Type :=
| Decide (p : CreatePayload)
| Submit (url : string) (p : Payload).

Fixpoint calls_of (tr : list Event) : list Call :=
  match tr with
  | [] => []
  | CallDecision p :: rest => Decide p :: calls_of rest
  | CallPost url p :: rest => Submit url p :: calls_of rest
  | _ :: rest => calls_of rest
  end.

(** Decision and submission strictly take turns, a decision first. *)
Fixpoint paired (cs : list Call) : bool :=
  match cs with
  | [] => true
  | Decide _ :: Submit _ _ :: rest => paired rest
  | _ => false
  end.

(** The same, where the last decision may be left without its submission. *)
Fixpoint paired_upto (cs : list Call) : bool :=
  match cs with
  | [] => true
  | Decide _ :: [] => true
  | Decide _ :: Submit _ _ :: rest => paired_upto rest
  | _ => false
  end.

(** A submission carries coordinates exactly when it goes to ACTION6, and
    then both lie in the grid. *)
Definition submit_coords (c : Call) : Prop :=
  match c with
  | Submit url p =>
      if String.eqb url (command_url "ACTION6")
      then exists x y, p_x p = Some x /\ p_y p = Some y
                       /\ in_grid x = true /\ in_grid y = true
      else p_x p = None /\ p_y p = None
  | Decide _ => True
  end.

(** What a submission of the agent [a] carries besides the action. *)
Definition submit_session (a : Agent) (c : Call) : Prop :=
  match c with
  | Submit url p =>
      p_game_id p = gameId a
      /\ p_reasoning p <> None
      /\ (p_card_id p <> None ->
          url = command_url "RESET" /\ p_card_id p = Some (cardId a))
      /\ (truthy (guid a) = true -> p_guid p <> None)
  | Decide _ => True
  end.

(** The shape of a decision request of the agent [a]: its input ends with
    a user message, whose allowed names are those of the tool schema and of
    the instructions. *)
Definition decide_shape (a : Agent) (c : Call) : Prop :=
  match c with
  | Decide p =>
      cp_model p = model a
      /\ cp_tool_choice p = "required"
      /\ cp_parallel_tool_calls p = false
      /\ exists (older : list InputItem) (m : UserMessage),
           cp_input p = (older ++ [UserMsg m])%list
           /\ cp_tools p = buildReasoningTools (um_allowed m)
           /\ cp_instructions p = um_allowed m
  | Submit _ _ => True
  end.

(** The decision requests among the calls. *)
Fixpoint requests (cs : list Call) : list CreatePayload :=
  match cs with
  | [] => []
  | Decide p :: rest => p :: requests rest
  | Submit _ _ :: rest => requests rest
  end.

(** What the request of a turn sends when [this.turns] is [ts]: the
    [MESSAGE_LIMIT] most recent of the stored turns, in order and in full,
    then the user message [m] of the turn. *)
Definition sends_window (ts : list Turn) (m : UserMessage) (p : CreatePayload)
    : Prop :=
  cp_input p = (List.concat (most_recent MESSAGE_LIMIT ts) ++ [UserMsg m])%list
  /\ List.length (most_recent MESSAGE_LIMIT ts) <= MESSAGE_LIMIT.

(** The requests [ps] of the turns that appended the records [rs], one
    after the other, to a window that started as [ts]: each request sends
    the window as stored at its turn, and its user message heads the record
    its turn appends. *)
Fixpoint window_inputs (ts : list Turn) (rs : list Turn) (ps : list CreatePayload)
    : Prop :=
  match rs, ps with
  | [], [] => True
  | r :: rs', p :: ps' =>
      (exists m rest, r = UserMsg m :: rest /\ sends_window ts m p)
      /\ window_inputs (pushTurnWith MESSAGE_LIMIT r ts) rs' ps'
  | _, _ => False
  end.

(** The agent a completed turn leaves. *)
Definition agent_after_turn (img : string) (d : Decision) (next : JSON) (a : Agent)
    : Agent :=
  let a4 := pushTurn (turnRecord d next)
              (recordFrame next (adoptGuid next (rememberDecision img d a))) in
  if truthy_opt (prop "full_reset" next) then clearHistory a4 else a4.

(** A state and a result with the two histories forgotten. *)
Definition erase_sys (s : Sys) : Sys :=
  mkSys (clearHistory (agent s)) (world s) (trace s).

Definition erase_res {A : Type} (r : Res A) : Res A :=
  match r with
  | Ok a s => Ok a (erase_sys s)
  | Throw s => Throw (erase_sys s)
  | OutOfFuel => OutOfFuel
  end.

(** ** Facts about the window operations *)

Lemma slice_from_end {A : Type} (k : nat) (l : list A) :
  0 < k -> slice (- Z.of_nat k) l = most_recent k l.
Proof.
  intros Hk. unfold slice, most_recent.
  destruct (Z.ltb_spec (- Z.of_nat k) 0) as [_ | Hge]; [ | lia ].
  f_equal. lia.
Qed.

Lemma slice_minus_zero {A : Type} (l : list A) : slice (- Z.of_nat 0) l = l.
Proof.
  unfold slice. simpl. rewrite Z.min_l by lia. reflexivity.
Qed.

Lemma most_recent_all {A : Type} (k : nat) (l : list A) :
  List.length l <= k -> most_recent k l = l.
Proof.
  intros H. unfold most_recent.
  replace (List.length l - k) with 0 by lia. reflexivity.
Qed.

Lemma most_recent_length {A : Type} (k : nat) (l : list A) :
  k <= List.length l -> List.length (most_recent k l) = k.
Proof.
  intros H. unfold most_recent. rewrite length_skipn. lia.
Qed.

Lemma most_recent_app_long {A : Type} (k : nat) (l1 l2 : list A) :
  k <= List.length l2 -> most_recent k (l1 ++ l2) = most_recent k l2.
Proof.
  intros H. unfold most_recent.
  rewrite length_app, skipn_app.
  rewrite (skipn_all2 (n := List.length l1 + List.length l2 - k) l1) by lia.
  simpl. f_equal. lia.
Qed.

Lemma most_recent_idem_app {A : Type} (k : nat) (l1 l2 : list A) :
  most_recent k (most_recent k l1 ++ l2) = most_recent k (l1 ++ l2).
Proof.
  destruct (Nat.le_gt_cases (List.length l1) k) as [Hle | Hgt].
  - now rewrite (most_recent_all k l1 Hle).
  - unfold most_recent at 1 3.
    rewrite !length_app, most_recent_length by lia.
    unfold most_recent.
    replace (skipn (List.length l1 - k) l1 ++ l2)%list
      with (skipn (List.length l1 - k) (l1 ++ l2)).
    + rewrite skipn_skipn. f_equal. lia.
    + rewrite skipn_app.
      replace (List.length l1 - k - List.length l1) with 0 by lia.
      reflexivity.
Qed.

Lemma pushTurnWith_recent (k : nat) (t : Turn) (ts : list Turn) :
  0 < k -> pushTurnWith k t ts = most_recent k (ts ++ [t]).
Proof.
  intros Hk. unfold pushTurnWith.
  destruct (Nat.ltb_spec k (List.length (ts ++ [t]))) as [Hlt | Hge].
  - now apply slice_from_end.
  - symmetry. now apply most_recent_all.
Qed.

Lemma pushTurnWith_zero (t : Turn) (ts : list Turn) :
  pushTurnWith 0 t ts = (ts ++ [t])%list.
Proof.
  unfold pushTurnWith. rewrite length_app. simpl.
  destruct (Nat.ltb_spec 0 (List.length ts + 1)); [ apply slice_minus_zero | lia ].
Qed.

Lemma appendTurns_recent (k : nat) (rs ts : list Turn) :
  0 < k -> appendTurns k rs (most_recent k ts) = most_recent k (ts ++ rs).
Proof.
  intros Hk. revert ts.
  induction rs as [ | r rs IH]; intros ts; simpl.
  - now rewrite app_nil_r.
  - rewrite pushTurnWith_recent by assumption.
    rewrite most_recent_idem_app, IH, <- app_assoc. reflexivity.
Qed.

Lemma appendTurns_zero (rs ts : list Turn) :
  appendTurns 0 rs ts = (ts ++ rs)%list.
Proof.
  revert ts. induction rs as [ | r rs IH]; intros ts; simpl.
  - now rewrite app_nil_r.
  - rewrite pushTurnWith_zero, IH, <- app_assoc. reflexivity.
Qed.

Lemma flattenTurnsWith_recent (k : nat) (ts : list Turn) :
  flattenTurnsWith k ts = List.concat (most_recent k ts).
Proof.
  unfold flattenTurnsWith, flat, slice, most_recent.
  destruct (Z.ltb_spec (Z.max 0 (Z.of_nat (List.length ts) - Z.of_nat k)) 0);
    [ lia | ].
  do 2 f_equal. lia.
Qed.

Lemma most_recent_twice {A : Type} (k : nat) (l : list A) :
  most_recent k (most_recent k l) = most_recent k l.
Proof.
  generalize (most_recent_idem_app k l []). now rewrite !app_nil_r.
Qed.

Lemma appendTurns_most_recent (k : nat) (ts0 rs : list Turn) :
  0 < k -> k <= List.length rs -> appendTurns k rs ts0 = most_recent k rs.
Proof.
  intros Hk Hlen.
  destruct rs as [ | r rs]; [ simpl in Hlen; lia | ].
  simpl. rewrite pushTurnWith_recent by assumption.
  rewrite appendTurns_recent by assumption.
  rewrite <- app_assoc. simpl.
  apply most_recent_app_long. exact Hlen.
Qed.

Lemma flatten_appendTurns (k : nat) (ts0 rs : list Turn) :
  k <= List.length rs ->
  flattenTurnsWith k (appendTurns k rs ts0) = List.concat (most_recent k rs).
Proof.
  intros Hlen. destruct k as [ | k'].
  - rewrite appendTurns_zero, flattenTurnsWith_recent.
    unfold most_recent. rewrite !Nat.sub_0_r, !skipn_all. reflexivity.
  - rewrite appendTurns_most_recent by lia.
    rewrite flattenTurnsWith_recent, most_recent_twice. reflexivity.
Qed.

(** C2. For every window cap [k] and every sequence of at least [k] turn
    records appended one by one (from any earlier window), the window the
    next decision call reads is the [k] most recent records in the order they
    were appended: [flattenTurns] yields their items oldest first, and for a
    cap of at least one the stored array is exactly these [k] records. *)
Theorem window_keeps_most_recent :
  forall (k : nat) (ts0 rs : list Turn),
    k <= List.length rs ->
    (0 < k -> appendTurns k rs ts0 = most_recent k rs)
    /\ flattenTurnsWith k (appendTurns k rs ts0) = List.concat (most_recent k rs).
Proof.
  intros k ts0 rs Hlen. split.
  - intros Hk. now apply appendTurns_most_recent.
  - now apply flatten_appendTurns.
Qed.

Lemma turns_fold_pushTurn (rs : list Turn) (a : Agent) :
  turns (fold_left (fun a t => pushTurn t a) rs a)
  = appendTurns MESSAGE_LIMIT rs (turns a).
Proof.
  revert a. induction rs as [ | r rs IH]; intros a; simpl.
  - reflexivity.
  - rewrite IH. reflexivity.
Qed.

(** The same at the program's own cap, on the agent object. *)
Lemma agent_window_most_recent (a : Agent) (rs : list Turn) :
  MESSAGE_LIMIT <= List.length rs ->
  let a' := fold_left (fun a t => pushTurn t a) rs a in
  turns a' = most_recent MESSAGE_LIMIT rs
  /\ flattenTurns a' = List.concat (most_recent MESSAGE_LIMIT rs).
Proof.
  intros Hlen a'.
  assert (Ht : turns a' = appendTurns MESSAGE_LIMIT rs (turns a))
    by apply turns_fold_pushTurn.
  unfold flattenTurns. rewrite Ht.
  split.
  - apply appendTurns_most_recent; [ unfold MESSAGE_LIMIT; lia | exact Hlen ].
  - now apply flatten_appendTurns.
Qed.

(** ** Facts about the decision schema *)

Lemma includes_name_Named (s : string) (l : list string) :
  includes_name s (map Named l) = includes s l.
Proof.
  unfold includes_name, includes.
  induction l as [ | t l IH]; cbn; [ reflexivity | now rewrite IH ].
Qed.

Lemma coord_prop_accepts (d : string) (v : JSON) :
  value_accepted (coord_prop d) v = coordinate_value v.
Proof.
  unfold value_accepted, coord_prop, coordinate_value. simpl.
  destruct v as [ | b | n | s | xs | fs]; simpl; try reflexivity.
  rewrite !orb_false_r, !andb_true_r. reflexivity.
Qed.

(** C4. Without ACTION6 among the permitted names the schema has
    no [x] or [y] property and requires neither; with it, [x] and [y] are
    required properties of type integer-or-null with minimum 0 and maximum
    63, described as null for any other action.  The schema does not tie
    their nullness to the action: a complete decision object is accepted
    exactly when its action is permitted and each coordinate is, on its own,
    null or an integer of [0,63]. *)
Theorem schema_coordinate_fields :
  forall (allowed : list string),
    let sch := decision_schema allowed in
    if includes "ACTION6" allowed then
      lookup_prop "x" (properties sch) = Some (coord_prop x_description)
      /\ lookup_prop "y" (properties sch) = Some (coord_prop y_description)
      /\ In "x" (required sch) /\ In "y" (required sch)
      /\ ps_type (coord_prop x_description) = ["integer"; "null"]
      /\ ps_minimum (coord_prop x_description) = Some 0%Z
      /\ ps_maximum (coord_prop x_description) = Some 63%Z
      /\ ps_type (coord_prop y_description) = ["integer"; "null"]
      /\ ps_minimum (coord_prop y_description) = Some 0%Z
      /\ ps_maximum (coord_prop y_description) = Some 63%Z
      /\ (forall a x y,
            schema_accepts sch (decision_args a x y)
            = includes a allowed && coordinate_value x && coordinate_value y)
    else
      lookup_prop "x" (properties sch) = None
      /\ lookup_prop "y" (properties sch) = None
      /\ ~ In "x" (required sch) /\ ~ In "y" (required sch).
Proof.
  intros allowed sch. subst sch.
  unfold decision_schema, schema_of, buildReasoningTools.
  rewrite includes_name_Named.
  destruct (includes "ACTION6" allowed) eqn:H6; simpl.
  - repeat split; auto 10.
    intros a x y. unfold schema_accepts. simpl.
    rewrite !coord_prop_accepts.
    unfold value_accepted. simpl.
    rewrite includes_name_Named.
    rewrite !andb_true_r. now rewrite andb_assoc.
  - repeat split; auto; intros H; simpl in H; intuition discriminate.
Qed.

(** ** Facts about coordinates *)

Lemma num_leb_of_Z (a b : Z) : num_leb (num_of_Z a) (num_of_Z b) = (a <=? b)%Z.
Proof.
  unfold num_leb, num_of_Z, Qle_bool. simpl. now rewrite !Z.mul_1_r.
Qed.

Lemma Qtrunc_inject_Z (z : Z) : Qtrunc (inject_Z z) = z.
Proof. unfold Qtrunc. simpl. apply Z.quot_1_r. Qed.

Lemma in_grid_of_Z (z : Z) : in_grid (num_of_Z z) = ((0 <=? z)%Z && (z <=? 63)%Z).
Proof.
  unfold in_grid. rewrite !num_leb_of_Z.
  unfold is_integer, num_of_Z. rewrite Qtrunc_inject_Z.
  assert (H : Qeq_bool (inject_Z z) (inject_Z z) = true)
    by (apply Qeq_bool_iff; reflexivity).
  now rewrite H.
Qed.

Lemma clamp63_finite (q : Q) :
  clamp63 (Fin q) = num_of_Z (Z.min 63 (Z.max 0 (Qtrunc q))).
Proof.
  unfold clamp63, Math_min, Math_max, Math_trunc.
  rewrite num_leb_of_Z.
  destruct (Z.leb_spec (Qtrunc q) 0) as [H0 | H0];
    rewrite num_leb_of_Z;
    match goal with |- context [Z.leb ?a ?b] => destruct (Z.leb_spec a b) end;
    f_equal; lia.
Qed.

Lemma clamp63_in_grid (v : num) : in_grid (clamp63 v) = true.
Proof.
  destruct v as [q | | ].
  - rewrite clamp63_finite, in_grid_of_Z.
    apply andb_true_intro; split; apply Z.leb_le; lia.
  - reflexivity.
  - reflexivity.
Qed.

Lemma in_grid_inv (v : num) :
  in_grid v = true ->
  exists q, v = Fin q /\ Qeq q (inject_Z (Qtrunc q))
            /\ (0 <= Qtrunc q <= 63)%Z.
Proof.
  unfold in_grid. intros H.
  apply andb_prop in H. destruct H as [H H63].
  apply andb_prop in H. destruct H as [Hint H0].
  destruct v as [q | | ]; try discriminate.
  exists q. simpl in Hint. apply Qeq_bool_iff in Hint.
  split; [ reflexivity | split; [ exact Hint | ] ].
  unfold num_leb, num_of_Z in H0, H63.
  apply Qle_bool_iff in H0. apply Qle_bool_iff in H63.
  rewrite Hint in H0, H63.
  rewrite <- Zle_Qle in H0, H63. lia.
Qed.

Lemma clamp63_fixed_in_grid (v : num) : num_eq (clamp63 v) v -> in_grid v = true.
Proof.
  destruct v as [q | | ]; [ | intros [] | intros [] ].
  rewrite clamp63_finite.
  set (z := Z.min 63 (Z.max 0 (Qtrunc q))).
  assert (Hz : (0 <= z <= 63)%Z) by (unfold z; lia).
  clearbody z. unfold num_of_Z, num_eq. intros Hq.
  assert (Ht : Qtrunc q = z).
  { assert (Hn : Qnum q = (z * Zpos (Qden q))%Z)
      by (unfold Qeq in Hq; simpl in Hq; lia).
    unfold Qtrunc. rewrite Hn. apply Z.quot_mul. discriminate. }
  unfold in_grid, is_integer, num_leb, num_of_Z. rewrite Ht.
  apply andb_true_intro; split; [ apply andb_true_intro; split | ].
  - apply Qeq_bool_iff. symmetry. exact Hq.
  - apply Qle_bool_iff. rewrite <- Hq, <- Zle_Qle. lia.
  - apply Qle_bool_iff. rewrite <- Hq, <- Zle_Qle. lia.
Qed.

Lemma clamp63_fixes_grid (v : num) : in_grid v = true -> num_eq (clamp63 v) v.
Proof.
  intros H. destruct (in_grid_inv v H) as (q & -> & Hq & Hr).
  rewrite clamp63_finite.
  replace (Z.min 63 (Z.max 0 (Qtrunc q))) with (Qtrunc q) by lia.
  simpl. symmetry. exact Hq.
Qed.

(** C6. When the decision chooses ACTION6 with two numbers [x] and [y], the
    pair sent with the submission is the sanitized pair: each number is cut
    to its integer part and then clamped, so each coordinate is an integer
    of [0,63], and it is the supplied coordinate exactly when that one
    already was an integer of [0,63].  The pair 70, -1 is sent as 63, 0. *)
Theorem coordinates_clamped :
  forall (a : Agent) (reasoningMeta : option JSON) (out : list OutputItem)
         (item : OutputItem) (x y : num),
    find is_function_call out = Some item ->
    is_string (prop "action" (parseArguments item)) = Some "ACTION6" ->
    prop "x" (parseArguments item) = Some (JNum x) ->
    prop "y" (parseArguments item) = Some (JNum y) ->
    let pk := pickAction (Some out) in
    let sent := buildPayload a (pk_actionName pk) reasoningMeta (pk_actionData pk) in
    pk_actionData pk = Some (mkCoord (clamp63 x) (clamp63 y))
    /\ p_x sent = Some (clamp63 x) /\ p_y sent = Some (clamp63 y)
    /\ in_grid (clamp63 x) = true /\ in_grid (clamp63 y) = true
    /\ (in_grid x = true <-> num_eq (clamp63 x) x)
    /\ (in_grid y = true <-> num_eq (clamp63 y) y)
    /\ clamp63 (num_of_Z 70) = num_of_Z 63
    /\ clamp63 (num_of_Z (-1)) = num_of_Z 0.
Proof.
  intros a meta out item x y Hfind Hact Hx Hy pk sent.
  assert (Hpk : pk = mkPicked "ACTION6" (parseArguments item)
                       (truthy_string (item_call_id item))
                       (Some (mkCoord (clamp63 x) (clamp63 y))) false).
  { subst pk. unfold pickAction. rewrite Hfind. unfold pickFrom.
    rewrite Hact, Hx, Hy. reflexivity. }
  subst sent. rewrite Hpk. simpl.
  repeat split;
    auto using clamp63_in_grid, clamp63_fixes_grid, clamp63_fixed_in_grid.
Qed.

(** ** How the effectful operations run *)

Lemma callOpenAI_run (latest : option JSON) (prev : option string) (img : string)
    (s : Sys) :
  callOpenAI latest prev img s =
  let a := agent s in
  match allowedNamesOf latest with
  | None => Throw s
  | Some names =>
      let cp := createPayloadOf a names latest img in
      let tr0 := ((trace s ++ [ConsoleLog (AllowedActions names)])
                    ++ [WriteFile (cp_input cp)])%list in
      match fs_writeFileSync (cp_input cp) (world s) with
      | (w0, false) => Throw (mkSys a w0 tr0)
      | (w0, true) =>
          let tr1 := (tr0 ++ [CallDecision cp])%list in
          match responses_create cp w0 with
          | (w1, None) => Throw (mkSys a w1 tr1)
          | (w1, Some response) =>
              let pk := pickAction (output response) in
              let tr2 := (tr1 ++ [ConsoleLog TokenUsage])%list in
              let tr3 := if pk_warned pk
                         then (tr2 ++ [ConsoleWarn CoordinatesDefaulted])%list
                         else tr2 in
              match response_preview slice200 (pk_args pk) with
              | None => Throw (mkSys a w1 tr3)
              | Some preview =>
                  Ok (decisionOf a names latest img (output response) pk preview)
                     (mkSys a w1 tr3)
              end
          end
      end
  end.
Proof.
  unfold callOpenAI. unfold bind at 1. unfold this at 1. cbv zeta.
  destruct (allowedNamesOf latest) as [names | ]; [ | destruct s; reflexivity ].
  unfold bind, emit, write_messages, await_create, ret, throw. simpl.
  destruct (fs_writeFileSync _ _) as [w0 [ | ]]; simpl; [ | reflexivity ].
  destruct (responses_create _ _) as [w1 [response | ]]; simpl; [ | reflexivity ].
  destruct (pk_warned _); simpl;
    destruct (response_preview _ _); reflexivity.
Qed.

Lemma doAction_run (actionName : string) (reasoningMeta : option JSON)
    (actionData : option Coord) (s : Sys) :
  doAction actionName reasoningMeta actionData s =
  let a := agent s in
  let payload := buildPayload a actionName reasoningMeta actionData in
  let tr := (trace s ++ [CallPost (command_url actionName) payload])%list in
  match arc_post (command_url actionName) payload (world s) with
  | (w', Some data) => Ok data (mkSys (adoptGuid data a) w' tr)
  | (w', None) => Throw (mkSys a w' tr)
  end.
Proof.
  unfold doAction, bind, this, await_post, update, ret. simpl.
  destruct (arc_post _ _ _) as [w' [data | ]]; reflexivity.
Qed.

Lemma turn_run (latest : option JSON) (s : Sys) :
  turn latest s =
  match gridToPngBase64 (currentGridOf latest) with
  | None => Throw s
  | Some img =>
      match callOpenAI latest (last_elem (screenHistory (agent s))) img s with
      | Ok d s1 =>
          let s2 := mkSys (rememberDecision img d (agent s1)) (world s1) (trace s1) in
          match doAction (d_actionName d) (Some (d_meta d)) (d_actionData d) s2 with
          | Ok next s3 =>
              if loggable next
              then Ok tt (turn_end d next s3)
              else Throw (mkSys (recordFrame next (agent s3)) (world s3) (trace s3))
          | Throw s3 => Throw s3
          | OutOfFuel => OutOfFuel
          end
      | Throw s1 => Throw s1
      | OutOfFuel => OutOfFuel
      end
  end.
Proof.
  unfold turn. unfold bind at 1. unfold this at 1. simpl.
  destruct (gridToPngBase64 _) as [img | ]; [ | reflexivity ].
  unfold bind at 1.
  destruct (callOpenAI _ _ _ _) as [d s1 | s1 | ]; try reflexivity.
  unfold bind at 1. unfold update at 1. simpl.
  unfold bind at 1.
  destruct (doAction _ _ _ _) as [next s3 | s3 | ]; try reflexivity.
  unfold bind, update, log_result, handleFullReset, turn_end, emit, throw, ret.
  simpl. destruct (loggable next); simpl; [ | reflexivity ].
  destruct (truthy_opt _); reflexivity.
Qed.

(** Field by field, what the pieces of a turn leave alone. *)
Lemma adoptGuid_fields (data : JSON) (a : Agent) :
  turns (adoptGuid data a) = turns a
  /\ actionCounter (adoptGuid data a) = actionCounter a
  /\ frames (adoptGuid data a) = frames a
  /\ history (adoptGuid data a) = history a
  /\ screenHistory (adoptGuid data a) = screenHistory a
  /\ cardId (adoptGuid data a) = cardId a
  /\ gameId (adoptGuid data a) = gameId a.
Proof.
  unfold adoptGuid. destruct (prop "guid" data) as [g | ]; [ | auto 10 ].
  destruct (truthy g); simpl; auto 10.
Qed.

Lemma count_decisions_app (tr1 tr2 : list Event) :
  count_decisions (tr1 ++ tr2) = count_decisions tr1 + count_decisions tr2.
Proof. unfold count_decisions. now rewrite filter_app, length_app. Qed.

Lemma count_posts_app (tr1 tr2 : list Event) :
  count_posts (tr1 ++ tr2) = count_posts tr1 + count_posts tr2.
Proof. unfold count_posts. now rewrite filter_app, length_app. Qed.

Ltac count_events :=
  rewrite ?count_decisions_app, ?count_posts_app;
  change (count_decisions []) with 0;
  change (count_posts []) with 0;
  repeat match goal with
    | |- context [count_decisions [?e]] =>
        let n := eval cbv in (count_decisions [e]) in
        change (count_decisions [e]) with n
    | |- context [count_posts [?e]] =>
        let n := eval cbv in (count_posts [e]) in
        change (count_posts [e]) with n
    end;
  try lia.

(** What one call of [callOpenAI] does to the agent and to the trace. *)
Lemma callOpenAI_effect (latest : option JSON) (prev : option string) (img : string)
    (s : Sys) :
  match callOpenAI latest prev img s with
  | Ok _ s1 =>
      agent s1 = agent s
      /\ count_decisions (trace s1) = count_decisions (trace s) + 1
      /\ count_posts (trace s1) = count_posts (trace s)
  | Throw s1 =>
      agent s1 = agent s
      /\ count_decisions (trace s1) <= count_decisions (trace s) + 1
      /\ count_posts (trace s1) = count_posts (trace s)
  | OutOfFuel => False
  end.
Proof.
  rewrite callOpenAI_run. cbv zeta.
  destruct (allowedNamesOf latest) as [names | ]; [ | repeat split; lia ].
  destruct (fs_writeFileSync _ _) as [w0 [ | ]]; cbn [agent trace];
    [ | split; [ reflexivity | count_events ] ].
  destruct (responses_create _ _) as [w1 [response | ]]; cbn [agent trace].
  - destruct (response_preview _ _); cbn [agent trace];
      (split; [ reflexivity | ]);
      destruct (pk_warned _);
      count_events.
  - split; [ reflexivity | ].
    count_events.
Qed.

Lemma doAction_effect (actionName : string) (reasoningMeta : option JSON)
    (actionData : option Coord) (s : Sys) :
  match doAction actionName reasoningMeta actionData s with
  | Ok data s1 =>
      agent s1 = adoptGuid data (agent s)
      /\ count_decisions (trace s1) = count_decisions (trace s)
      /\ count_posts (trace s1) = count_posts (trace s) + 1
  | Throw s1 =>
      agent s1 = agent s
      /\ count_decisions (trace s1) = count_decisions (trace s)
      /\ count_posts (trace s1) = count_posts (trace s) + 1
  | OutOfFuel => False
  end.
Proof.
  rewrite doAction_run. simpl.
  destruct (arc_post _ _ _) as [w' [data | ]]; simpl;
    (split; [ reflexivity | ]);
    count_events.
Qed.

(** What one turn does to the counter, the window and the trace. *)
Lemma turn_effect (latest : option JSON) (s : Sys) :
  match turn latest s with
  | Ok _ s' =>
      actionCounter (agent s') = actionCounter (agent s) + 1
      /\ count_decisions (trace s') = count_decisions (trace s) + 1
      /\ count_posts (trace s') = count_posts (trace s) + 1
      /\ exists d next,
           turns (agent s')
           = pushTurnWith MESSAGE_LIMIT (turnRecord d next) (turns (agent s))
           /\ frames (agent s') = (frames (agent s) ++ [next])%list
  | Throw s' =>
      turns (agent s') = turns (agent s)
      /\ actionCounter (agent s') <= actionCounter (agent s) + 1
      /\ count_decisions (trace s') <= count_decisions (trace s) + 1
      /\ count_posts (trace s') <= count_posts (trace s) + 1
  | OutOfFuel => False
  end.
Proof.
  rewrite turn_run.
  destruct (gridToPngBase64 (currentGridOf latest)) as [img | ];
    [ | repeat split; lia ].
  generalize (callOpenAI_effect latest (last_elem (screenHistory (agent s))) img s).
  destruct (callOpenAI _ _ _ _) as [d s1 | s1 | ]; [ | | tauto ].
  - intros (Ha1 & Hd1 & Hp1). cbv zeta.
    set (s2 := mkSys _ (world s1) (trace s1)).
    generalize (doAction_effect (d_actionName d) (Some (d_meta d)) (d_actionData d) s2).
    destruct (doAction _ _ _ _) as [next s3 | s3 | ]; [ | | tauto ].
    + intros (Ha3 & Hd3 & Hp3). simpl in Ha3, Hd3, Hp3.
      destruct (adoptGuid_fields next (rememberDecision img d (agent s1)))
        as (Gt & Gc & Gf & _).
      rewrite <- Ha3 in Gt, Gc, Gf. rewrite Ha1 in Gt, Gc, Gf.
      simpl in Gt, Gc, Gf.
      destruct (loggable next).
      * unfold turn_end. simpl.
        count_events.
        repeat split; try lia.
        -- destruct (truthy_opt _); simpl; lia.
        -- exists d, next. destruct (truthy_opt _); simpl; rewrite Gt, Gf; auto.
      * simpl. rewrite Gt, Gc. repeat split; try lia.
    + intros (Ha3 & Hd3 & Hp3). simpl in Ha3, Hd3, Hp3.
      rewrite Ha3, Ha1. simpl. repeat split; try lia.
  - intros (Ha1 & Hd1 & Hp1). rewrite Ha1. repeat split; try lia.
Qed.

(** ** The loop: budget and WIN *)

Lemma mainLoop_bounded (fuel : nat) :
  forall s : Sys,
    MAX_ACTIONS - actionCounter (agent s) <= fuel ->
    match mainLoop fuel s with
    | Ok _ s' =>
        (MAX_ACTIONS <= actionCounter (agent s') \/ latest_is_win (agent s') = true)
        /\ actionCounter (agent s') <= Nat.max MAX_ACTIONS (actionCounter (agent s))
        /\ count_decisions (trace s')
           <= count_decisions (trace s) + (MAX_ACTIONS - actionCounter (agent s))
        /\ count_posts (trace s')
           <= count_posts (trace s) + (MAX_ACTIONS - actionCounter (agent s))
    | Throw s' =>
        count_decisions (trace s')
        <= count_decisions (trace s) + (MAX_ACTIONS - actionCounter (agent s))
        /\ count_posts (trace s')
           <= count_posts (trace s) + (MAX_ACTIONS - actionCounter (agent s))
    | OutOfFuel => False
    end.
Proof.
  induction fuel as [ | fuel IH]; intros s Hfuel; cbn [mainLoop];
    unfold under_budget;
    destruct (Nat.ltb_spec (actionCounter (agent s)) MAX_ACTIONS) as [Hlt | Hge];
    try (split; [ left; exact Hge | repeat split; lia ]).
  - destruct (latest_is_win (agent s)) eqn:Hwin; [ | lia ].
    unfold emit. cbn [agent trace].
    split; [ right; exact Hwin | repeat split; count_events ].
  - destruct (latest_is_win (agent s)) eqn:Hwin.
    + unfold emit. cbn [agent trace].
      split; [ right; exact Hwin | repeat split; count_events ].
    + unfold bind.
      generalize (turn_effect (last_elem (frames (agent s))) s).
      destruct (turn _ s) as [[] s1 | s1 | ]; [ | | tauto ].
      * intros (Hc & Hd & Hp & _).
        specialize (IH s1). rewrite Hc in IH.
        assert (Hf : MAX_ACTIONS - (actionCounter (agent s) + 1) <= fuel) by lia.
        specialize (IH Hf).
        destruct (mainLoop fuel s1) as [[] s2 | s2 | ]; [ | | exact IH ].
        -- destruct IH as (Hstop & Hmax & Hcount & Hposts).
           split; [ exact Hstop | repeat split; lia ].
        -- lia.
      * intros (_ & _ & Hd & Hp). lia.
Qed.

Lemma mainLoop_at_win (fuel : nat) (s : Sys) :
  latest_is_win (agent s) = true ->
  exists s', mainLoop fuel s = Ok tt s'
             /\ agent s' = agent s /\ world s' = world s
             /\ count_decisions (trace s') = count_decisions (trace s)
             /\ count_posts (trace s') = count_posts (trace s).
Proof.
  intros Hwin.
  destruct fuel; simpl; rewrite Hwin;
    destruct (under_budget (agent s));
    eexists; (split; [ reflexivity | ]); simpl;
    repeat split; count_events.
Qed.

(** C3. From any state, fuel for the remaining budget is enough for the loop
    to stop: it returns, or an awaited call throws.  It issues at most
    [MAX_ACTIONS] minus the current counter decision calls.  When it returns,
    the counter has reached [MAX_ACTIONS] or the latest frame is a WIN; and
    from a state whose latest frame is a WIN it returns at once, with the
    agent untouched and no decision or submission issued. *)
Theorem loop_stops_within_budget :
  forall (fuel : nat) (s : Sys),
    MAX_ACTIONS - actionCounter (agent s) <= fuel ->
    exists s',
      ((mainLoop fuel s = Ok tt s'
        /\ (MAX_ACTIONS <= actionCounter (agent s')
            \/ latest_is_win (agent s') = true)
        /\ actionCounter (agent s') <= Nat.max MAX_ACTIONS (actionCounter (agent s)))
       \/ mainLoop fuel s = Throw s')
      /\ count_decisions (trace s')
         <= count_decisions (trace s) + (MAX_ACTIONS - actionCounter (agent s))
      /\ count_posts (trace s')
         <= count_posts (trace s) + (MAX_ACTIONS - actionCounter (agent s))
      /\ (if latest_is_win (agent s)
          then mainLoop fuel s = Ok tt s'
               /\ agent s' = agent s
               /\ count_decisions (trace s') = count_decisions (trace s)
               /\ count_posts (trace s') = count_posts (trace s)
          else True).
Proof.
  intros fuel s Hfuel.
  destruct (latest_is_win (agent s)) eqn:Hwin.
  - destruct (mainLoop_at_win fuel s Hwin) as (s' & Hrun & Ha & _ & Hd & Hp).
    exists s'. repeat split; auto; try lia.
    left. split; [ exact Hrun | split; [ right; now rewrite Ha | rewrite Ha; lia ] ].
  - generalize (mainLoop_bounded fuel s Hfuel).
    destruct (mainLoop fuel s) as [[] s' | s' | ]; [ | | tauto ].
    + intros (Hstop & Hmax & Hcount & Hposts). exists s'. auto 10.
    + intros [Hcount Hposts]. exists s'. auto.
Qed.

(** A whole session of a new agent: the initial RESET, then the loop. *)
Lemma session_bounded (fuel : nat) (a : Agent) (w : World) :
  actionCounter a = 0 ->
  MAX_ACTIONS <= fuel ->
  match loop fuel (start a w) with
  | Ok _ s' | Throw s' => count_decisions (trace s') <= MAX_ACTIONS
  | OutOfFuel => False
  end.
Proof.
  intros Hzero Hfuel. unfold loop.
  unfold bind at 1. unfold this at 1. simpl.
  unfold bind at 1.
  generalize (doAction_effect "RESET" (Some (initial_meta a)) None (start a w)).
  destruct (doAction _ _ _ _) as [first s1 | s1 | ]; [ | | tauto ].
  - intros (Ha & Hd & _). simpl in Ha, Hd.
    unfold bind at 1. unfold update at 1. simpl.
    unfold bind at 1.
    destruct (adoptGuid_fields first a) as (_ & Gc & _).
    assert (Hrest : forall s2 : Sys,
              actionCounter (agent s2) = 0 -> count_decisions (trace s2) = 0 ->
              match mainLoop fuel s2 with
              | Ok _ s' | Throw s' => count_decisions (trace s') <= MAX_ACTIONS
              | OutOfFuel => False
              end).
    { intros s2 Hc2 Ht2.
      generalize (mainLoop_bounded fuel s2). rewrite Hc2, Ht2.
      intros H. specialize (H ltac:(lia)).
      destruct (mainLoop fuel s2) as [[] s' | s' | ]; [ | | exact H ].
      - destruct H as (_ & _ & H & _). lia.
      - lia. }
    assert (Hc1 : actionCounter (agent s1) = 0) by (rewrite Ha, Gc; exact Hzero).
    assert (Hd1 : count_decisions (trace s1) = 0) by (rewrite Hd; reflexivity).
    unfold log_result. destruct (loggable first); simpl.
    + apply Hrest; simpl; [ exact Hc1 | count_events ].
    + rewrite Hd1. lia.
  - intros (_ & Hd & _). simpl in Hd. rewrite Hd.
    change (count_decisions []) with 0. lia.
Qed.

(** ** A turn after its decision *)

Ltac in_trace :=
  repeat first
    [ solve [ apply in_or_app; right; simpl; auto ]
    | apply in_or_app; left ].

Lemma turn_after_decision (latest : option JSON) (s : Sys) (img : string)
    (names : list Name) (w1 : World) (response : Response) (preview : JSON) :
  let a := agent s in
  let pk := pickAction (output response) in
  let d := decisionOf a names latest img (output response) pk preview in
  let payload :=
    buildPayload (rememberDecision img d a) (pk_actionName pk)
                 (Some (d_meta d)) (pk_actionData pk) in
  decision_answered latest s img names response w1 ->
  response_preview slice200 (pk_args pk) = Some preview ->
  submitted (command_url (pk_actionName pk)) payload (turn latest s)
  /\ (forall w2 next,
        arc_post (command_url (pk_actionName pk)) payload w1 = (w2, Some next) ->
        loggable next = true ->
        exists s', turn latest s = Ok tt s'
                   /\ frames (agent s') = (frames a ++ [next])%list)
  /\ (pk_warned pk = true -> warned_during (turn latest s)).
Proof.
  intros a pk d payload (Himg & Hnames & w0 & Hwrite & Hcreate) Hpreview.
  rewrite turn_run, Himg, callOpenAI_run, Hnames. cbv zeta.
  change (cp_input (createPayloadOf (agent s) names latest img))
    with (messagesInputOf (agent s) names latest img).
  rewrite Hwrite, Hcreate. fold pk. rewrite Hpreview.
  rewrite doAction_run. simpl.
  match goal with
  | |- context [arc_post ?u ?p ?w] =>
      destruct (arc_post u p w) as [w2 [next | ]] eqn:Hpost
  end.
  - split; [ | split ].
    + destruct (loggable next); simpl; in_trace.
    + intros w2' next' Heq Hlog.
      pose proof (eq_trans (eq_sym Hpost) Heq) as E.
      inversion E; subst w2' next'.
      rewrite Hlog.
      eexists; split; [ reflexivity | ].
      unfold turn_end; simpl.
      match goal with |- context [truthy_opt ?v] => destruct (truthy_opt v) end;
        simpl;
        match goal with
        | |- context [adoptGuid ?x ?y] =>
            destruct (adoptGuid_fields x y) as (_ & _ & Gf & _); rewrite Gf
        end;
        reflexivity.
    + intros Hw. rewrite Hw.
      destruct (loggable next); simpl; in_trace.
  - split; [ | split ].
    + simpl. in_trace.
    + intros w2' next' Heq.
      pose proof (eq_trans (eq_sym Hpost) Heq) as E. discriminate.
    + intros Hw. rewrite Hw. simpl. in_trace.
Qed.


(** ** The reset fallback *)


(** ** The window and failed turns *)

(** C8. A turn changes the window only by appending its record once both the
    decision and the submission have returned: a turn that throws, before
    the decision, at the decision or at the submission, leaves the window as
    it was, and a turn whose submission is rejected does throw. *)
Theorem turn_record_only_after_submission :
  forall (latest : option JSON) (s : Sys),
    match turn latest s with
    | Ok _ s' =>
        count_decisions (trace s') = count_decisions (trace s) + 1
        /\ count_posts (trace s') = count_posts (trace s) + 1
        /\ exists d next,
             turns (agent s')
             = pushTurnWith MESSAGE_LIMIT (turnRecord d next) (turns (agent s))
             /\ frames (agent s') = (frames (agent s) ++ [next])%list
    | Throw s' => turns (agent s') = turns (agent s)
    | OutOfFuel => False
    end
    /\ match gridToPngBase64 (currentGridOf latest) with
       | None => turn latest s = Throw s
       | Some img =>
           match callOpenAI latest (last_elem (screenHistory (agent s))) img s with
           | Ok d s1 =>
               let a1 := rememberDecision img d (agent s1) in
               let payload :=
                 buildPayload a1 (d_actionName d) (Some (d_meta d))
                              (d_actionData d) in
               match arc_post (command_url (d_actionName d)) payload (world s1) with
               | (_, None) =>
                   exists s', turn latest s = Throw s'
                              /\ turns (agent s') = turns (agent s)
                              /\ submitted (command_url (d_actionName d)) payload
                                           (turn latest s)
               | (_, Some _) => True
               end
           | _ => True
           end
       end.
Proof.
  intros latest s. split.
  - generalize (turn_effect latest s).
    destruct (turn latest s) as [[] s' | s' | ]; [ | | tauto ].
    + intros (_ & Hd & Hp & Hturns). auto.
    + intros (Hturns & _). exact Hturns.
  - generalize (turn_effect latest s). rewrite turn_run.
    destruct (gridToPngBase64 (currentGridOf latest)) as [img | ];
      [ | intros _; reflexivity ].
    generalize (callOpenAI_effect latest (last_elem (screenHistory (agent s)))
                  img s).
    destruct (callOpenAI _ _ _ _) as [d s1 | s1 | ]; try (intros; exact I).
    intros (Ha1 & _). cbv zeta. rewrite doAction_run. simpl.
    destruct (arc_post _ _ (world s1)) as [w' [next | ]]; [ intros; exact I | ].
    intros (Hturns & _). simpl in Hturns.
    eexists. split; [ reflexivity | split; [ exact Hturns | ] ].
    simpl. in_trace.
Qed.

(** ** Full resets *)

Lemma most_recent_snoc {A : Type} (k : nat) (l : list A) (x : A) :
  0 < k -> most_recent k (l ++ [x]) = (most_recent (k - 1) l ++ [x])%list.
Proof.
  intros Hk. unfold most_recent. rewrite length_app, skipn_app. simpl.
  replace (List.length l + 1 - k) with (List.length l - (k - 1)) by lia.
  replace (List.length l - (k - 1) - List.length l) with 0 by lia.
  reflexivity.
Qed.

Lemma last_elem_snoc {A : Type} (l : list A) (x : A) :
  last_elem (l ++ [x]) = Some x.
Proof.
  unfold last_elem. rewrite length_app. simpl.
  replace (List.length l + 1 - 1) with (List.length l) by lia.
  rewrite nth_error_app2 by lia. now rewrite Nat.sub_diag.
Qed.

(** Whatever the flags of the frame a completed turn recorded, the window the
    next decision call reads ends with that turn's record. *)
Lemma completed_turn_stays_in_window (latest : option JSON) (s : Sys) :
  match turn latest s with
  | Ok _ s' =>
      exists d next older,
        flattenTurns (agent s') = (older ++ turnRecord d next)%list
        /\ last_elem (frames (agent s')) = Some next
        /\ turnRecord d next <> []
  | _ => True
  end.
Proof.
  generalize (turn_effect latest s).
  destruct (turn latest s) as [[] s' | s' | ]; auto.
  intros (_ & _ & _ & d & next & Ht & Hf).
  exists d, next, (List.concat (most_recent (MESSAGE_LIMIT - 1) (turns (agent s)))).
  split; [ | split ].
  - unfold flattenTurns.
    rewrite Ht, flattenTurnsWith_recent.
    rewrite pushTurnWith_recent by (unfold MESSAGE_LIMIT; lia).
    rewrite most_recent_twice.
    rewrite most_recent_snoc by (unfold MESSAGE_LIMIT; lia).
    rewrite concat_app. simpl. now rewrite app_nil_r.
  - rewrite Hf. apply last_elem_snoc.
  - unfold turnRecord. discriminate.
Qed.

(** C9. Handling a frame whose [full_reset] flag is set empties [history] and
    [screenHistory] and nothing else: the action counter, the frames, the
    session token, the window, the world and the trace are as before, and so
    are the two tests of the loop (budget and WIN).  A completed turn adds
    one to the counter and one frame, with or without a reset. *)
Theorem full_reset_clears_history_only :
  forall (next : JSON) (s : Sys),
    truthy_opt (prop "full_reset" next) = true ->
    exists s',
      handleFullReset next s = Ok tt s'
      /\ history (agent s') = [] /\ screenHistory (agent s') = []
      /\ actionCounter (agent s') = actionCounter (agent s)
      /\ frames (agent s') = frames (agent s)
      /\ guid (agent s') = guid (agent s)
      /\ turns (agent s') = turns (agent s)
      /\ gameId (agent s') = gameId (agent s)
      /\ cardId (agent s') = cardId (agent s)
      /\ model (agent s') = model (agent s)
      /\ reasoningEffort (agent s') = reasoningEffort (agent s)
      /\ world s' = world s /\ trace s' = trace s
      /\ under_budget (agent s') = under_budget (agent s)
      /\ latest_is_win (agent s') = latest_is_win (agent s)
      /\ (forall latest s0,
            match turn latest s0 with
            | Ok _ s1 =>
                actionCounter (agent s1) = actionCounter (agent s0) + 1
                /\ exists frame, frames (agent s1) = (frames (agent s0) ++ [frame])%list
            | _ => True
            end).
Proof.
  intros next s Hreset.
  unfold handleFullReset. rewrite Hreset.
  eexists. split; [ reflexivity | ].
  simpl. repeat split.
  intros latest s0. generalize (turn_effect latest s0).
  destruct (turn latest s0) as [[] s1 | s1 | ]; auto.
  intros (Hc & _ & _ & d & frame & _ & Hf).
  split; [ exact Hc | exists frame; exact Hf ].
Qed.

(** ** The session token *)

(** C10. The body [doAction] posts carries [guid] exactly when the stored
    token is truthy (then that token), and [card_id] exactly when the action
    is RESET and the card id is not empty (then that id).  When the backend
    answers, the stored token becomes the answer's [guid] if the answer has a
    truthy one and is unchanged otherwise; when the call is rejected the
    token is unchanged. *)
Theorem doAction_session_token :
  forall (actionName : string) (reasoningMeta : option JSON)
         (actionData : option Coord) (s : Sys),
    let a := agent s in
    let payload := buildPayload a actionName reasoningMeta actionData in
    (p_guid payload <> None <-> truthy (guid a) = true)
    /\ (forall g, p_guid payload = Some g -> g = guid a)
    /\ (p_card_id payload <> None <-> actionName = "RESET" /\ cardId a <> "")
    /\ (forall c, p_card_id payload = Some c -> c = cardId a)
    /\ match arc_post (command_url actionName) payload (world s) with
       | (_, Some data) =>
           exists s',
             doAction actionName reasoningMeta actionData s = Ok data s'
             /\ In (CallPost (command_url actionName) payload) (trace s')
             /\ guid (agent s')
                = match prop "guid" data with
                  | Some g => if truthy g then g else guid a
                  | None => guid a
                  end
       | (_, None) =>
           exists s',
             doAction actionName reasoningMeta actionData s = Throw s'
             /\ In (CallPost (command_url actionName) payload) (trace s')
             /\ guid (agent s') = guid a
       end.
Proof.
  clear JSON_parse slice200.
  intros actionName meta actionData s a payload.
  split; [ | split; [ | split; [ | split ] ] ].
  - subst payload. unfold buildPayload. simpl.
    destruct (truthy (guid a)); split; congruence.
  - subst payload. unfold buildPayload. simpl.
    destruct (truthy (guid a)); congruence.
  - subst payload. unfold buildPayload, nonempty. simpl.
    destruct (String.eqb_spec actionName "RESET") as [He | Hne];
      destruct (String.eqb_spec (cardId a) "") as [Hc | Hc]; simpl;
      split; try congruence; try tauto.
  - subst payload. unfold buildPayload. simpl.
    destruct (String.eqb actionName "RESET" && nonempty (cardId a)); congruence.
  - rewrite doAction_run. simpl. fold a. fold payload.
    destruct (arc_post _ payload (world s)) as [w' [data | ]];
      eexists; (split; [ reflexivity | split; [ simpl; in_trace | ] ]).
    + simpl. unfold adoptGuid.
      destruct (prop "guid" data) as [g | ]; [ | reflexivity ].
      destruct (truthy g); reflexivity.
    + reflexivity.
Qed.

(** ** The calls of a turn and of the loop *)

Lemma calls_of_app (tr1 tr2 : list Event) :
  calls_of (tr1 ++ tr2) = (calls_of tr1 ++ calls_of tr2)%list.
Proof.
  induction tr1 as [ | e tr1 IH]; simpl; [ reflexivity | ].
  destruct e; simpl; now rewrite IH.
Qed.

(** Every way a turn can end, with the calls it issued and the agent it
    leaves. *)
Lemma turn_calls (latest : option JSON) (s : Sys) :
  let a := agent s in
  match turn latest s with
  | Ok _ s' =>
      exists img names out preview next,
        let cp := createPayloadOf a names latest img in
        let d := decisionOf a names latest img out (pickAction out) preview in
        calls_of (trace s')
        = (calls_of (trace s)
           ++ [Decide cp;
               Submit (command_url (d_actionName d))
                      (buildPayload (rememberDecision img d a) (d_actionName d)
                                    (Some (d_meta d)) (d_actionData d))])%list
        /\ agent s' = agent_after_turn img d next a
  | Throw s' =>
      (calls_of (trace s') = calls_of (trace s) /\ agent s' = a)
      \/ exists img names,
           let cp := createPayloadOf a names latest img in
           (calls_of (trace s') = (calls_of (trace s) ++ [Decide cp])%list
            /\ agent s' = a)
           \/ exists out preview,
                let d := decisionOf a names latest img out (pickAction out) preview in
                calls_of (trace s')
                = (calls_of (trace s)
                   ++ [Decide cp;
                       Submit (command_url (d_actionName d))
                              (buildPayload (rememberDecision img d a)
                                            (d_actionName d)
                                            (Some (d_meta d)) (d_actionData d))])%list
                /\ (agent s' = rememberDecision img d a
                    \/ exists next,
                         agent s' = recordFrame next
                                      (adoptGuid next (rememberDecision img d a)))
  | OutOfFuel => False
  end.
Proof.
  intros a.
  rewrite turn_run.
  destruct (gridToPngBase64 (currentGridOf latest)) as [img | ];
    [ | left; split; reflexivity ].
  rewrite callOpenAI_run. cbv zeta. fold a.
  destruct (allowedNamesOf latest) as [names | ];
    [ | left; split; reflexivity ].
  destruct (fs_writeFileSync _ (world s)) as [w0 [ | ]].
  2: { left. split; [ | reflexivity ].
       cbn [trace]. rewrite !calls_of_app. simpl. now rewrite !app_nil_r. }
  destruct (responses_create _ w0) as [w1 [response | ]].
  - destruct (response_preview slice200 (pk_args (pickAction (output response))))
      as [preview | ] eqn:Hpv.
    + rewrite doAction_run. cbv zeta. cbn [agent world trace].
      destruct (arc_post _ _ w1) as [w2 [next | ]].
      * destruct (loggable next).
        -- exists img, names, (output response), preview, next.
           split;
             [ unfold turn_end; cbn [trace]; rewrite !calls_of_app;
               destruct (pk_warned _); rewrite ?calls_of_app; simpl;
               rewrite <- ?app_assoc; simpl; rewrite ?app_nil_r; reflexivity
             | reflexivity ].
        -- right. exists img, names. right.
           exists (output response), preview. split.
           ++ cbn [trace]. rewrite !calls_of_app.
              destruct (pk_warned _); rewrite ?calls_of_app; simpl;
                rewrite <- ?app_assoc; simpl; rewrite ?app_nil_r; reflexivity.
           ++ right. exists next. reflexivity.
      * right. exists img, names. right.
        exists (output response), preview. split.
        -- cbn [trace]. rewrite !calls_of_app.
           destruct (pk_warned _); rewrite ?calls_of_app; simpl;
             rewrite <- ?app_assoc; simpl; rewrite ?app_nil_r; reflexivity.
        -- left. reflexivity.
    + right. exists img, names. left. split; [ | reflexivity ].
      cbn [trace]. destruct (pk_warned _); rewrite ?calls_of_app; simpl;
        rewrite <- ?app_assoc; simpl; rewrite ?app_nil_r; reflexivity.
  - right. exists img, names. left. split; [ | reflexivity ].
    cbn [trace]. rewrite !calls_of_app. simpl.
    rewrite <- ?app_assoc; simpl; rewrite ?app_nil_r; reflexivity.
Qed.

Lemma agent_after_turn_fields (img : string) (d : Decision) (next : JSON) (a : Agent) :
  let a' := agent_after_turn img d next a in
  gameId a' = gameId a /\ cardId a' = cardId a /\ model a' = model a
  /\ reasoningEffort a' = reasoningEffort a
  /\ guid a' = guid (adoptGuid next a)
  /\ actionCounter a' = actionCounter a + 1
  /\ frames a' = (frames a ++ [next])%list
  /\ turns a' = pushTurnWith MESSAGE_LIMIT (turnRecord d next) (turns a)
  /\ (screenHistory a' = []
      \/ screenHistory a' = screenHistory (pushScreen img a)).
Proof.
  unfold agent_after_turn, adoptGuid.
  destruct (truthy_opt (prop "full_reset" next));
    destruct (prop "guid" next) as [g | ]; try destruct (truthy g);
    cbn; auto 12.
Qed.

(** Induction over the passes of the loop, for a property of the calls
    issued ([Qok] when the loop returns, [Qthrow] when it throws) under an
    invariant of the agent. *)
Lemma mainLoop_calls (I : Agent -> Prop) (Qok Qthrow : list Call -> Prop) :
  Qok [] ->
  (forall latest s,
      I (agent s) ->
      match turn latest s with
      | Ok _ s' =>
          I (agent s')
          /\ exists c, calls_of (trace s') = (calls_of (trace s) ++ c)%list
                       /\ (forall rest, Qok rest -> Qok (c ++ rest)%list)
                       /\ (forall rest, Qthrow rest -> Qthrow (c ++ rest)%list)
      | Throw s' =>
          exists c, calls_of (trace s') = (calls_of (trace s) ++ c)%list
                    /\ Qthrow c
      | OutOfFuel => False
      end) ->
  forall fuel s,
    I (agent s) ->
    match mainLoop fuel s with
    | Ok _ s' =>
        I (agent s')
        /\ exists new, calls_of (trace s') = (calls_of (trace s) ++ new)%list
                       /\ Qok new
    | Throw s' =>
        exists new, calls_of (trace s') = (calls_of (trace s) ++ new)%list
                    /\ Qthrow new
    | OutOfFuel => True
    end.
Proof.
  intros Hnil Hturn.
  induction fuel as [ | fuel IH]; intros s HI; cbn [mainLoop];
    destruct (under_budget (agent s));
    try (split; [ exact HI | exists []; rewrite app_nil_r; auto ]);
    destruct (latest_is_win (agent s));
    try (unfold emit; cbn [agent trace]; split; [ exact HI | ];
         exists []; rewrite calls_of_app, app_nil_r; simpl;
         rewrite app_nil_r; auto);
    try exact Logic.I.
  unfold bind.
  generalize (Hturn (last_elem (frames (agent s))) s HI).
  destruct (turn _ s) as [[] s1 | s1 | ]; [ | auto | tauto ].
  intros (HI1 & c & Hc & Hok & Hthrow).
  generalize (IH s1 HI1).
  destruct (mainLoop fuel s1) as [[] s2 | s2 | ]; [ | | auto ].
  - intros (HI2 & new & Hnew & HQ). split; [ exact HI2 | ].
    exists (c ++ new)%list. rewrite Hnew, Hc, app_assoc. auto.
  - intros (new & Hnew & HQ).
    exists (c ++ new)%list. rewrite Hnew, Hc, app_assoc. auto.
Qed.

(** Induction over the passes of the loop, for an invariant of the agent
    that holds however the loop ends. *)
Lemma mainLoop_invariant (I : Agent -> Prop) :
  (forall latest s,
      I (agent s) ->
      match turn latest s with
      | Ok _ s' | Throw s' => I (agent s')
      | OutOfFuel => False
      end) ->
  forall fuel s,
    I (agent s) ->
    match mainLoop fuel s with
    | Ok _ s' | Throw s' => I (agent s')
    | OutOfFuel => True
    end.
Proof.
  intros Hturn.
  induction fuel as [ | fuel IH]; intros s HI; cbn [mainLoop];
    destruct (under_budget (agent s)); try exact HI;
    destruct (latest_is_win (agent s)); try exact HI; try exact Logic.I.
  unfold bind.
  generalize (Hturn (last_elem (frames (agent s))) s HI).
  destruct (turn _ s) as [[] s1 | s1 | ]; [ | auto | tauto ].
  intros HI1. exact (IH s1 HI1).
Qed.

Lemma command_url_eqb (n m : string) :
  String.eqb (command_url n) (command_url m) = String.eqb n m.
Proof. reflexivity. Qed.

Lemma pickAction_coords (out : option (list OutputItem)) :
  let pk := pickAction out in
  if String.eqb (pk_actionName pk) "ACTION6"
  then exists x y, pk_actionData pk = Some (mkCoord x y)
                   /\ in_grid x = true /\ in_grid y = true
  else pk_actionData pk = None.
Proof.
  unfold pickAction.
  destruct (find is_function_call _) as [item | ]; [ | reflexivity ].
  unfold pickFrom.
  set (name := match is_string (prop "action" (parseArguments item)) with
               | Some s => s
               | None => "RESET"
               end).
  destruct (String.eqb name "ACTION6") eqn:E.
  - destruct (number_or_null (prop "x" (parseArguments item))) as [x | ];
      [ destruct (number_or_null (prop "y" (parseArguments item))) as [y | ] | ];
      cbn [pk_actionName pk_actionData]; rewrite E;
      eexists; eexists; (split; [ reflexivity | ]);
      split; auto using clamp63_in_grid.
  - cbn [pk_actionName pk_actionData]. rewrite E. reflexivity.
Qed.

Lemma submit_coords_of_pick (a : Agent) (out : option (list OutputItem))
    (reasoningMeta : option JSON) :
  submit_coords
    (Submit (command_url (pk_actionName (pickAction out)))
            (buildPayload a (pk_actionName (pickAction out)) reasoningMeta
                          (pk_actionData (pickAction out)))).
Proof.
  generalize (pickAction_coords out). cbv zeta.
  unfold submit_coords. rewrite command_url_eqb.
  unfold buildPayload. cbn [p_x p_y].
  destruct (String.eqb (pk_actionName (pickAction out)) "ACTION6").
  - intros (x & y & Hd & Hx & Hy). rewrite Hd. exists x, y. auto.
  - intros _. auto.
Qed.

Lemma adoptGuid_truthy (data : JSON) (a : Agent) :
  truthy (guid a) = true -> truthy (guid (adoptGuid data a)) = true.
Proof.
  unfold adoptGuid. destruct (prop "guid" data) as [g | ]; [ | auto ].
  destruct (truthy g) eqn:Hg; auto.
Qed.

Lemma adoptGuid_keeps (data : JSON) (a : Agent) :
  frames (adoptGuid data a) = frames a
  /\ actionCounter (adoptGuid data a) = actionCounter a
  /\ turns (adoptGuid data a) = turns a
  /\ screenHistory (adoptGuid data a) = screenHistory a.
Proof.
  unfold adoptGuid. destruct (prop "guid" data) as [g | ];
    [ destruct (truthy g) | ]; auto.
Qed.

Lemma most_recent_length_le {A : Type} (k : nat) (l : list A) :
  List.length (most_recent k l) <= k.
Proof. unfold most_recent. rewrite length_skipn. lia. Qed.

Lemma pushScreen_length (img : string) (a : Agent) :
  List.length (screenHistory a) <= 10 ->
  List.length (screenHistory (pushScreen img a)) <= 10.
Proof.
  intros H. unfold pushScreen. cbn [screenHistory set_screenHistory].
  destruct (Nat.ltb_spec 10 (List.length (screenHistory a ++ [img]))) as [Hlt | Hge].
  - destruct (screenHistory a ++ [img])%list as [ | x l] eqn:E; [ simpl; lia | ].
    assert (Hl : List.length (x :: l) = List.length (screenHistory a) + 1)
      by (rewrite <- E, length_app; reflexivity).
    simpl in *. lia.
  - exact Hge.
Qed.

(** X1. In every run of the loop the calls strictly alternate, a decision
    first and then its submission: no submission goes out without a decision
    of its own, and no second decision is requested before the first one is
    submitted.  Only a run that throws may end on a decision without
    submission. *)
Theorem decisions_and_submissions_alternate :
  forall (fuel : nat) (s : Sys),
    match mainLoop fuel s with
    | Ok _ s' =>
        exists new, calls_of (trace s') = (calls_of (trace s) ++ new)%list
                    /\ paired new = true
    | Throw s' =>
        exists new, calls_of (trace s') = (calls_of (trace s) ++ new)%list
                    /\ paired_upto new = true
    | OutOfFuel => True
    end.
Proof.
  intros fuel s.
  generalize (mainLoop_calls (fun _ => True) (fun c => paired c = true)
                (fun c => paired_upto c = true) eq_refl).
  intros H. lapply H; clear H;
    [ intros H; specialize (H fuel s Logic.I);
      destruct (mainLoop fuel s) as [[] s' | s' | ]; tauto | ].
  intros latest s0 _. generalize (turn_calls latest s0). cbv zeta.
  destruct (turn latest s0) as [[] s1 | s1 | ]; [ | | auto ].
  - intros (img & names & out & pv & next & Hc & _). split; [ exact Logic.I | ].
    eexists. split; [ exact Hc | split; intros rest Hr; exact Hr ].
  - intros [[Hc _] | (img & names & [[Hc _] | (out & pv & Hc & _)])].
    + exists []. rewrite app_nil_r. split; [ exact Hc | reflexivity ].
    + eexists. split; [ exact Hc | reflexivity ].
    + eexists. split; [ exact Hc | reflexivity ].
Qed.

(** X2. Every submission of the loop carries coordinates exactly when it
    goes to ACTION6, and then both are integers of [0,63]: whatever the
    decision service answered, no other action is sent with coordinates and
    no coordinate leaves the grid. *)
Theorem submitted_coordinates_match_action :
  forall (fuel : nat) (s : Sys),
    match mainLoop fuel s with
    | Ok _ s' | Throw s' =>
        exists new, calls_of (trace s') = (calls_of (trace s) ++ new)%list
                    /\ Forall submit_coords new
    | OutOfFuel => True
    end.
Proof.
  intros fuel s.
  generalize (mainLoop_calls (fun _ => True) (Forall submit_coords)
                (Forall submit_coords) (Forall_nil _)).
  intros H. lapply H; clear H;
    [ intros H; specialize (H fuel s Logic.I);
      destruct (mainLoop fuel s) as [[] s' | s' | ]; tauto | ].
  intros latest s0 _. generalize (turn_calls latest s0). cbv zeta.
  destruct (turn latest s0) as [[] s1 | s1 | ]; [ | | auto ].
  - intros (img & names & out & pv & next & Hc & _). split; [ exact Logic.I | ].
    eexists. split; [ exact Hc | ].
    split; intros rest Hr;
      (constructor; [ exact Logic.I | constructor; [ | exact Hr ] ]);
      apply submit_coords_of_pick.
  - intros [[Hc _] | (img & names & [[Hc _] | (out & pv & Hc & _)])].
    + exists []. rewrite app_nil_r. split; [ exact Hc | constructor ].
    + eexists. split; [ exact Hc | ].
      constructor; [ exact Logic.I | constructor ].
    + eexists. split; [ exact Hc | ].
      constructor; [ exact Logic.I | constructor; [ | constructor ] ].
      apply submit_coords_of_pick.
Qed.

Lemma submit_session_of_turn (a0 a : Agent) (img : string) (d : Decision)
    (names : list Name) (latest : option JSON)
    (out : option (list OutputItem)) (preview : JSON) :
  gameId a = gameId a0 -> cardId a = cardId a0 ->
  (truthy (guid a0) = true -> truthy (guid a) = true) ->
  d = decisionOf a names latest img out (pickAction out) preview ->
  submit_session a0
    (Submit (command_url (d_actionName d))
            (buildPayload (rememberDecision img d a) (d_actionName d)
                          (Some (d_meta d)) (d_actionData d))).
Proof.
  intros Hg Hc Ht ->. unfold submit_session, buildPayload.
  cbn [p_game_id p_reasoning p_card_id p_guid d_actionName d_meta d_actionData
       decisionOf rememberDecision gameId cardId guid set_history pushScreen
       set_screenHistory truthy_opt build_meta truthy].
  rewrite Hg, Hc.
  split; [ reflexivity | split; [ discriminate | split ] ].
  - destruct (String.eqb_spec (pk_actionName (pickAction out)) "RESET") as [E | E];
      simpl; [ | congruence ].
    destruct (nonempty (cardId a0)); [ | congruence ].
    intros _. rewrite E. auto.
  - intros H0. rewrite (Ht H0). discriminate.
Qed.

(** X3. Every submission of a run carries the agent's game id and
    reasoning metadata; a card id travels only with RESET
    and is then the agent's card id; and once the agent holds a session
    token, every submission carries one and the agent still holds one when
    the run returns. *)
Theorem submissions_carry_the_session :
  forall (fuel : nat) (s : Sys),
    match mainLoop fuel s with
    | Ok _ s' =>
        (truthy (guid (agent s)) = true -> truthy (guid (agent s')) = true)
        /\ gameId (agent s') = gameId (agent s)
        /\ cardId (agent s') = cardId (agent s)
        /\ exists new, calls_of (trace s') = (calls_of (trace s) ++ new)%list
                       /\ Forall (submit_session (agent s)) new
    | Throw s' =>
        exists new, calls_of (trace s') = (calls_of (trace s) ++ new)%list
                    /\ Forall (submit_session (agent s)) new
    | OutOfFuel => True
    end.
Proof.
  intros fuel s.
  set (a0 := agent s).
  set (Inv := fun a : Agent =>
                gameId a = gameId a0 /\ cardId a = cardId a0
                /\ (truthy (guid a0) = true -> truthy (guid a) = true)).
  generalize (mainLoop_calls Inv (Forall (submit_session a0))
                (Forall (submit_session a0)) (Forall_nil _)).
  intros H. lapply H; clear H.
  - intros H. specialize (H fuel s).
    lapply H; [ clear H | unfold Inv; auto ].
    destruct (mainLoop fuel s) as [[] s' | s' | ]; auto.
    unfold Inv. intros ((Hg & Hc & Ht) & Hnew). auto.
  - intros latest s0 (Hg & Hc & Ht).
    generalize (turn_calls latest s0). cbv zeta.
    destruct (turn latest s0) as [[] s1 | s1 | ]; [ | | auto ].
    + intros (img & names & out & pv & next & Hcalls & Ha).
      destruct (agent_after_turn_fields img
                  (decisionOf (agent s0) names latest img out
                     (pickAction out) pv) next (agent s0))
        as (Fg & Fc & _ & _ & Fguid & _).
      rewrite <- Ha in Fg, Fc, Fguid.
      split.
      * unfold Inv. rewrite Fg, Fc, Fguid.
        split; [ exact Hg | split; [ exact Hc | ] ].
        intros H0. apply adoptGuid_truthy. auto.
      * eexists. split; [ exact Hcalls | ].
        split; intros rest Hr;
          (constructor; [ exact Logic.I | constructor; [ | exact Hr ] ]);
          eapply submit_session_of_turn; eauto.
    + intros [[Hcalls _]
             | (img & names & [[Hcalls _] | (out & pv & Hcalls & _)])].
      * exists []. rewrite app_nil_r. split; [ exact Hcalls | constructor ].
      * eexists. split; [ exact Hcalls | ].
        constructor; [ exact Logic.I | constructor ].
      * eexists. split; [ exact Hcalls | ].
        constructor; [ exact Logic.I | constructor; [ | constructor ] ].
        eapply submit_session_of_turn; eauto.
Qed.

Lemma decide_shape_of_turn (a0 a : Agent) (names : list Name)
    (latest : option JSON) (img : string) :
  model a = model a0 ->
  decide_shape a0 (Decide (createPayloadOf a names latest img)).
Proof.
  intros Hm. unfold decide_shape, createPayloadOf, messagesInputOf.
  cbn [cp_model cp_tool_choice cp_parallel_tool_calls cp_input cp_tools
       cp_instructions].
  split; [ exact Hm | split; [ reflexivity | split; [ reflexivity | ] ] ].
  exists (flattenTurns a), (userMessageOf names latest img).
  split; [ reflexivity | split; reflexivity ].
Qed.

Lemma decide_shape_model (a b : Agent) (c : Call) :
  model a = model b -> decide_shape a c -> decide_shape b c.
Proof. intros Hm. destruct c; simpl; [ rewrite Hm | ]; auto. Qed.

Lemma sends_window_of_turn (a : Agent) (names : list Name)
    (latest : option JSON) (img : string) :
  sends_window (turns a) (userMessageOf names latest img)
               (createPayloadOf a names latest img).
Proof.
  unfold sends_window, createPayloadOf, messagesInputOf, flattenTurns.
  cbn [cp_input]. rewrite flattenTurnsWith_recent.
  split; [ reflexivity | apply most_recent_length_le ].
Qed.

(** Induction over the passes of the loop, for a relation between the agent
    at the start, the calls issued and the agent at the end. *)
Lemma mainLoop_history (Pok Pthrow : Agent -> list Call -> Agent -> Prop) :
  (forall a, Pok a [] a) ->
  (forall latest s,
      match turn latest s with
      | Ok _ s' =>
          exists c, calls_of (trace s') = (calls_of (trace s) ++ c)%list
                    /\ (forall rest a2, Pok (agent s') rest a2 ->
                                        Pok (agent s) (c ++ rest)%list a2)
                    /\ (forall rest a2, Pthrow (agent s') rest a2 ->
                                        Pthrow (agent s) (c ++ rest)%list a2)
      | Throw s' =>
          exists c, calls_of (trace s') = (calls_of (trace s) ++ c)%list
                    /\ Pthrow (agent s) c (agent s')
      | OutOfFuel => False
      end) ->
  forall fuel s,
    match mainLoop fuel s with
    | Ok _ s' =>
        exists new, calls_of (trace s') = (calls_of (trace s) ++ new)%list
                    /\ Pok (agent s) new (agent s')
    | Throw s' =>
        exists new, calls_of (trace s') = (calls_of (trace s) ++ new)%list
                    /\ Pthrow (agent s) new (agent s')
    | OutOfFuel => True
    end.
Proof.
  intros Hnil Hturn.
  induction fuel as [ | fuel IH]; intros s; cbn [mainLoop];
    destruct (under_budget (agent s));
    try (exists []; rewrite app_nil_r; auto);
    destruct (latest_is_win (agent s));
    try (unfold emit; cbn [agent trace];
         exists []; rewrite calls_of_app, app_nil_r; simpl;
         rewrite app_nil_r; auto);
    try exact Logic.I.
  unfold bind.
  generalize (Hturn (last_elem (frames (agent s))) s).
  destruct (turn _ s) as [[] s1 | s1 | ]; [ | auto | tauto ].
  intros (c & Hc & Hok & Hthrow).
  generalize (IH s1).
  destruct (mainLoop fuel s1) as [[] s2 | s2 | ]; [ | | auto ].
  - intros (new & Hnew & HQ).
    exists (c ++ new)%list. rewrite Hnew, Hc, app_assoc. auto.
  - intros (new & Hnew & HQ).
    exists (c ++ new)%list. rewrite Hnew, Hc, app_assoc. auto.
Qed.

(** X4. Every decision request of a run names the agent's model, forces
    exactly one tool call ([tool_choice] required, no parallel calls), and
    ends with a user message whose allowed names are those of the tool
    schema and of the instructions.  The requests follow [this.turns]: a
    run that appends the records [rs] to the stored turns issued one request
    per record; each request sends, before its user message, exactly the
    [MESSAGE_LIMIT] most recent turns as stored at its turn, that is
    at most [MESSAGE_LIMIT] of them, and that user message heads the
    record its turn appends.  A run that throws may have issued one more
    request, for the turn that failed: it sends the window the run
    leaves. *)
Theorem decision_requests_are_bounded :
  forall (fuel : nat) (s : Sys),
    match mainLoop fuel s with
    | Ok _ s' =>
        exists new rs,
          calls_of (trace s') = (calls_of (trace s) ++ new)%list
          /\ Forall (decide_shape (agent s)) new
          /\ turns (agent s') = appendTurns MESSAGE_LIMIT rs (turns (agent s))
          /\ window_inputs (turns (agent s)) rs (requests new)
    | Throw s' =>
        exists new rs,
          calls_of (trace s') = (calls_of (trace s) ++ new)%list
          /\ Forall (decide_shape (agent s)) new
          /\ turns (agent s') = appendTurns MESSAGE_LIMIT rs (turns (agent s))
          /\ (window_inputs (turns (agent s)) rs (requests new)
              \/ exists ps p m,
                   requests new = (ps ++ [p])%list
                   /\ window_inputs (turns (agent s)) rs ps
                   /\ sends_window (turns (agent s')) m p)
    | OutOfFuel => True
    end.
Proof.
  intros fuel s.
  set (Pok := fun (a : Agent) (new : list Call) (a' : Agent) =>
                model a' = model a
                /\ Forall (decide_shape a) new
                /\ exists rs,
                     turns a' = appendTurns MESSAGE_LIMIT rs (turns a)
                     /\ window_inputs (turns a) rs (requests new)).
  set (Pthrow := fun (a : Agent) (new : list Call) (a' : Agent) =>
                   Forall (decide_shape a) new
                   /\ exists rs,
                        turns a' = appendTurns MESSAGE_LIMIT rs (turns a)
                        /\ (window_inputs (turns a) rs (requests new)
                            \/ exists ps p m,
                                 requests new = (ps ++ [p])%list
                                 /\ window_inputs (turns a) rs ps
                                 /\ sends_window (turns a') m p)).
  generalize (mainLoop_history Pok Pthrow).
  intros H. lapply H; clear H.
  2: { intros a. split; [ reflexivity | split; [ constructor | ] ].
       exists []. split; [ reflexivity | exact Logic.I ]. }
  intros H. lapply H; clear H.
  - intros H. specialize (H fuel s).
    destruct (mainLoop fuel s) as [[] s' | s' | ]; [ | | exact Logic.I ].
    + destruct H as (new & Hc & _ & HF & rs & Ht & Hw). exists new, rs. auto.
    + destruct H as (new & Hc & HF & rs & Ht & Hw). exists new, rs. auto.
  - intros latest s0.
    generalize (turn_calls latest s0). cbv zeta.
    destruct (turn latest s0) as [[] s1 | s1 | ]; [ | | auto ].
    + intros (img & names & out & pv & next & Hcalls & Ha).
      destruct (agent_after_turn_fields img
                  (decisionOf (agent s0) names latest img out
                     (pickAction out) pv) next (agent s0))
        as (_ & _ & Fm & _ & _ & _ & _ & Ft & _).
      rewrite <- Ha in Fm, Ft.
      eexists. split; [ exact Hcalls | ].
      split.
      * intros rest a2 (Hm & HF & rs & Ht & Hw).
        split; [ congruence | split ].
        -- constructor; [ now apply decide_shape_of_turn | ].
           constructor; [ exact Logic.I | ].
           eapply Forall_impl; [ | exact HF ].
           intros c. now apply decide_shape_model.
        -- eexists (_ :: rs). split.
           ++ rewrite Ht, Ft. reflexivity.
           ++ cbn [app requests window_inputs]. split.
              ** eexists _, _. split; [ reflexivity | ].
                 apply sends_window_of_turn.
              ** rewrite <- Ft. exact Hw.
      * intros rest a2 (HF & rs & Ht & Hw).
        split.
        -- constructor; [ now apply decide_shape_of_turn | ].
           constructor; [ exact Logic.I | ].
           eapply Forall_impl; [ | exact HF ].
           intros c. now apply decide_shape_model.
        -- eexists (_ :: rs). split; [ rewrite Ht, Ft; reflexivity | ].
           destruct Hw as [Hw | (ps & p & m & Hr & Hw & Hs)].
           ++ left. cbn [app requests window_inputs]. split.
              ** eexists _, _. split; [ reflexivity | ].
                 apply sends_window_of_turn.
              ** rewrite <- Ft. exact Hw.
           ++ right. eexists (_ :: ps), p, m.
              cbn [app requests]. rewrite Hr.
              split; [ reflexivity | split; [ | exact Hs ] ].
              cbn [window_inputs]. split.
              ** eexists _, _. split; [ reflexivity | ].
                 apply sends_window_of_turn.
              ** rewrite <- Ft. exact Hw.
    + intros [[Hcalls Ha]
             | (img & names & [[Hcalls Ha] | (out & pv & Hcalls & Ha)])].
      * exists []. rewrite app_nil_r. split; [ exact Hcalls | ].
        split; [ constructor | ].
        exists []. rewrite Ha. split; [ reflexivity | left; exact Logic.I ].
      * eexists. split; [ exact Hcalls | ].
        split; [ constructor; [ now apply decide_shape_of_turn | constructor ] | ].
        exists []. rewrite Ha. split; [ reflexivity | right ].
        exists [], (createPayloadOf (agent s0) names latest img),
               (userMessageOf names latest img).
        split; [ reflexivity | split; [ exact Logic.I | ] ].
        apply sends_window_of_turn.
      * eexists. split; [ exact Hcalls | ].
        split; [ constructor; [ now apply decide_shape_of_turn
                              | constructor; [ exact Logic.I | constructor ] ] | ].
        exists [].
        assert (Ht : turns (agent s1) = turns (agent s0))
          by (destruct Ha as [-> | (next & ->)];
              [ reflexivity
              | unfold adoptGuid; destruct (prop "guid" next) as [g | ];
                [ destruct (truthy g) | ]; reflexivity ]).
        split; [ exact Ht | right ].
        exists [], (createPayloadOf (agent s0) names latest img),
               (userMessageOf names latest img).
        split; [ reflexivity | split; [ exact Logic.I | ] ].
        rewrite Ht. apply sends_window_of_turn.
Qed.

(** X5. The frame list and the action counter move together: if the agent
    holds one frame more than it has counted actions, as it does after the
    initial RESET, it still does however the loop ends, also when a turn
    throws right after a frame was recorded. *)
Theorem frames_track_the_counter :
  forall (fuel : nat) (s : Sys),
    List.length (frames (agent s)) = actionCounter (agent s) + 1 ->
    match mainLoop fuel s with
    | Ok _ s' | Throw s' =>
        List.length (frames (agent s')) = actionCounter (agent s') + 1
    | OutOfFuel => True
    end.
Proof.
  intros fuel s.
  apply (mainLoop_invariant
           (fun a => List.length (frames a) = actionCounter a + 1)).
  intros latest s0 HI.
  generalize (turn_calls latest s0). cbv zeta.
  destruct (turn latest s0) as [[] s1 | s1 | ]; [ | | auto ].
  - intros (img & names & out & pv & next & _ & Ha).
    destruct (agent_after_turn_fields img
                (decisionOf (agent s0) names latest img out
                   (pickAction out) pv) next (agent s0))
      as (_ & _ & _ & _ & _ & Fc & Ff & _).
    rewrite <- Ha in Fc, Ff. rewrite Fc, Ff, length_app. simpl. lia.
  - intros [[_ Ha]
           | (img & names & [[_ Ha] | (out & pv & _ & [Ha | (next & Ha)])])];
      rewrite Ha.
    + exact HI.
    + exact HI.
    + exact HI.
    + unfold recordFrame.
      cbn [frames actionCounter set_frames set_actionCounter].
      destruct (adoptGuid_keeps next
                  (rememberDecision img
                     (decisionOf (agent s0) names latest img out
                        (pickAction out) pv) (agent s0)))
        as (Ff & Fc & _).
      rewrite Ff, Fc, length_app. cbn. simpl in HI. lia.
Qed.

(** X6. The two capped buffers stay within their caps: if the window holds
    at most [MESSAGE_LIMIT] turns and the screen history at most 10 screens,
    they still do however the loop ends. *)
Theorem buffers_stay_within_caps :
  forall (fuel : nat) (s : Sys),
    List.length (turns (agent s)) <= MESSAGE_LIMIT ->
    List.length (screenHistory (agent s)) <= 10 ->
    match mainLoop fuel s with
    | Ok _ s' | Throw s' =>
        List.length (turns (agent s')) <= MESSAGE_LIMIT
        /\ List.length (screenHistory (agent s')) <= 10
    | OutOfFuel => True
    end.
Proof.
  intros fuel s Ht Hs.
  apply (mainLoop_invariant
           (fun a => List.length (turns a) <= MESSAGE_LIMIT
                     /\ List.length (screenHistory a) <= 10));
    [ | auto ].
  intros latest s0 [HIt HIs].
  generalize (turn_calls latest s0). cbv zeta.
  destruct (turn latest s0) as [[] s1 | s1 | ]; [ | | auto ].
  - intros (img & names & out & pv & next & _ & Ha).
    destruct (agent_after_turn_fields img
                (decisionOf (agent s0) names latest img out
                   (pickAction out) pv) next (agent s0))
      as (_ & _ & _ & _ & _ & _ & _ & Ft & Fs).
    rewrite <- Ha in Ft, Fs. split.
    + rewrite Ft, pushTurnWith_recent by (unfold MESSAGE_LIMIT; lia).
      apply most_recent_length_le.
    + destruct Fs as [Fs | Fs]; rewrite Fs; [ simpl; lia | ].
      now apply pushScreen_length.
  - intros [[_ Ha]
           | (img & names & [[_ Ha] | (out & pv & _ & [Ha | (next & Ha)])])];
      rewrite Ha.
    + auto.
    + auto.
    + split; [ exact HIt | ]. cbn [rememberDecision screenHistory set_history].
      now apply pushScreen_length.
    + unfold recordFrame.
      cbn [turns screenHistory set_frames set_actionCounter].
      destruct (adoptGuid_keeps next
                  (rememberDecision img
                     (decisionOf (agent s0) names latest img out
                        (pickAction out) pv) (agent s0)))
        as (_ & _ & Ft & Fs).
      rewrite Ft, Fs. split; [ exact HIt | ].
      cbn [rememberDecision screenHistory set_history].
      now apply pushScreen_length.
Qed.

Lemma turn_forgets_histories (latest : option JSON) (s : Sys) :
  erase_res (turn latest (erase_sys s)) = erase_res (turn latest s).
Proof.
  rewrite !turn_run.
  destruct (gridToPngBase64 (currentGridOf latest)) as [img | ];
    [ | reflexivity ].
  rewrite !callOpenAI_run. cbv zeta.
  cbn [erase_sys agent world trace].
  destruct (allowedNamesOf latest) as [names | ]; [ | reflexivity ].
  change (createPayloadOf (clearHistory (agent s)) names latest img)
    with (createPayloadOf (agent s) names latest img).
  destruct (fs_writeFileSync _ (world s)) as [w0 [ | ]]; [ | reflexivity ].
  destruct (responses_create _ w0) as [w1 [response | ]];
    [ | reflexivity ].
  destruct (response_preview _ _) as [preview | ]; [ | reflexivity ].
  rewrite !doAction_run. cbv zeta. cbn [agent world trace].
  match goal with
  | |- context [arc_post ?u ?p w1] =>
      change (arc_post u p w1)
        with (arc_post (command_url (pk_actionName (pickAction (output response))))
                (buildPayload
                   (rememberDecision img
                      (decisionOf (agent s) names latest img
                         (output response) (pickAction (output response)) preview)
                      (agent s))
                   (pk_actionName (pickAction (output response)))
                   (Some (build_meta (agent s) latest
                            (pk_args (pickAction (output response)))
                            (pk_actionName (pickAction (output response))) preview))
                   (pk_actionData (pickAction (output response))))
                w1)
  end.
  destruct (arc_post _ _ w1) as [w2 [next | ]]; [ | reflexivity ].
  destruct (loggable next); cbn [erase_res]; unfold turn_end, erase_sys;
    cbn [agent world trace]; f_equal; f_equal;
    unfold adoptGuid;
    repeat match goal with
      | |- context [prop ?k ?f] => destruct (prop k f) as [? | ]
      | |- context [truthy ?g] => destruct (truthy g)
      | |- context [truthy_opt ?g] => destruct (truthy_opt g)
      end;
    reflexivity.
Qed.

Lemma mainLoop_forgets_histories (fuel : nat) :
  forall s : Sys,
    erase_res (mainLoop fuel (erase_sys s)) = erase_res (mainLoop fuel s).
Proof.
  induction fuel as [ | fuel IH]; intros s; cbn [mainLoop];
    change (under_budget (agent (erase_sys s))) with (under_budget (agent s));
    change (latest_is_win (agent (erase_sys s))) with (latest_is_win (agent s));
    destruct (under_budget (agent s)); try reflexivity;
    destruct (latest_is_win (agent s)); try reflexivity.
  change (last_elem (frames (agent (erase_sys s))))
    with (last_elem (frames (agent s))).
  unfold bind.
  generalize (turn_forgets_histories (last_elem (frames (agent s))) s).
  destruct (turn _ (erase_sys s)) as [[] s1e | s1e | ];
    destruct (turn _ s) as [[] s1 | s1 | ];
    cbn [erase_res]; intros H; try discriminate; try reflexivity.
  - assert (He : erase_sys s1e = erase_sys s1).
    { change (match Ok tt (erase_sys s1e) with Ok _ x => x | _ => s end
              = match Ok tt (erase_sys s1) with Ok _ x => x | _ => s end).
      rewrite H. reflexivity. }
    rewrite <- (IH s1e), <- (IH s1), He. reflexivity.
  - exact H.
Qed.

(** X7. What the loop reads from [history] and [screenHistory] is used
    nowhere: two runs of the loop that start from agents differing only in
    these two fields issue the same calls, log the same lines, leave the
    same world and end the same way, with agents that again differ at most
    in these two fields.  Clearing them, as a full reset does, changes
    nothing a service can observe. *)
Theorem histories_are_write_only :
  forall (fuel : nat) (a : Agent) (w : World) (tr : list Event)
         (h : list JSON) (sh : list string),
    erase_res (mainLoop fuel (mkSys (set_screenHistory sh (set_history h a)) w tr))
    = erase_res (mainLoop fuel (mkSys a w tr)).
Proof.
  intros fuel a w tr h sh.
  rewrite <- (mainLoop_forgets_histories fuel
                (mkSys (set_screenHistory sh (set_history h a)) w tr)).
  rewrite <- (mainLoop_forgets_histories fuel (mkSys a w tr)).
  reflexivity.
Qed.

Lemma mainLoop_extends_calls (fuel : nat) (s : Sys) :
  match mainLoop fuel s with
  | Ok _ s' | Throw s' =>
      exists new, calls_of (trace s') = (calls_of (trace s) ++ new)%list
  | OutOfFuel => True
  end.
Proof.
  generalize (mainLoop_calls (fun _ => True) (fun _ => True) (fun _ => True)
                Logic.I).
  intros H. lapply H; clear H.
  - intros H. specialize (H fuel s Logic.I).
    destruct (mainLoop fuel s) as [[] s' | s' | ]; auto.
    + destruct H as (_ & new & Hnew & _). eauto.
    + destruct H as (new & Hnew & _). eauto.
  - intros latest s0 _. generalize (turn_calls latest s0). cbv zeta.
    destruct (turn latest s0) as [[] s1 | s1 | ]; [ | | auto ].
    + intros (img & names & out & pv & next & Hc & _).
      split; [ exact Logic.I | ].
      eexists. split; [ exact Hc | auto ].
    + intros [[Hc _] | (img & names & [[Hc _] | (out & pv & Hc & _)])].
      * exists []. rewrite app_nil_r. auto.
      * eexists. split; [ exact Hc | auto ].
      * eexists. split; [ exact Hc | auto ].
Qed.

Lemma mainLoop_at_win_calls (fuel : nat) (s : Sys) :
  latest_is_win (agent s) = true ->
  exists s', mainLoop fuel s = Ok tt s'
             /\ agent s' = agent s
             /\ calls_of (trace s') = calls_of (trace s).
Proof.
  intros Hwin.
  destruct fuel; cbn [mainLoop]; rewrite Hwin;
    destruct (under_budget (agent s));
    eexists; (split; [ reflexivity | ]); cbn [agent trace];
    rewrite ?calls_of_app; simpl; rewrite ?app_nil_r; auto.
Qed.

(** How a session runs up to its loop. *)
Lemma loop_run (fuel : nat) (s : Sys) :
  loop fuel s =
  let a := agent s in
  let url := command_url "RESET" in
  let p0 := buildPayload a "RESET" (Some (initial_meta a)) None in
  match arc_post url p0 (world s) with
  | (w1, None) => Throw (mkSys a w1 (trace s ++ [CallPost url p0]))
  | (w1, Some first) =>
      let a1 := set_frames (frames (adoptGuid first a) ++ [first])
                           (adoptGuid first a) in
      if loggable first
      then mainLoop fuel
             (mkSys a1 w1
                ((trace s ++ [CallPost url p0])
                   ++ [ConsoleLog (ActionResult "RESET" (prop "score" first)
                                                (prop "state" first))]))
      else Throw (mkSys a1 w1 (trace s ++ [CallPost url p0]))
  end.
Proof.
  unfold loop. unfold bind at 1. unfold this at 1. cbn [agent].
  unfold bind at 1. rewrite doAction_run. cbv zeta.
  destruct (arc_post _ _ (world s)) as [w1 [first | ]]; [ | reflexivity ].
  unfold bind at 1. unfold update at 1. cbn [agent world trace].
  unfold bind at 1. unfold log_result.
  destruct (loggable first); reflexivity.
Qed.

Lemma session_opens (fuel : nat) (a : Agent) (w : World) :
  match loop fuel (start a w) with
  | Ok _ s' | Throw s' =>
      exists rest,
        calls_of (trace s')
        = Submit (command_url "RESET")
                 (buildPayload a "RESET" (Some (initial_meta a)) None) :: rest
  | OutOfFuel => True
  end.
Proof.
  rewrite loop_run. cbv zeta. cbn [start agent world trace app].
  destruct (arc_post _ _ w) as [w1 [first | ]]; [ | exists []; reflexivity ].
  assert (Hnext : forall s1 : Sys,
             calls_of (trace s1)
             = [Submit (command_url "RESET")
                       (buildPayload a "RESET" (Some (initial_meta a)) None)] ->
             match mainLoop fuel s1 with
             | Ok _ s' | Throw s' =>
                 exists rest,
                   calls_of (trace s')
                   = Submit (command_url "RESET")
                            (buildPayload a "RESET" (Some (initial_meta a)) None)
                       :: rest
             | OutOfFuel => True
             end).
  { intros s1 Hcalls. generalize (mainLoop_extends_calls fuel s1).
    destruct (mainLoop fuel s1) as [[] s' | s' | ]; auto;
      intros (new & Hnew); exists new; rewrite Hnew, Hcalls; reflexivity. }
  destruct (loggable first); [ apply Hnext; reflexivity | ].
  exists []. reflexivity.
Qed.

(** X8. A session opens with exactly one RESET submission, built from the
    agent as it stands and without coordinates, and it always ends.  If the
    backend rejects the submission the session throws with nothing else
    sent.  If the answer cannot be logged ([null], or a score or state that
    cannot be printed) the session throws on logging it, with the frame
    recorded and no decision requested.  If the answered frame is already a
    WIN the session returns, with no decision requested.  Otherwise, with
    fuel for the remaining budget, the session returns or throws, and the
    RESET is the first call it issued. *)
Theorem session_opens_with_reset :
  forall (extra : nat) (a : Agent) (w : World),
    let fuel := MAX_ACTIONS - actionCounter a + extra in
    let url := command_url "RESET" in
    let p0 := buildPayload a "RESET" (Some (initial_meta a)) None in
    p_x p0 = None /\ p_y p0 = None
    /\ match arc_post url p0 w with
       | (w1, None) => loop fuel (start a w) = Throw (mkSys a w1 [CallPost url p0])
       | (w1, Some first) =>
           let a1 := set_frames (frames (adoptGuid first a) ++ [first])
                                (adoptGuid first a) in
           if loggable first
           then if is_win (Some first)
                then exists s',
                       loop fuel (start a w) = Ok tt s'
                       /\ agent s' = a1 /\ world s' = w1
                       /\ calls_of (trace s') = [Submit url p0]
                else exists s' rest,
                       (loop fuel (start a w) = Ok tt s'
                        \/ loop fuel (start a w) = Throw s')
                       /\ calls_of (trace s') = Submit url p0 :: rest
           else loop fuel (start a w) = Throw (mkSys a1 w1 [CallPost url p0])
       end.
Proof.
  intros extra a w fuel url p0.
  split; [ reflexivity | split; [ reflexivity | ] ].
  rewrite loop_run. cbv zeta. cbn [start agent world trace app].
  fold url. fold p0.
  destruct (arc_post url p0 w) as [w1 [first | ]]; [ | reflexivity ].
  destruct (loggable first); [ | reflexivity ].
  set (a1 := set_frames (frames (adoptGuid first a) ++ [first])
                        (adoptGuid first a)).
  set (s1 := mkSys a1 w1 _).
  assert (Hcalls : calls_of (trace s1) = [Submit url p0]) by reflexivity.
  assert (Hlast : latest_is_win (agent s1) = is_win (Some first)).
  { unfold latest_is_win. cbn [s1 a1 agent frames set_frames].
    now rewrite last_elem_snoc. }
  destruct (is_win (Some first)).
  - destruct (mainLoop_at_win fuel s1 Hlast) as (s' & Hrun & Ha & Hw & _).
    destruct (mainLoop_at_win_calls fuel s1 Hlast) as (s'' & Hrun' & _ & Hc).
    assert (E : s'' = s') by congruence. subst s''.
    exists s'. rewrite Hc, Hcalls. auto.
  - assert (Hfuel : MAX_ACTIONS - actionCounter (agent s1) <= fuel).
    { destruct (adoptGuid_keeps first a) as (_ & Gc & _).
      cbn [s1 a1 agent actionCounter set_frames]. rewrite Gc.
      unfold fuel. lia. }
    generalize (mainLoop_bounded fuel s1 Hfuel).
    generalize (mainLoop_extends_calls fuel s1).
    destruct (mainLoop fuel s1) as [[] s' | s' | ]; [ | | tauto ];
      intros (new & Hnew) _; exists s', new; rewrite Hnew, Hcalls; auto.
Qed.

Lemma find_skips_prefix {A : Type} (f : A -> bool) (pre : list A) (x : A)
    (post : list A) :
  forallb (fun i => negb (f i)) pre = true ->
  f x = true ->
  find f (pre ++ x :: post)%list = Some x.
Proof.
  intros Hpre Hx. induction pre as [ | y pre IH]; cbn.
  - now rewrite Hx.
  - cbn in Hpre. apply andb_prop in Hpre. destruct Hpre as [Hy Hpre].
    destruct (f y); [ discriminate | auto ].
Qed.

(** X9. Only the first [function_call] item of a response counts: the items
    before it are skipped and everything after it is ignored, so a second
    call in the same response, whatever it chooses, changes neither the
    action nor the coordinates nor the call id. *)
Theorem first_function_call_decides :
  forall (pre post post' : list OutputItem) (item : OutputItem),
    forallb (fun i => negb (is_function_call i)) pre = true ->
    is_function_call item = true ->
    pickAction (Some (pre ++ item :: post)%list) = pickFrom item
    /\ pickAction (Some (pre ++ item :: post')%list)
       = pickAction (Some (pre ++ item :: post)%list).
Proof.
  intros pre post post' item Hpre Hitem.
  unfold pickAction.
  rewrite !(find_skips_prefix is_function_call pre item) by assumption.
  split; reflexivity.
Qed.

End Orchestrator.

Arguments Ok {World A} a s.
Arguments Throw {World A} s.
Arguments OutOfFuel {World A}.

(** ** The allowed names of a frame *)

Lemma lookup_name_In (k v : string) (tbl : list (string * string)) :
  lookup_name k tbl = Some v -> In (k, v) tbl.
Proof.
  induction tbl as [ | [k' v'] tbl IH]; cbn [lookup_name]; [ discriminate | ].
  destruct (String.eqb_spec k k') as [-> | _].
  - intros H. injection H as ->. left. reflexivity.
  - intros H. right. auto.
Qed.

Lemma lookup_name_known (k v : string) :
  lookup_name k ACTION_NAME_BY_ID = Some v -> In v (map snd ACTION_NAME_BY_ID).
Proof.
  intros H. apply lookup_name_In in H.
  exact (in_map snd ACTION_NAME_BY_ID (k, v) H).
Qed.

Lemma key_of_reset (k : string) :
  lookup_name k ACTION_NAME_BY_ID = Some "RESET" -> k = "0".
Proof.
  intros H. apply lookup_name_In in H. unfold ACTION_NAME_BY_ID in H.
  simpl in H.
  repeat (destruct H as [H | H]; [ now inversion H | ]).
  destruct H.
Qed.

Lemma key_of_action6 (k : string) :
  lookup_name k ACTION_NAME_BY_ID = Some "ACTION6" -> k = "6".
Proof.
  intros H. apply lookup_name_In in H. unfold ACTION_NAME_BY_ID in H.
  simpl in H.
  repeat (destruct H as [H | H]; [ now inversion H | ]).
  destruct H.
Qed.

Lemma action_name_found (id : JSON) (k v : string) :
  (forall k', lookup_name k' ACTION_NAME_BY_ID = Some v -> k' = k) ->
  lookup_name k ACTION_NAME_BY_ID = Some v ->
  (action_name_by_id id = Found v <-> key_text id = Text k).
Proof.
  intros Hinj Hk. unfold action_name_by_id, table_entry.
  destruct (key_text id) as [k' | | ]; [ | split; discriminate | split; discriminate ].
  destruct (lookup_name k' ACTION_NAME_BY_ID) as [v' | ] eqn:E.
  - split; intros H.
    + injection H as ->. f_equal. auto.
    + injection H as ->. congruence.
  - split; intros H.
    + destruct (inherited k'); discriminate.
    + injection H as ->. congruence.
Qed.

Lemma action_name_throws (id : JSON) :
  action_name_by_id id = Throws <-> key_text id = Unprintable.
Proof.
  unfold action_name_by_id, table_entry.
  destruct (key_text id) as [k | | ].
  - destruct (lookup_name k ACTION_NAME_BY_ID);
      [ | destruct (inherited k) ]; split; discriminate.
  - split; discriminate.
  - split; reflexivity.
Qed.

Lemma entry_offered (id : JSON) (n : Name) :
  action_name_by_id id = entry_of n -> offered_name n.
Proof.
  unfold action_name_by_id, table_entry.
  destruct (key_text id) as [k | | ]; [ | destruct n; discriminate .. ].
  destruct (lookup_name k ACTION_NAME_BY_ID) as [v | ] eqn:E.
  - destruct n as [v' | k']; [ | discriminate ].
    intros H. injection H as <-. exact (lookup_name_known k v E).
  - destruct (inherited k) eqn:Ei; destruct n as [v' | k']; try discriminate.
    intros H. injection H as <-. exact Ei.
Qed.

Lemma entry_of_inj (n m : Name) : entry_of n = entry_of m -> n = m.
Proof. destruct n, m; simpl; intros H; congruence. Qed.

Lemma map_filter_names_In (ids : list JSON) :
  forall l,
    map_filter_names ids = Some l ->
    forall n, In n l
              <-> exists id, In id ids /\ action_name_by_id id = entry_of n.
Proof.
  induction ids as [ | id ids IH]; cbn [map_filter_names]; intros l Hl n.
  - injection Hl as <-. split; [ intros [] | intros (id & [] & _) ].
  - destruct (action_name_by_id id) as [v | k | | ] eqn:E;
      destruct (map_filter_names ids) as [l' | ]; try discriminate;
      injection Hl as <-; specialize (IH l' eq_refl n).
    + cbn [In]. rewrite IH. split.
      * intros [<- | (id' & Hin & Hn)]; [ exists id | exists id' ]; simpl; auto.
      * intros (id' & [<- | Hin] & Hn).
        -- left. apply entry_of_inj. simpl. congruence.
        -- right. exists id'. auto.
    + cbn [In]. rewrite IH. split.
      * intros [<- | (id' & Hin & Hn)]; [ exists id | exists id' ]; simpl; auto.
      * intros (id' & [<- | Hin] & Hn).
        -- left. apply entry_of_inj. simpl. congruence.
        -- right. exists id'. auto.
    + rewrite IH. split.
      * intros (id' & Hin & Hn). exists id'. simpl. auto.
      * intros (id' & [<- | Hin] & Hn);
          [ destruct n; simpl in Hn; congruence | exists id'; auto ].
Qed.

Lemma map_filter_names_offered (ids : list JSON) (l : list Name) :
  map_filter_names ids = Some l -> Forall offered_name l.
Proof.
  intros Hl. apply Forall_forall. intros n Hn.
  apply (map_filter_names_In ids l Hl) in Hn.
  destruct Hn as (id & _ & Hid). exact (entry_offered id n Hid).
Qed.

Lemma map_filter_names_throws (ids : list JSON) :
  map_filter_names ids = None
  <-> Exists (fun id => key_text id = Unprintable) ids.
Proof.
  induction ids as [ | id ids IH]; cbn [map_filter_names].
  - split; [ discriminate | intros H; inversion H ].
  - destruct (action_name_by_id id) as [v | k | | ] eqn:E;
      try (assert (Hid : key_text id <> Unprintable)
            by (intros Hu; apply action_name_throws in Hu; congruence);
           destruct (map_filter_names ids) as [l | ];
           [ split; [ discriminate | ];
             intros H; inversion H; subst;
             [ contradiction | apply IH in H1; discriminate ]
           | split; [ intros _; apply Exists_cons_tl; now apply IH | reflexivity ] ]).
    split; [ intros _ | reflexivity ].
    apply Exists_cons_hd. now apply action_name_throws.
Qed.

Lemma map_filter_names_nil (ids : list JSON) :
  map_filter_names ids = Some []
  <-> Forall (fun id => action_name_by_id id = Missing) ids.
Proof.
  induction ids as [ | id ids IH]; cbn [map_filter_names].
  - split; [ constructor | reflexivity ].
  - destruct (action_name_by_id id) as [v | k | | ] eqn:E.
    + split; [ destruct (map_filter_names ids); discriminate | ].
      intros H. inversion H; subst. congruence.
    + split; [ destruct (map_filter_names ids); discriminate | ].
      intros H. inversion H; subst. congruence.
    + destruct (map_filter_names ids) as [l | ].
      * split.
        -- intros H. constructor; [ exact E | ]. apply IH. exact H.
        -- intros H. inversion H; subst. now apply IH.
      * split; [ discriminate | ].
        intros H. inversion H; subst.
        match goal with Hf : Forall _ ids |- _ => apply IH in Hf; discriminate end.
    + split; [ discriminate | ].
      intros H. inversion H; subst. congruence.
Qed.

(** The two ways the names of a turn come about. *)
Lemma allowedNamesOf_cases (f : option JSON) :
  (exists id ids,
      oprop "available_actions" f = Some (JArr (id :: ids))
      /\ allowedNamesOf f
         = option_map (fun l => (l ++ [Named "RESET"])%list)
                      (map_filter_names (id :: ids)))
  \/ ((forall ids id, oprop "available_actions" f = Some (JArr ids) -> ~ In id ids)
      /\ allowedNamesOf f = Some (default_names ++ [Named "RESET"])%list).
Proof.
  unfold allowedNamesOf.
  destruct (oprop "available_actions" f) as [[ | | | | [ | id ids] | ] | ];
    try (right; split;
         [ intros ids0 id0 H; try discriminate; injection H as <-; intros []
         | reflexivity ]).
  left. exists id, ids. split; reflexivity.
Qed.

Lemma includes_name_In (s : string) (l : list Name) :
  includes_name s l = true <-> In (Named s) l.
Proof.
  unfold includes_name. rewrite existsb_exists. split.
  - intros ([t | k] & Hin & He); [ | discriminate ].
    apply String.eqb_eq in He. now subst.
  - intros H. exists (Named s). split; [ exact H | apply String.eqb_refl ].
Qed.

(** X10. The names offered for a turn always end with RESET.  A frame
    without a non-empty [available_actions] array yields the four default
    actions.  A non-empty array yields, in order, one entry for every id the
    action table answers: the name of a recognised id, or the inherited
    member an id spells ([constructor], [toString], ...), which
    [filter(Boolean)] keeps; when no id is answered the defaults are not
    used and RESET is the only choice.  No names are produced, the lookup
    throwing, exactly when some id of the array cannot be converted to a
    property key. *)
Theorem allowed_names_end_with_reset :
  forall (latestFrame : option JSON),
    match oprop "available_actions" latestFrame with
    | Some (JArr (id :: ids)) =>
        match allowedNamesOf latestFrame with
        | Some all =>
            Forall (fun i => key_text i <> Unprintable) (id :: ids)
            /\ exists names,
                 all = (names ++ [Named "RESET"])%list
                 /\ map_filter_names (id :: ids) = Some names
                 /\ Forall offered_name all
                 /\ (forall n, In n names
                               <-> exists i, In i (id :: ids)
                                             /\ action_name_by_id i = entry_of n)
                 /\ (all = [Named "RESET"]
                     <-> Forall (fun i => action_name_by_id i = Missing) (id :: ids))
        | None => Exists (fun i => key_text i = Unprintable) (id :: ids)
        end
    | _ => allowedNamesOf latestFrame = Some (default_names ++ [Named "RESET"])%list
    end.
Proof.
  intros f. unfold allowedNamesOf.
  destruct (oprop "available_actions" f) as [[ | | | | [ | id ids] | ] | ];
    try reflexivity.
  destruct (map_filter_names (id :: ids)) as [names | ] eqn:E;
    cbn [option_map]; [ | now apply map_filter_names_throws ].
  split.
  - apply Forall_forall. intros i Hi Hu.
    assert (Hn : map_filter_names (id :: ids) = None)
      by (apply map_filter_names_throws, Exists_exists; eauto).
    congruence.
  - exists names.
    split; [ reflexivity | split; [ reflexivity | split; [ | split ] ] ].
    + apply Forall_app. split; [ now apply (map_filter_names_offered (id :: ids)) | ].
      constructor; [ simpl; tauto | constructor ].
    + exact (map_filter_names_In (id :: ids) names E).
    + rewrite <- map_filter_names_nil, E. split.
      * intros H. destruct names as [ | n l]; [ reflexivity | ].
        destruct l; discriminate.
      * intros H. injection H as ->. reflexivity.
Qed.

(** X11. When the frame lists the id of RESET itself (an id that prints as
    0) among its available actions and the names of the turn are produced,
    RESET occurs twice among them, once for the id and once more at the
    end, and the [enum] of the schema is that list. *)
Theorem reset_id_duplicates_reset :
  forall (latestFrame : option JSON) (ids : list JSON) (id : JSON)
         (names : list Name),
    oprop "available_actions" latestFrame = Some (JArr ids) ->
    In id ids ->
    key_text id = Text "0" ->
    allowedNamesOf latestFrame = Some names ->
    (exists before between,
        names = (before ++ Named "RESET" :: between ++ [Named "RESET"])%list)
    /\ exists p, lookup_prop "action" (properties (schema_of names)) = Some p
                 /\ ps_enum p = Some names.
Proof.
  intros f ids id names Hf Hin Hkey Hnames.
  split.
  - destruct (allowedNamesOf_cases f) as [(i0 & ids0 & Hf0 & Ha) | [Hno _]];
      [ | destruct (Hno ids id Hf Hin) ].
    rewrite Hf in Hf0. injection Hf0 as ->.
    rewrite Hnames in Ha.
    destruct (map_filter_names (i0 :: ids0)) as [l | ] eqn:E; [ | discriminate ].
    cbn [option_map] in Ha. injection Ha as ->.
    assert (Hl : In (Named "RESET") l).
    { apply (map_filter_names_In (i0 :: ids0) l E).
      exists id. split; [ exact Hin | ].
      apply (action_name_found id "0" "RESET");
        [ exact key_of_reset | reflexivity | exact Hkey ]. }
    apply in_split in Hl. destruct Hl as (before & between & ->).
    exists before, between. rewrite <- app_assoc. reflexivity.
  - unfold schema_of, buildReasoningTools.
    destruct (includes_name "ACTION6" names);
      eexists; (split; [ reflexivity | reflexivity ]).
Qed.

(** X12. When the names of a turn are produced, its schema knows and
    requires the coordinate fields, [x] and [y] alike, exactly when the
    frame lists an id that prints as 6; the default actions never come with
    coordinates.  The names are not produced only when some listed id cannot
    be converted to a property key. *)
Theorem coordinates_offered_for_action_six :
  forall (latestFrame : option JSON),
    match allowedNamesOf latestFrame with
    | Some names =>
        let listed :=
          exists ids id,
            oprop "available_actions" latestFrame = Some (JArr ids)
            /\ In id ids /\ key_text id = Text "6" in
        (In "x" (required (schema_of names)) <-> listed)
        /\ (In "y" (required (schema_of names)) <-> listed)
        /\ (lookup_prop "x" (properties (schema_of names)) <> None <-> listed)
        /\ (lookup_prop "y" (properties (schema_of names)) <> None <-> listed)
    | None =>
        exists ids id,
          oprop "available_actions" latestFrame = Some (JArr ids)
          /\ In id ids /\ key_text id = Unprintable
    end.
Proof.
  intros f.
  destruct (allowedNamesOf f) as [names | ] eqn:Hnames.
  - cbv zeta.
    assert (Hsix : includes_name "ACTION6" names = true
                   <-> exists ids id,
                         oprop "available_actions" f = Some (JArr ids)
                         /\ In id ids /\ key_text id = Text "6").
    { rewrite includes_name_In.
      destruct (allowedNamesOf_cases f) as [(i0 & ids0 & Hf0 & Ha) | [Hno Ha]];
        rewrite Hnames in Ha.
      - destruct (map_filter_names (i0 :: ids0)) as [l | ] eqn:E; [ | discriminate ].
        cbn [option_map] in Ha. injection Ha as ->.
        rewrite in_app_iff, (map_filter_names_In (i0 :: ids0) l E). split.
        + intros [(id & Hi & Hn) | H]; [ | simpl in H; intuition discriminate ].
          exists (i0 :: ids0), id. split; [ exact Hf0 | split; [ exact Hi | ] ].
          apply (action_name_found id "6" "ACTION6");
            [ exact key_of_action6 | reflexivity | exact Hn ].
        + intros (ids & id & Heq & Hi & Hk).
          rewrite Hf0 in Heq. injection Heq as <-.
          left. exists id. split; [ exact Hi | ].
          apply (action_name_found id "6" "ACTION6");
            [ exact key_of_action6 | reflexivity | exact Hk ].
      - injection Ha as ->. split.
        + unfold default_names. simpl. intros H. intuition discriminate.
        + intros (ids & id & Heq & Hi & _). destruct (Hno ids id Heq Hi). }
    rewrite <- Hsix.
    unfold schema_of, buildReasoningTools.
    destruct (includes_name "ACTION6" names); cbn;
      repeat split; auto; intros H; try discriminate;
      intuition discriminate.
  - destruct (allowedNamesOf_cases f) as [(i0 & ids0 & Hf0 & Ha) | [_ Ha]];
      rewrite Hnames in Ha; [ | discriminate ].
    destruct (map_filter_names (i0 :: ids0)) as [l | ] eqn:E; [ discriminate | ].
    apply map_filter_names_throws, Exists_exists in E.
    destruct E as (id & Hi & Hu). exists (i0 :: ids0), id. auto.
Qed.

(** ** What an accepted decision looks like *)

Lemma assoc_In (k : string) (v : JSON) (fs : list (string * JSON)) :
  assoc k fs = Some v -> In (k, v) fs.
Proof.
  induction fs as [ | [k' v'] fs IH]; cbn [assoc]; [ discriminate | ].
  destruct (String.eqb_spec k k') as [-> | Hne].
  - intros H. injection H as ->. left. reflexivity.
  - intros H. right. auto.
Qed.

Lemma lookup_prop_In (k : string) (ps : list (string * PropSchema)) :
  lookup_prop k ps <> None -> In k (map fst ps).
Proof.
  induction ps as [ | [k' p'] ps IH]; cbn [lookup_prop map fst In];
    [ congruence | ].
  destruct (String.eqb_spec k k') as [-> | Hne]; auto.
Qed.

Lemma decision_schema_fields (allowed : list string) :
  additionalProperties (decision_schema allowed) = false
  /\ required (decision_schema allowed) = map fst (properties (decision_schema allowed))
  /\ lookup_prop "action" (properties (decision_schema allowed))
     = Some (mkProp ["string"]
                    ("Choose one of: "
                       ++ join ", " (map print_name (map Named allowed)))
                    None None (Some (map Named allowed)) None None)
  /\ forall k, In k ["reason"; "short_description"; "hypothesis";
                      "aggregated_findings"] ->
               exists p, lookup_prop k (properties (decision_schema allowed)) = Some p
                         /\ ps_type p = ["string"]
                         /\ ps_minLength p <> None /\ ps_maxLength p <> None.
Proof.
  unfold decision_schema, schema_of, buildReasoningTools.
  destruct (includes_name "ACTION6" (map Named allowed)); cbn;
    (split; [ reflexivity | split; [ reflexivity | split; [ reflexivity | ] ] ]);
    intros k [<- | [<- | [<- | [<- | []]]]]; cbn;
    eexists; (split; [ reflexivity | ]); cbn; repeat split; discriminate.
Qed.

(** X13. A decision object the schema of a turn accepts has exactly the
    declared fields: every required field is present, no other field
    occurs, its action is a string among the allowed names, and its four
    justification fields are strings. *)
Theorem accepted_decision_is_closed :
  forall (allowed : list string) (fs : list (string * JSON)),
    schema_accepts (decision_schema allowed) (JObj fs) = true ->
    (forall k, In k (required (decision_schema allowed)) -> assoc k fs <> None)
    /\ (forall k v, In (k, v) fs -> In k (required (decision_schema allowed)))
    /\ (exists a, assoc "action" fs = Some (JStr a) /\ In a allowed)
    /\ (forall k, In k ["reason"; "short_description"; "hypothesis";
                        "aggregated_findings"] ->
                  exists text, assoc k fs = Some (JStr text)).
Proof.
  intros allowed fs Hacc.
  destruct (decision_schema_fields allowed) as (Hclosed & Hreq & Haction & Htexts).
  unfold schema_accepts in Hacc. apply andb_prop in Hacc.
  destruct Hacc as [Hpresent Hvalues].
  rewrite forallb_forall in Hpresent, Hvalues.
  assert (Hhas : forall k, In k (required (decision_schema allowed)) ->
                           assoc k fs <> None).
  { intros k Hk. specialize (Hpresent k Hk).
    destruct (assoc k fs); [ discriminate | discriminate ]. }
  assert (Hval : forall k v p,
             In (k, v) fs ->
             lookup_prop k (properties (decision_schema allowed)) = Some p ->
             value_accepted p v = true).
  { intros k v p Hin Hp. specialize (Hvalues (k, v) Hin). cbn [fst snd] in Hvalues.
    now rewrite Hp in Hvalues. }
  assert (Hstr : forall k p,
             In k (required (decision_schema allowed)) ->
             lookup_prop k (properties (decision_schema allowed)) = Some p ->
             ps_type p = ["string"] ->
             exists text, assoc k fs = Some (JStr text)
                          /\ value_accepted p (JStr text) = true).
  { intros k p Hk Hp Hty.
    destruct (assoc k fs) as [v | ] eqn:E; [ | now elim (Hhas k Hk) ].
    pose proof (Hval k v p (assoc_In _ _ _ E) Hp) as Hv.
    assert (Hty' : existsb (has_type v) (ps_type p) = true).
    { unfold value_accepted in Hv.
      repeat (apply andb_prop in Hv; destruct Hv as [Hv _]). exact Hv. }
    rewrite Hty in Hty'. cbn in Hty'.
    destruct v; try discriminate. eauto. }
  split; [ exact Hhas | split; [ | split ] ].
  - intros k v Hin. rewrite Hreq. apply lookup_prop_In.
    specialize (Hvalues (k, v) Hin). cbn [fst snd] in Hvalues.
    destruct (lookup_prop k (properties (decision_schema allowed))); [ discriminate | ].
    rewrite Hclosed in Hvalues. discriminate.
  - destruct (Hstr "action" _ ltac:(rewrite Hreq; apply lookup_prop_In;
                                     rewrite Haction; discriminate)
                   Haction eq_refl) as (a & Ha & Hv).
    exists a. split; [ exact Ha | ].
    unfold value_accepted in Hv. cbn in Hv.
    rewrite !andb_true_r in Hv. rewrite includes_name_Named in Hv.
    unfold includes in Hv.
    apply existsb_exists in Hv. destruct Hv as (n & Hn & He).
    apply String.eqb_eq in He. now subst.
  - intros k Hk. destruct (Htexts k Hk) as (p & Hp & Hty & _).
    destruct (Hstr k p ltac:(rewrite Hreq; apply lookup_prop_In;
                             rewrite Hp; discriminate) Hp Hty)
      as (text & Ht & _).
    eauto.
Qed.

(** ** Facts about the command line *)

Lemma split_on_free (c : ascii) (s : string) :
  free_of c s = true -> split_on c s = [s].
Proof.
  induction s as [ | x s IH]; cbn; [ reflexivity | ].
  intros H. apply andb_prop in H. destruct H as [Hx Hs].
  destruct (Ascii.eqb x c); [ discriminate | ].
  now rewrite (IH Hs).
Qed.

Lemma split_on_first (c : ascii) (a b : string) :
  free_of c a = true ->
  split_on c (a ++ String c b) = a :: split_on c b.
Proof.
  induction a as [ | x a IH]; cbn.
  - intros _. now rewrite Ascii.eqb_refl.
  - intros H. apply andb_prop in H. destruct H as [Hx Ha].
    destruct (Ascii.eqb x c); [ discriminate | ].
    now rewrite (IH Ha).
Qed.

Lemma starts_with_dashes_spec (s : string) :
  starts_with_dashes s
  = match s with
    | String a (String b _) => Ascii.eqb a "-" && Ascii.eqb b "-"
    | _ => false
    end.
Proof.
  destruct s as [ | a [ | b r]]; try reflexivity.
  - destruct a as [[] [] [] [] [] [] [] []]; reflexivity.
  - destruct a as [[] [] [] [] [] [] [] []]; try reflexivity.
    destruct b as [[] [] [] [] [] [] [] []]; reflexivity.
Qed.

Lemma split_on_nonempty (c : ascii) (s : string) : split_on c s <> [].
Proof.
  destruct s as [ | x s]; cbn; [ discriminate | ].
  destruct (Ascii.eqb x c); [ discriminate | ].
  destruct (split_on c s); discriminate.
Qed.

Lemma parseLoop_attached (k v tail : string) (pieces : list string)
    (rest : list string) (out : CliArgs) :
  free_of "=" k = true ->
  split_on "=" tail = v :: pieces ->
  parseLoop (attached k tail :: rest) out = parseLoop rest (assign k (Some v) out).
Proof.
  intros Hk Hsplit. unfold attached. cbn [parseLoop].
  change (String.eqb ("--" ++ k ++ String "=" tail) "") with false.
  change (starts_with_dashes ("--" ++ k ++ String "=" tail)) with true.
  cbv zeta.
  change ("--" ++ k ++ String "=" tail) with (("--" ++ k) ++ String "=" tail).
  rewrite split_on_first by (cbn; exact Hk).
  rewrite Hsplit. reflexivity.
Qed.

(** X14. The two spellings of a flag agree: [--key=value] is read exactly
    like [--key value] whenever the value is not empty, holds no [=] and
    does not itself start with [--]. *)
Theorem attached_and_separate_values_agree :
  forall (k v : string) (rest : list string) (out : CliArgs),
    free_of "=" k = true ->
    free_of "=" v = true ->
    v <> "" ->
    starts_with_dashes v = false ->
    parseLoop (attached k v :: rest) out
    = parseLoop (("--" ++ k) :: v :: rest) out.
Proof.
  intros k v rest out Hk Hv Hne Hd.
  rewrite (parseLoop_attached k v v [] rest out Hk (split_on_free _ _ Hv)).
  cbn [parseLoop].
  change (String.eqb ("--" ++ k) "") with false.
  change (starts_with_dashes ("--" ++ k)) with true.
  cbv zeta.
  rewrite split_on_free by (cbn; exact Hk).
  cbn [nth_error hd strip_dashes append].
  unfold nonempty. destruct (String.eqb_spec v "") as [-> | _]; [ congruence | ].
  rewrite Hd. reflexivity.
Qed.

(** X15. An attached value ends at its next [=]: of [--key=v=w] only [v] is
    kept, whatever [w] is, while the separate spelling [--key v=w] keeps all
    of it. *)
Theorem attached_value_is_cut_at_equals :
  forall (k v w : string) (rest : list string) (out : CliArgs),
    free_of "=" k = true ->
    free_of "=" v = true ->
    parseLoop (attached k (v ++ String "=" w) :: rest) out
    = parseLoop (attached k v :: rest) out
    /\ (v <> "" -> starts_with_dashes v = false ->
        parseLoop (("--" ++ k) :: (v ++ String "=" w) :: rest) out
        = parseLoop rest (assign k (Some (v ++ String "=" w)) out)).
Proof.
  intros k v w rest out Hk Hv. split.
  - rewrite (parseLoop_attached k v (v ++ String "=" w) (split_on "=" w) rest out Hk
               (split_on_first _ _ _ Hv)).
    rewrite (parseLoop_attached k v v [] rest out Hk (split_on_free _ _ Hv)).
    reflexivity.
  - intros Hne Hd. cbn [parseLoop].
    change (String.eqb ("--" ++ k) "") with false.
    change (starts_with_dashes ("--" ++ k)) with true.
    cbv zeta.
    rewrite split_on_free by (cbn; exact Hk).
    cbn [nth_error hd strip_dashes append].
    assert (Hn : nonempty (v ++ String "=" w) = true)
      by (destruct v; [ congruence | reflexivity ]).
    assert (Hs : starts_with_dashes (v ++ String "=" w) = false).
    { rewrite starts_with_dashes_spec in *.
      destruct v as [ | a [ | b v]]; try congruence; cbn in *.
      - apply andb_false_r.
      - exact Hd. }
    rewrite Hn, Hs. reflexivity.
Qed.

Lemma parseLoop_stops_at_empty (n : nat) :
  forall pre : list string,
    List.length pre <= n ->
    forall (post : list string) (out : CliArgs),
      parseLoop (pre ++ "" :: post) out = parseLoop pre out.
Proof.
  induction n as [ | n IH]; intros pre Hlen post out.
  - destruct pre; [ reflexivity | simpl in Hlen; lia ].
  - destruct pre as [ | t pre']; [ reflexivity | ].
    simpl in Hlen. cbn [parseLoop app].
    destruct (String.eqb t ""); [ reflexivity | ].
    destruct (starts_with_dashes t); [ | apply IH; lia ].
    cbv zeta.
    destruct (nth_error (split_on "=" t) 1); [ apply IH; lia | ].
    destruct pre' as [ | next pre'']; [ reflexivity | ].
    cbn [app]. simpl in Hlen.
    destruct (nonempty next && negb (starts_with_dashes next)).
    + apply IH. lia.
    + apply (IH (next :: pre'')). simpl. lia.
Qed.

(** X16. An empty string among the arguments ends the parsing: everything
    after it is ignored, flags included, and what came before is read as if
    the list ended there. *)
Theorem empty_argument_ends_parsing :
  forall (pre post : list string),
    parseArgs (pre ++ "" :: post) = parseArgs pre.
Proof.
  intros pre post. unfold parseArgs.
  now apply (parseLoop_stops_at_empty (List.length pre)).
Qed.

Lemma parseLoop_last_attached (k v : string) (n : nat) :
  free_of "=" k = true ->
  forall pre : list string,
    List.length pre <= n ->
    Forall (fun t => t <> "") pre ->
    forall out : CliArgs,
    exists out', parseLoop (pre ++ [attached k v]) out
                 = parseLoop [attached k v] out'.
Proof.
  intros Hk.
  induction n as [ | n IH]; intros pre Hlen Hne out.
  - destruct pre; [ exists out; reflexivity | simpl in Hlen; lia ].
  - destruct pre as [ | t pre']; [ exists out; reflexivity | ].
    simpl in Hlen. inversion Hne as [ | ? ? Ht Hne']; subst.
    cbn [parseLoop app].
    destruct (String.eqb_spec t "") as [-> | _]; [ congruence | ].
    destruct (starts_with_dashes t); [ | apply IH; [ lia | exact Hne' ] ].
    cbv zeta.
    destruct (nth_error (split_on "=" t) 1);
      [ apply IH; [ lia | exact Hne' ] | ].
    destruct pre' as [ | next pre''].
    + cbn [app].
      change (starts_with_dashes (attached k v)) with true.
      rewrite andb_false_r. eexists. reflexivity.
    + cbn [app]. simpl in Hlen. inversion Hne' as [ | ? ? Hn Hne'']; subst.
      destruct (nonempty next && negb (starts_with_dashes next)).
      * apply IH; [ lia | exact Hne'' ].
      * apply (IH (next :: pre'')); [ simpl; lia | exact Hne' ].
Qed.

(** X17. The last flag wins: when the argument list holds no empty string
    and ends with [--model=v], [--effort=v] or [--game=v] for a non-empty
    [v] without [=], the parsed model, effort or game is [v], whatever
    came before. *)
Theorem last_flag_wins :
  forall (pre : list string) (v : string),
    Forall (fun t => t <> "") pre ->
    v <> "" ->
    free_of "=" v = true ->
    arg_model (parseArgs (pre ++ [attached "model" v])) = v
    /\ arg_effort (parseArgs (pre ++ [attached "effort" v])) = v
    /\ arg_game (parseArgs (pre ++ [attached "game" v])) = v.
Proof.
  intros pre v Hpre Hne Hv. unfold parseArgs.
  assert (Hn : nonempty v = true)
    by (unfold nonempty; destruct (String.eqb_spec v ""); [ congruence | reflexivity ]).
  repeat split.
  - destruct (parseLoop_last_attached "model" v (List.length pre) eq_refl pre
                (le_n _) Hpre (mkCliArgs "" "" "")) as (out' & ->).
    rewrite (parseLoop_attached "model" v v [] [] out' eq_refl
               (split_on_free _ _ Hv)).
    cbn [parseLoop]. unfold assign. rewrite Hn. reflexivity.
  - destruct (parseLoop_last_attached "effort" v (List.length pre) eq_refl pre
                (le_n _) Hpre (mkCliArgs "" "" "")) as (out' & ->).
    rewrite (parseLoop_attached "effort" v v [] [] out' eq_refl
               (split_on_free _ _ Hv)).
    cbn [parseLoop]. unfold assign. rewrite Hn. reflexivity.
  - destruct (parseLoop_last_attached "game" v (List.length pre) eq_refl pre
                (le_n _) Hpre (mkCliArgs "" "" "")) as (out' & ->).
    rewrite (parseLoop_attached "game" v v [] [] out' eq_refl
               (split_on_free _ _ Hv)).
    cbn [parseLoop]. unfold assign. rewrite Hn. reflexivity.
Qed.

(** ** Facts about the picture *)

Lemma for_each_In {A B : Type} (f : A -> Outcome (list B)) (l : list A) :
  forall ops b,
    for_each f l = Done ops ->
    (In b ops <-> exists a p, In a l /\ f a = Done p /\ In b p).
Proof.
  induction l as [ | a l IH]; cbn [for_each]; intros ops b H.
  - injection H as <-. split; [ intros [] | intros (a & p & [] & _) ].
  - destruct (f a) as [p | | ] eqn:Ha; try discriminate.
    destruct (for_each f l) as [more | | ]; try discriminate.
    injection H as <-. rewrite in_app_iff, (IH more b eq_refl). split.
    + intros [Hb | (a' & p' & Hin & Hf & Hb)].
      * exists a, p. split; [ left; reflexivity | auto ].
      * exists a', p'. split; [ right; exact Hin | auto ].
    + intros (a' & p' & [<- | Hin] & Hf & Hb).
      * left. rewrite Ha in Hf. injection Hf as <-. exact Hb.
      * right. eauto.
Qed.

Lemma for_each_count {A B : Type} (f : A -> Outcome (list B)) (P : B -> bool)
    (k : nat) (l : list A) :
  forall ops,
    for_each f l = Done ops ->
    (forall a p, In a l -> f a = Done p -> List.length (filter P p) = k) ->
    List.length (filter P ops) = k * List.length l.
Proof.
  induction l as [ | a l IH]; cbn [for_each]; intros ops H Hk.
  - injection H as <-. cbn. lia.
  - destruct (f a) as [p | | ] eqn:Ha; try discriminate.
    destruct (for_each f l) as [more | | ]; try discriminate.
    injection H as <-. rewrite filter_app, length_app.
    rewrite (Hk a p (or_introl eq_refl) Ha).
    rewrite (IH more eq_refl); [ cbn [List.length]; lia | ].
    intros a' p' Hin. apply Hk. right. exact Hin.
Qed.

Lemma for_each_TypeError {A B : Type} (f : A -> Outcome (list B)) (l : list A) :
  for_each f l = TypeError -> exists a, In a l /\ f a = TypeError.
Proof.
  induction l as [ | a l IH]; cbn [for_each]; [ discriminate | ].
  destruct (f a) as [p | | ] eqn:Ha; try discriminate.
  - destruct (for_each f l) as [more | | ]; try discriminate.
    intros _. destruct (IH eq_refl) as (a' & Hin & Hf).
    exists a'. split; [ right; exact Hin | exact Hf ].
  - intros _. exists a. split; [ left; reflexivity | exact Ha ].
Qed.

Lemma for_each_total {A B : Type} (f : A -> Outcome (list B)) (l : list A) :
  (forall a, In a l -> exists p, f a = Done p) ->
  exists ops, for_each f l = Done ops.
Proof.
  induction l as [ | a l IH]; cbn [for_each]; intros H; [ eauto | ].
  destruct (H a (or_introl eq_refl)) as (p & ->).
  destruct IH as (more & ->); [ intros a' Hin; apply H; right; exact Hin | ].
  eauto.
Qed.

(** The first pass that does not complete decides. *)
Lemma for_each_stops {A B : Type} (f : A -> Outcome (list B)) (pre post : list A)
    (a : A) :
  (forall a', In a' pre -> exists p, f a' = Done p) ->
  f a = TypeError ->
  for_each f (pre ++ a :: post) = TypeError.
Proof.
  intros Hpre Ha. induction pre as [ | a' pre IH]; cbn [for_each app].
  - now rewrite Ha.
  - destruct (Hpre a' (or_introl eq_refl)) as (p & ->).
    rewrite IH; [ reflexivity | ].
    intros a'' Hin. apply Hpre. right. exact Hin.
Qed.

Lemma zone_steps_In (n : nat) :
  forall fuel start x,
    n <= start + fuel ->
    (In x (zone_steps fuel start n)
     <-> x < n /\ exists i, x = start + ZONE_SIZE * i).
Proof.
  induction fuel as [ | fuel IH]; intros start x Hfuel; cbn [zone_steps].
  - split; [ intros [] | intros [Hx (i & ->)]; lia ].
  - destruct (Nat.ltb_spec start n) as [Hlt | Hge].
    + cbn [In]. rewrite (IH (start + ZONE_SIZE) x); [ | unfold ZONE_SIZE; lia ].
      split.
      * intros [<- | [Hx (i & ->)]].
        -- split; [ exact Hlt | exists 0; lia ].
        -- split; [ exact Hx | exists (S i); lia ].
      * intros [Hx (i & ->)]. destruct i as [ | i].
        -- left. lia.
        -- right. split; [ exact Hx | exists i; lia ].
    + split; [ intros [] | intros [Hx (i & ->)]; lia ].
Qed.

Lemma zone_steps_spec (n x : nat) :
  In x (zone_steps n 0 n) <-> x < n /\ x mod ZONE_SIZE = 0.
Proof.
  rewrite (zone_steps_In n n 0 x (le_n _)). split.
  - intros [Hx (i & ->)]. split; [ exact Hx | ].
    cbn [Nat.add]. rewrite Nat.mul_comm. apply Nat.Div0.mod_mul.
  - intros [Hx Hm]. split; [ exact Hx | ].
    exists (x / ZONE_SIZE). cbn [Nat.add].
    pose proof (Nat.div_mod_eq x ZONE_SIZE). lia.
Qed.

Lemma for_each_done_each {A B : Type} (f : A -> Outcome (list B)) (l : list A) :
  forall ops,
    for_each f l = Done ops ->
    forall a, In a l -> exists p, f a = Done p.
Proof.
  induction l as [ | a l IH]; cbn [for_each]; intros ops H a' Hin; [ destruct Hin | ].
  destruct (f a) as [p | | ] eqn:Ha; try discriminate.
  destruct (for_each f l) as [more | | ]; try discriminate.
  destruct Hin as [<- | Hin]; [ eauto | exact (IH more eq_refl a' Hin) ].
Qed.

Lemma draw_cell_done (rows : list JSON) (cellSize y x : nat) (p : list CanvasOp) :
  draw_cell rows cellSize y x = Done p ->
  exists v color,
    row_cell (nth_error rows y) x = Done v
    /\ fill_of v = Done color
    /\ p = [FillRect color (px x cellSize) (px y cellSize)
                     (Z.of_nat cellSize) (Z.of_nat cellSize);
            StrokeRect "#000000" 1 (px x cellSize) (px y cellSize)
                       (Z.of_nat cellSize) (Z.of_nat cellSize)].
Proof.
  unfold draw_cell.
  destruct (row_cell (nth_error rows y) x) as [v | | ]; try discriminate.
  destruct (fill_of v) as [color | | ] eqn:Hc; try discriminate.
  intros H. injection H as <-. exists v, color. auto.
Qed.

Lemma draw_cells_In (rows : list JSON) (width height cellSize : nat)
    (cells : list CanvasOp) (op : CanvasOp) :
  draw_cells rows width height cellSize = Done cells ->
  (In op cells
   <-> exists y x p,
         y < height /\ x < width
         /\ draw_cell rows cellSize y x = Done p /\ In op p).
Proof.
  unfold draw_cells. intros H. rewrite (for_each_In _ _ _ op H). split.
  - intros (y & row & Hy & Hrow & Hop).
    rewrite (for_each_In _ _ _ op Hrow) in Hop.
    destruct Hop as (x & p & Hx & Hp & Hop).
    apply in_seq in Hy. apply in_seq in Hx.
    exists y, x, p. repeat split; auto; lia.
  - intros (y & x & p & Hy & Hx & Hp & Hop).
    assert (Hiny : In y (seq 0 height)) by (apply in_seq; lia).
    destruct (for_each_done_each _ _ _ H y Hiny) as (row & Hrow).
    exists y, row. split; [ exact Hiny | split; [ exact Hrow | ] ].
    rewrite (for_each_In _ _ _ op Hrow).
    exists x, p. split; [ apply in_seq; lia | auto ].
Qed.

Lemma draw_cells_each (rows : list JSON) (width height cellSize : nat)
    (cells : list CanvasOp) (y x : nat) :
  draw_cells rows width height cellSize = Done cells ->
  y < height -> x < width ->
  exists p, draw_cell rows cellSize y x = Done p.
Proof.
  unfold draw_cells. intros H Hy Hx.
  destruct (for_each_done_each _ _ _ H y) as (row & Hrow); [ apply in_seq; lia | ].
  apply (for_each_done_each _ _ _ Hrow x). apply in_seq. lia.
Qed.

Lemma draw_cells_fills (rows : list JSON) (width height cellSize : nat)
    (cells : list CanvasOp) :
  draw_cells rows width height cellSize = Done cells ->
  List.length (filter is_fill cells) = width * height.
Proof.
  unfold draw_cells. intros H.
  rewrite (for_each_count _ is_fill width _ _ H), length_seq; [ reflexivity | ].
  intros y row _ Hrow.
  rewrite (for_each_count _ is_fill 1 _ _ Hrow), length_seq; [ lia | ].
  intros x p _ Hp. destruct (draw_cell_done _ _ _ _ _ Hp) as (v & color & _ & _ & ->).
  reflexivity.
Qed.

Lemma draw_zones_In (width height cellSize : nat) (op : CanvasOp) :
  In op (draw_zones width height cellSize)
  <-> exists y x,
        (y < height /\ y mod ZONE_SIZE = 0)
        /\ (x < width /\ x mod ZONE_SIZE = 0)
        /\ In op (draw_zone width height cellSize y x).
Proof.
  unfold draw_zones. rewrite in_concat. split.
  - intros (l & Hl & Hop). apply in_map_iff in Hl.
    destruct Hl as (y & <- & Hy). apply in_concat in Hop.
    destruct Hop as (l & Hl & Hop). apply in_map_iff in Hl.
    destruct Hl as (x & <- & Hx).
    apply zone_steps_spec in Hy. apply zone_steps_spec in Hx. eauto.
  - intros (y & x & Hy & Hx & Hop).
    apply zone_steps_spec in Hy. apply zone_steps_spec in Hx.
    eexists. split; [ apply in_map_iff; exists y; split; [ reflexivity | exact Hy ] | ].
    apply in_concat. eexists.
    split; [ apply in_map_iff; exists x; split; [ reflexivity | exact Hx ] | exact Hop ].
Qed.

Lemma draw_zones_no_fill (width height cellSize : nat) :
  filter is_fill (draw_zones width height cellSize) = [].
Proof.
  unfold draw_zones.
  assert (Hrow : forall y xs,
             filter is_fill
               (List.concat (map (draw_zone width height cellSize y) xs)) = []).
  { intros y xs. induction xs as [ | x xs IHx]; [ reflexivity | ].
    cbn [map List.concat]. rewrite filter_app, IHx. reflexivity. }
  induction (zone_steps height 0 height) as [ | y ys IHy]; [ reflexivity | ].
  cbn [map List.concat]. rewrite filter_app, IHy, Hrow. reflexivity.
Qed.

Lemma gridCanvas_done (first : list JSON) (rest : list JSON) (cellSize : nat)
    (cv : Canvas) :
  gridCanvas (JArr (JArr first :: rest)) cellSize = Done cv ->
  exists cells,
    draw_cells (JArr first :: rest) (List.length first)
               (List.length (JArr first :: rest)) cellSize = Done cells
    /\ cv = mkCanvas (px (List.length first) cellSize)
                     (px (List.length (JArr first :: rest)) cellSize)
                     (cells ++ draw_zones (List.length first)
                                 (List.length (JArr first :: rest)) cellSize)%list.
Proof.
  unfold gridCanvas. cbv zeta.
  destruct (draw_cells _ _ _ _) as [cells | | ]; try discriminate.
  intros H. injection H as <-. eauto.
Qed.

Lemma cell_color_throws (v : JSON) :
  cell_color v = TypeError <-> key_text v = Unprintable.
Proof.
  unfold cell_color, table_entry.
  destruct (key_text v) as [k | | ].
  - destruct (lookup_name k keyColors); [ | destruct (inherited k) ];
      split; discriminate.
  - split; discriminate.
  - split; reflexivity.
Qed.

Lemma plain_cell_draws (rows : list JSON) (cellSize y x : nat)
    (vs : list JSON) :
  nth_error rows y = Some (JArr vs) ->
  (forall v, nth_error vs x = Some v -> plain_cell v) ->
  exists p, draw_cell rows cellSize y x = Done p.
Proof.
  intros Hy Hv. unfold draw_cell. rewrite Hy. cbn [row_cell].
  destruct (nth_error vs x) as [v | ]; cbn [fill_of]; [ | eauto ].
  destruct (Hv v eq_refl) as (c & ->). eauto.
Qed.

Lemma plain_row_draws (rows : list JSON) (cellSize width y : nat) (r : JSON) :
  nth_error rows y = Some r ->
  plain_row r ->
  exists ops, for_each (draw_cell rows cellSize y) (seq 0 width) = Done ops.
Proof.
  intros Hy (vs & -> & Hvs). apply for_each_total. intros x _.
  apply (plain_cell_draws rows cellSize y x vs Hy).
  intros v Hv. rewrite Forall_forall in Hvs.
  exact (Hvs v (nth_error_In _ _ Hv)).
Qed.

(** The first cell that throws, in the order of the two loops, decides. *)
Lemma draw_cells_stops (rows : list JSON) (width height cellSize y x : nat) :
  y < height -> x < width ->
  (forall y', y' < y ->
              exists ops, for_each (draw_cell rows cellSize y') (seq 0 width)
                          = Done ops) ->
  (forall x', x' < x -> exists p, draw_cell rows cellSize y x' = Done p) ->
  draw_cell rows cellSize y x = TypeError ->
  draw_cells rows width height cellSize = TypeError.
Proof.
  intros Hy Hx Hrows Hcells Hcell. unfold draw_cells.
  replace height with (y + S (height - S y)) by lia.
  rewrite seq_app. cbn [seq Nat.add].
  apply for_each_stops.
  - intros y' Hy'. apply in_seq in Hy'. apply Hrows. lia.
  - replace width with (x + S (width - S x)) by lia.
    rewrite seq_app. cbn [seq Nat.add].
    apply for_each_stops; [ | exact Hcell ].
    intros x' Hx'. apply in_seq in Hx'. apply Hcells. lia.
Qed.

(** X18. Drawing a grid throws only where it reads a cell of a [null] row
    or looks up the colour of a cell that cannot be converted to a property
    key: the grid then is an array whose first row is a non-empty array,
    and one of its later rows is [null] or one of the cells read cannot be
    converted.  Such a grid does throw when the rows before the failing one
    are plain rows, and, for a cell, when the cells before it in its row are
    plain.  A grid that is no array, is empty or whose first entry is no
    array gives the blank 200 x 200 canvas, and an array of plain rows is
    always drawn. *)
Theorem picture_fails_at_null_row_or_unprintable_cell :
  forall (grid : JSON) (cellSize : nat),
    (gridCanvas grid cellSize = TypeError ->
     exists first rest,
       grid = JArr (JArr first :: rest) /\ first <> []
       /\ (In JNull rest
           \/ exists y x v,
                y < List.length (JArr first :: rest) /\ x < List.length first
                /\ row_cell (nth_error (JArr first :: rest) y) x = Done (Some v)
                /\ key_text v = Unprintable))
    /\ (forall first pre post,
          grid = JArr (JArr first :: pre ++ JNull :: post) ->
          first <> [] ->
          Forall plain_row (JArr first :: pre) ->
          gridCanvas grid cellSize = TypeError)
    /\ (forall first rest pre before v after post,
          grid = JArr (JArr first :: rest) ->
          (JArr first :: rest = pre ++ JArr (before ++ v :: after) :: post)%list ->
          List.length before < List.length first ->
          Forall plain_row pre ->
          Forall plain_cell before ->
          key_text v = Unprintable ->
          gridCanvas grid cellSize = TypeError)
    /\ (forall rows,
          grid = JArr rows -> Forall plain_row rows ->
          exists cv, gridCanvas grid cellSize = Done cv)
    /\ ((forall first rest, grid <> JArr (JArr first :: rest)) ->
        gridCanvas grid cellSize = Done blank_canvas).
Proof.
  intros grid cellSize. split; [ | split; [ | split; [ | split ] ] ].
  - destruct grid as [ | | | | [ | [ | | | | first | ] rest] | ]; try discriminate.
    unfold gridCanvas. cbv zeta.
    destruct (draw_cells _ _ _ _) as [cells | | ] eqn:Hc; try discriminate.
    intros _. unfold draw_cells in Hc.
    destruct (for_each_TypeError _ _ Hc) as (y & Hy & Hrow).
    destruct (for_each_TypeError _ _ Hrow) as (x & Hx & Hcell).
    apply in_seq in Hy. apply in_seq in Hx.
    exists first, rest. split; [ reflexivity | split ].
    + intros ->. cbn in Hx. lia.
    + unfold draw_cell in Hcell.
      destruct (row_cell (nth_error (JArr first :: rest) y) x) as [v | | ] eqn:Hv;
        [ | | discriminate ].
      * right. destruct v as [v | ]; [ | discriminate ].
        cbn [fill_of] in Hcell.
        destruct (cell_color v) eqn:Hcol; try discriminate.
        exists y, x, v. split; [ lia | split; [ lia | split; [ exact Hv | ] ] ].
        now apply cell_color_throws.
      * left.
        destruct (nth_error (JArr first :: rest) y) as [r | ] eqn:Hr;
          [ | apply nth_error_None in Hr; lia ].
        assert (r = JNull) as -> by (destruct r; try discriminate; reflexivity).
        apply nth_error_In in Hr.
        destruct Hr as [Hr | Hr]; [ discriminate | exact Hr ].
  - intros first pre post -> Hne Hplain.
    unfold gridCanvas. cbv zeta.
    set (rows := JArr first :: (pre ++ JNull :: post)%list).
    rewrite (draw_cells_stops rows (List.length first) (List.length rows) cellSize
               (S (List.length pre)) 0); [ reflexivity | | | | | ].
    + subst rows. cbn [List.length]. rewrite length_app. cbn [List.length]. lia.
    + destruct first; [ congruence | cbn [List.length]; lia ].
    + intros y Hy.
      assert (Hr : nth_error rows y = nth_error (JArr first :: pre) y).
      { subst rows. change (JArr first :: (pre ++ JNull :: post)%list)
          with ((JArr first :: pre) ++ JNull :: post)%list.
        apply nth_error_app1. cbn [List.length]. lia. }
      destruct (nth_error (JArr first :: pre) y) as [r | ] eqn:Hr';
        [ | apply nth_error_None in Hr'; cbn [List.length] in Hr'; lia ].
      apply (plain_row_draws rows cellSize _ y r Hr).
      rewrite Forall_forall in Hplain. apply Hplain.
      exact (nth_error_In _ _ Hr').
    + intros x' Hx'. lia.
    + unfold draw_cell.
      assert (Hr : nth_error rows (S (List.length pre)) = Some JNull).
      { subst rows. cbn [nth_error].
        rewrite nth_error_app2, Nat.sub_diag; [ reflexivity | lia ]. }
      rewrite Hr. reflexivity.
  - intros first rest pre before v after post -> Hrows Hlen Hpre Hbefore Hv.
    unfold gridCanvas. cbv zeta.
    assert (Hr : nth_error (JArr first :: rest) (List.length pre)
                 = Some (JArr (before ++ v :: after)%list)).
    { rewrite Hrows, nth_error_app2, Nat.sub_diag; [ reflexivity | lia ]. }
    rewrite (draw_cells_stops (JArr first :: rest) (List.length first)
               (List.length (JArr first :: rest)) cellSize
               (List.length pre) (List.length before)); [ reflexivity | | | | | ].
    + rewrite Hrows, length_app. cbn [List.length]. lia.
    + exact Hlen.
    + intros y Hy.
      assert (Hr' : nth_error (JArr first :: rest) y = nth_error pre y)
        by (rewrite Hrows; now apply nth_error_app1).
      destruct (nth_error pre y) as [r | ] eqn:Hpy;
        [ | apply nth_error_None in Hpy; lia ].
      apply (plain_row_draws _ cellSize _ y r Hr').
      rewrite Forall_forall in Hpre. apply Hpre.
      exact (nth_error_In _ _ Hpy).
    + intros x' Hx'.
      apply (plain_cell_draws _ cellSize _ x' _ Hr).
      intros c Hc. rewrite nth_error_app1 in Hc by exact Hx'.
      rewrite Forall_forall in Hbefore. apply Hbefore.
      exact (nth_error_In _ _ Hc).
    + unfold draw_cell. rewrite Hr. cbn [row_cell].
      rewrite nth_error_app2, Nat.sub_diag by lia. cbn [nth_error fill_of].
      apply cell_color_throws in Hv. rewrite Hv. reflexivity.
  - intros rows -> Hplain.
    destruct rows as [ | r rest]; [ eexists; reflexivity | ].
    pose proof (Forall_inv Hplain) as (first & -> & _).
    unfold gridCanvas. cbv zeta. unfold draw_cells.
    destruct (for_each_total
                (fun y => for_each (draw_cell (JArr first :: rest) cellSize y)
                                   (seq 0 (List.length first)))
                (seq 0 (List.length (JArr first :: rest)))) as (cells & ->);
      [ | eauto ].
    intros y Hy. apply in_seq in Hy.
    destruct (nth_error (JArr first :: rest) y) as [r | ] eqn:Hr;
      [ | apply nth_error_None in Hr; lia ].
    apply (plain_row_draws _ cellSize _ y r Hr).
    rewrite Forall_forall in Hplain. apply Hplain.
    exact (nth_error_In _ _ Hr).
  - intros Hshape.
    destruct grid as [ | | | | [ | [ | | | | first | ] rest] | ]; try reflexivity.
    exfalso. exact (Hshape first rest eq_refl).
Qed.

(** X19. A drawn grid has one filled square per position of the rectangle
    spanned by its first row and its number of rows, and no other: the
    canvas is that many cells wide and high, the square of column [x] and
    row [y] sits at [(x * cellSize, y * cellSize)], and its colour is that
    of the value the row holds there, the fallback grey where the row is
    shorter than the first one.  Values beyond the width of the first row
    are never drawn. *)
Theorem picture_has_one_square_per_cell :
  forall (first rest : list JSON) (cellSize : nat) (cv : Canvas),
    gridCanvas (JArr (JArr first :: rest)) cellSize = Done cv ->
    let rows := JArr first :: rest in
    let width := List.length first in
    let height := List.length rows in
    cv_width cv = px width cellSize
    /\ cv_height cv = px height cellSize
    /\ List.length (filter is_fill (cv_ops cv)) = width * height
    /\ (forall x y,
          x < width -> y < height ->
          exists v color,
            row_cell (nth_error rows y) x = Done v
            /\ fill_of v = Done color
            /\ (v = None -> color = fallback_color)
            /\ In (FillRect color (px x cellSize) (px y cellSize)
                            (Z.of_nat cellSize) (Z.of_nat cellSize))
                  (cv_ops cv))
    /\ (forall color X Y W H,
          In (FillRect color X Y W H) (cv_ops cv) ->
          exists x y,
            x < width /\ y < height
            /\ X = px x cellSize /\ Y = px y cellSize
            /\ W = Z.of_nat cellSize /\ H = Z.of_nat cellSize).
Proof.
  intros first rest cellSize cv Hcv rows width height.
  destruct (gridCanvas_done first rest cellSize cv Hcv) as (cells & Hcells & ->).
  fold rows width height in Hcells |- *. cbn [cv_width cv_height cv_ops].
  split; [ reflexivity | split; [ reflexivity | split; [ | split ] ] ].
  - rewrite filter_app, length_app, draw_zones_no_fill.
    rewrite (draw_cells_fills _ _ _ _ _ Hcells). cbn [List.length]. lia.
  - intros x y Hx Hy.
    destruct (draw_cells_each _ _ _ _ _ y x Hcells Hy Hx) as (p & Hp).
    destruct (draw_cell_done _ _ _ _ _ Hp) as (v & color & Hv & Hc & ->).
    exists v, color. split; [ exact Hv | split; [ exact Hc | split ] ].
    + intros ->. cbn in Hc. now injection Hc.
    + apply in_or_app. left. apply (draw_cells_In _ _ _ _ _ _ Hcells).
      exists y, x. eexists. split; [ exact Hy | split; [ exact Hx | ] ].
      split; [ exact Hp | left; reflexivity ].
  - intros color X Y W H Hin. apply in_app_or in Hin. destruct Hin as [Hin | Hin].
    + apply (draw_cells_In _ _ _ _ _ _ Hcells) in Hin.
      destruct Hin as (y & x & p & Hy & Hx & Hp & Hin).
      destruct (draw_cell_done _ _ _ _ _ Hp) as (v & c & _ & _ & ->).
      destruct Hin as [Hin | [Hin | []]]; [ | discriminate Hin ].
      injection Hin as _ <- <- <- <-. exists x, y.
      repeat split; assumption.
    + apply draw_zones_In in Hin. destruct Hin as (y & x & _ & _ & Hin).
      destruct Hin as [Hin | [Hin | []]]; discriminate Hin.
Qed.

(** X20. The zones of a drawn grid tile it: every position lies in the
    zone whose corner is the position rounded down to multiples of 16, that
    zone is outlined and labelled with its corner, and every outlined zone
    starts at a multiple of 16 in both directions, is at most 16 cells wide
    and high, and ends inside the canvas. *)
Theorem zones_cover_every_cell :
  forall (first rest : list JSON) (cellSize : nat) (cv : Canvas),
    gridCanvas (JArr (JArr first :: rest)) cellSize = Done cv ->
    let width := List.length first in
    let height := List.length (JArr first :: rest) in
    (forall x y,
       x < width -> y < height ->
       let zx := ZONE_SIZE * (x / ZONE_SIZE) in
       let zy := ZONE_SIZE * (y / ZONE_SIZE) in
       zx <= x < zx + Nat.min ZONE_SIZE (width - zx)
       /\ zy <= y < zy + Nat.min ZONE_SIZE (height - zy)
       /\ In (StrokeRect "#FFD700" 2 (px zx cellSize) (px zy cellSize)
                         (px (Nat.min ZONE_SIZE (width - zx)) cellSize)
                         (px (Nat.min ZONE_SIZE (height - zy)) cellSize))
             (cv_ops cv)
       /\ In (FillText "#FFFFFF" (zx, zy)
                       (px zx cellSize + 2)%Z
                       (px zy cellSize + Z.min 14 (Z.of_nat cellSize - 2))%Z)
             (cv_ops cv))
    /\ (forall lineWidth X Y W H,
          In (StrokeRect "#FFD700" lineWidth X Y W H) (cv_ops cv) ->
          exists zx zy zw zh,
            zx mod ZONE_SIZE = 0 /\ zy mod ZONE_SIZE = 0
            /\ 1 <= zw <= ZONE_SIZE /\ 1 <= zh <= ZONE_SIZE
            /\ zx + zw <= width /\ zy + zh <= height
            /\ X = px zx cellSize /\ Y = px zy cellSize
            /\ W = px zw cellSize /\ H = px zh cellSize
            /\ (X + W <= cv_width cv)%Z /\ (Y + H <= cv_height cv)%Z).
Proof.
  intros first rest cellSize cv Hcv width height.
  destruct (gridCanvas_done first rest cellSize cv Hcv) as (cells & Hcells & ->).
  fold width height in Hcells |- *. cbn [cv_width cv_height cv_ops].
  split.
  - intros x y Hx Hy. cbv zeta.
    set (zx := ZONE_SIZE * (x / ZONE_SIZE)).
    set (zy := ZONE_SIZE * (y / ZONE_SIZE)).
    assert (Hzx : zx <= x < zx + ZONE_SIZE /\ zx mod ZONE_SIZE = 0).
    { subst zx. pose proof (Nat.div_mod_eq x ZONE_SIZE) as Hd.
      pose proof (Nat.mod_upper_bound x ZONE_SIZE ltac:(discriminate)) as Hm.
      split; [ lia | ]. rewrite Nat.mul_comm. apply Nat.Div0.mod_mul. }
    assert (Hzy : zy <= y < zy + ZONE_SIZE /\ zy mod ZONE_SIZE = 0).
    { subst zy. pose proof (Nat.div_mod_eq y ZONE_SIZE) as Hd.
      pose proof (Nat.mod_upper_bound y ZONE_SIZE ltac:(discriminate)) as Hm.
      split; [ lia | ]. rewrite Nat.mul_comm. apply Nat.Div0.mod_mul. }
    clearbody zx zy.
    split; [ lia | split; [ lia | ] ].
    split; apply in_or_app; right; apply draw_zones_In; exists zy, zx;
      (split; [ split; [ lia | tauto ] | split; [ split; [ lia | tauto ] | ] ]).
    + left. reflexivity.
    + right. left. reflexivity.
  - intros lineWidth X Y W H Hin. apply in_app_or in Hin. destruct Hin as [Hin | Hin].
    + apply (draw_cells_In _ _ _ _ _ _ Hcells) in Hin.
      destruct Hin as (y & x & p & Hy & Hx & Hp & Hin).
      destruct (draw_cell_done _ _ _ _ _ Hp) as (v & c & _ & _ & ->).
      destruct Hin as [Hin | [Hin | []]]; discriminate Hin.
    + apply draw_zones_In in Hin.
      destruct Hin as (zy & zx & [Hy Hmy] & [Hx Hmx] & Hin).
      unfold draw_zone in Hin.
      set (zw := Nat.min ZONE_SIZE (width - zx)) in Hin.
      set (zh := Nat.min ZONE_SIZE (height - zy)) in Hin.
      assert (Hzw : 1 <= zw <= ZONE_SIZE /\ zx + zw <= width)
        by (subst zw; unfold ZONE_SIZE; lia).
      assert (Hzh : 1 <= zh <= ZONE_SIZE /\ zy + zh <= height)
        by (subst zh; unfold ZONE_SIZE; lia).
      clearbody zw zh.
      destruct Hin as [Hin | [Hin | []]]; [ | discriminate Hin ].
      injection Hin as _ <- <- <- <-.
      exists zx, zy, zw, zh. unfold px.
      split; [ exact Hmx | split; [ exact Hmy | ] ].
      split; [ tauto | split; [ tauto | ] ].
      split; [ tauto | split; [ tauto | ] ].
      repeat (split; [ reflexivity | ]).
      split; rewrite <- Z.mul_add_distr_r, <- Nat2Z.inj_add;
        apply Z.mul_le_mono_nonneg_r; lia.
Qed.

(** ** The action reference covers the allowed names *)

Lemma inherited_In (k : string) : inherited k = true -> In k inherited_members.
Proof.
  unfold inherited, includes. rewrite existsb_exists.
  intros (m & Hm & He). apply String.eqb_eq in He. now subst.
Qed.

Lemma doc_line_offered (n : Name) :
  offered_name n ->
  match n with
  | Named s => exists d, lookup_name s docs = Some d
                         /\ nonempty d = true
                         /\ doc_line n = "- " ++ s ++ ": " ++ d
  | Member k => doc_line n = "- " ++ member_text k ++ ": "
  end.
Proof.
  destruct n as [s | k]; cbn [offered_name].
  - intros Hs. cbn in Hs.
    repeat (destruct Hs as [<- | Hs];
            [ eexists; split; [ reflexivity | split; reflexivity ] | ]).
    destruct Hs.
  - intros Hk. apply inherited_In in Hk. cbn in Hk.
    repeat (destruct Hk as [<- | Hk]; [ reflexivity | ]).
    destruct Hk.
Qed.

Lemma allowedNamesOf_offered (latestFrame : option JSON) (names : list Name) :
  allowedNamesOf latestFrame = Some names -> Forall offered_name names.
Proof.
  intros Hnames.
  destruct (allowedNamesOf_cases latestFrame)
    as [(id & ids & _ & Ha) | [_ Ha]]; rewrite Hnames in Ha.
  - destruct (map_filter_names (id :: ids)) as [l | ] eqn:E; [ | discriminate ].
    cbn [option_map] in Ha. injection Ha as ->.
    apply Forall_app. split; [ now apply (map_filter_names_offered (id :: ids)) | ].
    constructor; [ simpl; tauto | constructor ].
  - injection Ha as ->. unfold default_names.
    repeat constructor; simpl; tauto.
Qed.

(** X21. When the names of a turn are produced, the action reference of
    the prompt has one line per entry, in the order of the entries: every
    action name offered to the model has its line with a description that is
    not empty, and an inherited member that came in through an id has a line
    that shows it as it prints, with no description. *)
Theorem every_allowed_action_is_documented :
  forall (latestFrame : option JSON) (names : list Name),
    allowedNamesOf latestFrame = Some names ->
    actionDocs names = join newline (map doc_line names)
    /\ List.length (map doc_line names) = List.length names
    /\ Forall (fun n =>
                 match n with
                 | Named s => exists d, lookup_name s docs = Some d
                                        /\ nonempty d = true
                                        /\ doc_line n = "- " ++ s ++ ": " ++ d
                 | Member k => doc_line n = "- " ++ member_text k ++ ": "
                 end) names.
Proof.
  intros latestFrame names Hnames.
  split; [ reflexivity | split; [ apply length_map | ] ].
  eapply Forall_impl; [ | exact (allowedNamesOf_offered latestFrame names Hnames) ].
  exact doc_line_offered.
Qed.

(** ** The runner

    [main] and [closeScorecardIfOpen], for runs in which no signal arrives:
    the handlers [registerShutdownHandlers] installs then only matter for the
    rejection of [main] itself, which reaches the [unhandledRejection]
    handler.  The three further calls of the backend and [String] applied to
    a value that is not a string are parameters.  Of the console only the
    error lines are recorded; the calls and the sessions are recorded in
    full. *)
Section Runner.

Set Default Proof Using "Type".

Context {World : Type}.
Variable arc_post : string -> Payload -> World -> World * option JSON.
Variable responses_create : CreatePayload -> World -> World * option Response.
Variable JSON_parse : string -> option JSON.
Variable gridToPngBase64 : JSON -> option string.
Variable fs_writeFileSync : list InputItem -> World -> World * bool.
Variable slice200 : string -> string.
Variable scorecard_open : list string -> World -> World * option JSON.
Variable scorecard_close : string -> World -> World * option JSON.
Variable list_games : World -> World * option JSON.
Variable String_other : option JSON -> string.

(** [String(v)] *)
Definition String_ (v : option JSON) : string :=
  match v with
  | Some (JStr t) => t
  | _ => String_other v
  end.

Record MainState : Type := mkMain {
  m_world : World;
  m_runtime : Runtime;
  m_trace : list MainEvent
}.

Inductive MainResult : Type :=
| Finished (e : Exit) (st : MainState)
| NotFollowed (st : MainState).

Definition say (e : MainEvent) (st : MainState) : MainState :=
  mkMain (m_world st) (m_runtime st) (m_trace st ++ [e]).

(** [closeScorecardIfOpen(reason)]: it never throws. *)
Definition closeScorecardIfOpen (st : MainState) : MainState :=
  if rt_shuttingDown (m_runtime st) then st
  else
    let rt := mkRuntime (rt_cardId (m_runtime st)) true in
    match truthy_string (rt_cardId (m_runtime st)) with
    | Some card =>
        match scorecard_close card (m_world st) with
        | (w', Some _) => mkMain w' rt (m_trace st ++ [CloseCard card])
        | (w', None) => mkMain w' rt (m_trace st ++ [CloseCard card; ErrorLine])
        end
    | None => mkMain (m_world st) rt (m_trace st)
    end.

(** The block [if (!Runtime.shuttingDown) { await close; Runtime.shuttingDown
    = true; ... }] of [main]; [false] is a rejected close. *)
Definition closeFromMain (cardId : string) (st : MainState) : bool * MainState :=
  if rt_shuttingDown (m_runtime st) then (true, st)
  else
    match scorecard_close cardId (m_world st) with
    | (w', Some _) =>
        (true, mkMain w' (mkRuntime (rt_cardId (m_runtime st)) true)
                      (m_trace st ++ [CloseCard cardId]))
    | (w', None) =>
        (false, mkMain w' (m_runtime st) (m_trace st ++ [CloseCard cardId]))
    end.

(** How the sessions of [main] end. *)
Inductive Sessions : Type :=
| AllReturned (st : MainState)
| SessionThrew (st : MainState)
| SessionNotFollowed (st : MainState).

(** [for (const gameId of games) { ...; await agent.loop(); }]: a new agent
    per game.  A game id that is not a string is not followed. *)
Fixpoint playGames (games : list (option JSON)) (cardId model_ effort : string)
    (st : MainState) : Sessions :=
  match games with
  | [] => AllReturned st
  | Some (JStr gameId) :: rest =>
      match loop arc_post responses_create JSON_parse gridToPngBase64
                 fs_writeFileSync slice200 MAX_ACTIONS
                 (start (newAgent gameId cardId model_ effort) (m_world st)) with
      | Ok _ s =>
          playGames rest cardId model_ effort
            (mkMain (world s) (m_runtime st) (m_trace st ++ [PlayGame gameId (trace s)]))
      | Throw s =>
          SessionThrew
            (mkMain (world s) (m_runtime st) (m_trace st ++ [PlayGame gameId (trace s)]))
      | OutOfFuel => SessionNotFollowed st
      end
  | _ :: _ => SessionNotFollowed st
  end.

(** The body of the [try] of [main]; [Some true] is its normal end, [Some
    false] a throw. *)
Definition main_try (filter_ cardId model_ effort : string) (st : MainState)
    : option bool * MainState :=
  let st1 := say ListGames st in
  match list_games (m_world st1) with
  | (w2, None) => (Some false, mkMain w2 (m_runtime st1) (m_trace st1))
  | (w2, Some gamesList) =>
      let st2 := mkMain w2 (m_runtime st1) (m_trace st1) in
      match game_ids gamesList with
      | None => (Some false, st2)
      | Some all =>
          match select_games filter_ all with
          | None => (Some false, st2)
          | Some [] => (Some false, st2)
          | Some games =>
              match playGames games cardId model_ effort st2 with
              | AllReturned st3 =>
                  let (ok, st4) := closeFromMain cardId st3 in (Some ok, st4)
              | SessionThrew st3 => (Some false, st3)
              | SessionNotFollowed st3 => (None, st3)
              end
          end
      end
  end.

(** The [catch] of [main]: the error line, one more attempt to close whose
    own failure is swallowed, then [process.exit(1)]. *)
Definition main_catch (cardId : string) (st : MainState) : MainState :=
  snd (closeFromMain cardId (say ErrorLine st)).

(** The [unhandledRejection] handler: the error line, [closeScorecardIfOpen],
    then [process.exit(0)]. *)
Definition unhandled (st : MainState) : MainResult :=
  Finished (ExitCode 0) (closeScorecardIfOpen (say ErrorLine st)).

Definition main (env : Env) (w : World) : MainResult :=
  let st0 := mkMain w (mkRuntime None false) [] in
  if negb (nonempty (ARC_API_KEY env)) then Finished (ExitCode 1) (say ErrorLine st0)
  else if negb (nonempty (OPENAI_API_KEY env)) then Finished (ExitCode 1) (say ErrorLine st0)
  else
    let st1 := say (OpenCard (scorecard_tags env)) st0 in
    match scorecard_open (scorecard_tags env) w with
    | (w1, None) => unhandled (mkMain w1 (m_runtime st1) (m_trace st1))
    | (w1, Some JNull) => unhandled (mkMain w1 (m_runtime st1) (m_trace st1))
    | (w1, Some openRes) =>
        let cardId := String_ (prop "card_id" openRes) in
        let st2 := mkMain w1 (mkRuntime (Some cardId) false) (m_trace st1) in
        match main_try (GAME_FILTER env) cardId (SELECTED_MODEL env)
                       (SELECTED_EFFORT env) st2 with
        | (Some true, st3) => Finished Returned st3
        | (Some false, st3) => Finished (ExitCode 1) (main_catch cardId st3)
        | (None, st3) => NotFollowed st3
        end
    end.


Definition is_play (e : MainEvent) : bool :=
  match e with PlayGame _ _ => true | _ => false end.

Definition within_budget (e : MainEvent) : Prop :=
  match e with
  | PlayGame _ events => count_decisions events <= MAX_ACTIONS
  | _ => True
  end.

(** A session opens with a RESET submission that names its game and the
    scorecard, without a session token. *)
Definition opens_for (card : string) (e : MainEvent) : Prop :=
  match e with
  | PlayGame g events =>
      exists p rest,
        calls_of events = Submit (command_url "RESET") p :: rest
        /\ p_game_id p = g
        /\ p_guid p = None
        /\ p_card_id p = (if nonempty card then Some card else None)
  | _ => True
  end.

Definition good_session (card : string) (e : MainEvent) : Prop :=
  within_budget e /\ opens_for card e.

(** The sessions of a run: what [playGames] adds to the trace. *)
Definition sessions_of (card : string) (games : list (option JSON))
    (st st' : MainState) (complete : bool) : Prop :=
  m_runtime st' = m_runtime st
  /\ exists new,
       m_trace st' = (m_trace st ++ new)%list
       /\ forallb is_play new = true
       /\ Forall (good_session card) new
       /\ exists k,
            map (fun g => Some (JStr g)) (played new) = firstn k games
            /\ (complete = true -> firstn k games = games).

(** What the [try] of [main] adds to the trace: the listing, the sessions
    [mid] and, once every session has returned, the closing; [ok] is false
    when it throws. *)
Definition try_shape (filter_ cardId : string) (ok : bool) (new : list MainEvent)
    : Prop :=
  exists mid,
    forallb is_play mid = true
    /\ Forall (good_session cardId) mid
    /\ (nonempty filter_ = true ->
        Forall (fun g => starts_with filter_ g = true) (played mid))
    /\ (if ok
        then mid <> [] /\ new = (ListGames :: mid ++ [CloseCard cardId])%list
        else new = ListGames :: mid
             \/ (mid <> [] /\ new = (ListGames :: mid ++ [CloseCard cardId])%list)).

(** Both keys are set. *)
Definition keys_present (env : Env) : bool :=
  nonempty (ARC_API_KEY env) && nonempty (OPENAI_API_KEY env).

(** *** Facts about the runner *)

Local Abbreviation loop_ :=
  (loop arc_post responses_create JSON_parse gridToPngBase64
        fs_writeFileSync slice200).

Lemma count_closes_app (tr1 tr2 : list MainEvent) :
  count_closes (tr1 ++ tr2) = count_closes tr1 + count_closes tr2.
Proof. unfold count_closes. now rewrite filter_app, length_app. Qed.

Lemma played_app (tr1 tr2 : list MainEvent) :
  played (tr1 ++ tr2) = (played tr1 ++ played tr2)%list.
Proof.
  induction tr1 as [ | e tr1 IH]; cbn; [ reflexivity | ].
  destruct e; cbn; now rewrite IH.
Qed.

Lemma total_decisions_app (tr1 tr2 : list MainEvent) :
  total_decisions (tr1 ++ tr2) = total_decisions tr1 + total_decisions tr2.
Proof.
  induction tr1 as [ | e tr1 IH]; cbn; [ reflexivity | ].
  destruct e; cbn; rewrite IH; lia.
Qed.

Lemma total_decisions_bound (tr : list MainEvent) :
  Forall within_budget tr ->
  total_decisions tr <= MAX_ACTIONS * List.length (played tr).
Proof.
  induction 1 as [ | e tr He _ IH]; [ cbn; lia | ].
  destruct e; cbn [total_decisions played List.length]; try exact IH.
  rewrite Nat.mul_succ_r. cbn [within_budget] in He. lia.
Qed.

Lemma session_good (cardId model_ effort id : string) (w : World) :
  match loop_ MAX_ACTIONS (start (newAgent id cardId model_ effort) w) with
  | Ok _ s | Throw s => good_session cardId (PlayGame id (trace s))
  | OutOfFuel => False
  end.
Proof.
  clear scorecard_open scorecard_close list_games String_other.
  generalize (session_bounded arc_post responses_create JSON_parse gridToPngBase64
                fs_writeFileSync slice200
                MAX_ACTIONS (newAgent id cardId model_ effort) w
                eq_refl (le_n _)).
  generalize (session_opens arc_post responses_create JSON_parse gridToPngBase64
                fs_writeFileSync slice200
                MAX_ACTIONS (newAgent id cardId model_ effort) w).
  destruct (loop_ MAX_ACTIONS _) as [[] s | s | ]; [ | | tauto ];
    intros (rest & Hc) Hb; (split; [ exact Hb | ]);
    eexists; exists rest; (split; [ exact Hc | ]);
    repeat split.
Qed.

Lemma playGames_sessions (cardId model_ effort : string) (games : list (option JSON)) :
  forall st : MainState,
    match playGames games cardId model_ effort st with
    | AllReturned st' => sessions_of cardId games st st' true
    | SessionThrew st' => sessions_of cardId games st st' false
    | SessionNotFollowed _ =>
        exists g, In g games /\ is_string g = None
    end.
Proof.
  clear scorecard_open scorecard_close list_games String_other.
  induction games as [ | g games IH]; intros st; cbn [playGames].
  - split; [ reflexivity | ]. exists []. rewrite app_nil_r.
    repeat split; auto. exists 0. auto.
  - destruct g as [[ | | | id | | ] | ];
      try (eexists; split; [ left; reflexivity | reflexivity ]).
    generalize (session_good cardId model_ effort id (m_world st)).
    destruct (loop_ MAX_ACTIONS _) as [[] s | s | ]; [ | | tauto ].
    + intros Hb.
      specialize (IH (mkMain (world s) (m_runtime st)
                             (m_trace st ++ [PlayGame id (trace s)]))).
      destruct (playGames games cardId model_ effort _) as [st' | st' | st'].
      * destruct IH as (Hrt & new & Htr & Hplay & Hbud & k & Hk & Hall).
        split; [ exact Hrt | ].
        exists (PlayGame id (trace s) :: new).
        cbn [m_trace] in Htr. rewrite Htr, <- app_assoc.
        split; [ reflexivity | split; [ exact Hplay | split ] ].
        -- constructor; assumption.
        -- exists (S k). cbn. rewrite Hk. split; [ reflexivity | ].
           intros Ht. now rewrite (Hall Ht).
      * destruct IH as (Hrt & new & Htr & Hplay & Hbud & k & Hk & Hall).
        split; [ exact Hrt | ].
        exists (PlayGame id (trace s) :: new).
        cbn [m_trace] in Htr. rewrite Htr, <- app_assoc.
        split; [ reflexivity | split; [ exact Hplay | split ] ].
        -- constructor; assumption.
        -- exists (S k). cbn. rewrite Hk. split; [ reflexivity | discriminate ].
      * destruct IH as (g & Hg & Hs). exists g. split; [ right; exact Hg | exact Hs ].
    + intros Hb. split; [ reflexivity | ].
      exists [PlayGame id (trace s)]. cbn [m_trace].
      split; [ reflexivity | split; [ reflexivity | split ] ].
      * constructor; [ exact Hb | constructor ].
      * exists 1. cbn. split; [ reflexivity | discriminate ].
Qed.

Lemma plays_do_not_close (new : list MainEvent) :
  forallb is_play new = true -> count_closes new = 0.
Proof.
  induction new as [ | e new IH]; [ reflexivity | ].
  cbn [forallb]. intros H. apply andb_prop in H. destruct H as [He Hn].
  destruct e; try discriminate. exact (IH Hn).
Qed.

Lemma select_games_filtered (filter_ : string) (all games : list (option JSON)) :
  nonempty filter_ = true ->
  select_games filter_ all = Some games ->
  Forall (fun g => exists id, g = Some (JStr id) /\ starts_with filter_ id = true)
         games.
Proof.
  intros Hf. unfold select_games. rewrite Hf.
  destruct (forallb _ all); [ | discriminate ].
  intros H. injection H as <-.
  apply Forall_forall. intros g Hg. apply filter_In in Hg.
  destruct Hg as [_ Hg].
  destruct g as [[ | | | id | | ] | ]; try discriminate. eauto.
Qed.

(** What the body of the [try] leaves, from a state that is not shutting
    down. *)
Lemma main_try_spec (filter_ cardId model_ effort : string) (st : MainState) :
  rt_shuttingDown (m_runtime st) = false ->
  let r := main_try filter_ cardId model_ effort st in
  match fst r with
  | None => nonempty filter_ = false
  | Some ok =>
      rt_cardId (m_runtime (snd r)) = rt_cardId (m_runtime st)
      /\ rt_shuttingDown (m_runtime (snd r)) = ok
      /\ exists new,
           m_trace (snd r) = (m_trace st ++ new)%list
           /\ try_shape filter_ cardId ok new
  end.
Proof.
  clear scorecard_open String_other.
  intros Hsd r. subst r. unfold main_try, say. cbn [m_world m_runtime m_trace].
  assert (Hbase :
            rt_cardId (m_runtime st) = rt_cardId (m_runtime st)
            /\ rt_shuttingDown (m_runtime st) = false
            /\ exists new,
                 (m_trace st ++ [ListGames])%list = (m_trace st ++ new)%list
                 /\ try_shape filter_ cardId false new).
  { split; [ reflexivity | split; [ exact Hsd | ] ]. exists [ListGames].
    split; [ reflexivity | ]. exists [].
    split; [ reflexivity | split; [ constructor | split ] ].
    - intros _. constructor.
    - left. reflexivity. }
  destruct (list_games (m_world st)) as [w2 [gamesList | ]];
    [ | cbn [fst snd m_runtime m_trace]; exact Hbase ].
  destruct (game_ids gamesList) as [all | ];
    [ | cbn [fst snd m_runtime m_trace]; exact Hbase ].
  destruct (select_games filter_ all) as [games | ] eqn:Hsel;
    [ | cbn [fst snd m_runtime m_trace]; exact Hbase ].
  destruct games as [ | g games];
    [ cbn [fst snd m_runtime m_trace]; exact Hbase | ].
  generalize (playGames_sessions cardId model_ effort (g :: games)
                (mkMain w2 (m_runtime st) (m_trace st ++ [ListGames]))).
  assert (Hstarts : forall new k,
             map (fun g => Some (JStr g)) (played new) = firstn k (g :: games) ->
             nonempty filter_ = true ->
             Forall (fun g => starts_with filter_ g = true) (played new)).
  { intros new k Hk Hf.
    pose proof (select_games_filtered filter_ all (g :: games) Hf Hsel) as Hall.
    apply Forall_forall. intros id Hid.
    assert (Hin : In (Some (JStr id)) (g :: games)).
    { rewrite <- (firstn_skipn k (g :: games)). apply in_or_app. left.
      rewrite <- Hk. apply (in_map (fun g => Some (JStr g))). exact Hid. }
    rewrite Forall_forall in Hall.
    destruct (Hall _ Hin) as (id' & Heq & Hs). injection Heq as <-. exact Hs. }
  destruct (playGames (g :: games) cardId model_ effort _) as [st3 | st3 | st3].
  - intros (Hrt & new & Htr & Hplay & Hbud & k & Hk & Hall).
    cbn [m_trace m_runtime] in Htr, Hrt.
    assert (Hne : new <> []).
    { intros ->. rewrite (Hall eq_refl) in Hk. discriminate Hk. }
    unfold closeFromMain. rewrite Hrt, Hsd.
    destruct (scorecard_close cardId (m_world st3)) as [w' [data | ]];
      cbn [fst snd m_trace m_runtime rt_shuttingDown rt_cardId];
      rewrite ?Hrt;
      (split; [ reflexivity | split; [ auto | ] ]);
      exists (ListGames :: new ++ [CloseCard cardId])%list;
      rewrite Htr, <- !app_assoc;
      (split; [ reflexivity | ]);
      exists new;
      (split; [ exact Hplay | split; [ exact Hbud | split; [ eauto | ] ] ]).
    + split; [ exact Hne | reflexivity ].
    + right. split; [ exact Hne | reflexivity ].
  - intros (Hrt & new & Htr & Hplay & Hbud & k & Hk & _).
    cbn [m_trace m_runtime] in Htr, Hrt.
    cbn [fst snd]. rewrite Hrt.
    split; [ reflexivity | split; [ exact Hsd | ] ].
    exists (ListGames :: new). rewrite Htr, <- app_assoc.
    split; [ reflexivity | ].
    exists new.
    split; [ exact Hplay | split; [ exact Hbud | split; [ eauto | ] ] ].
    left. reflexivity.
  - intros (g0 & Hg0 & Hns).
    cbn [fst snd].
    destruct (nonempty filter_) eqn:Hf; [ | reflexivity ].
    pose proof (select_games_filtered filter_ all (g :: games) Hf Hsel) as Hall.
    rewrite Forall_forall in Hall.
    destruct (Hall _ Hg0) as (id & -> & _). discriminate.
Qed.

Lemma main_shape (env : Env) (w : World) :
  match main env w with
  | Finished e st =>
      (keys_present env = false /\ e = ExitCode 1
       /\ st = mkMain w (mkRuntime None false) [ErrorLine])
      \/ (keys_present env = true
          /\ let tags := scorecard_tags env in
               (e = ExitCode 0 /\ m_runtime st = mkRuntime None true
                /\ m_trace st = [OpenCard tags; ErrorLine])
               \/ exists card mid,
                    rt_cardId (m_runtime st) = Some card
                    /\ forallb is_play mid = true
                    /\ Forall (good_session card) mid
                    /\ (nonempty (GAME_FILTER env) = true ->
                        Forall (fun g => starts_with (GAME_FILTER env) g = true)
                               (played mid))
                    /\ ((e = Returned /\ mid <> []
                         /\ rt_shuttingDown (m_runtime st) = true
                         /\ m_trace st
                            = (OpenCard tags :: ListGames :: mid
                                 ++ [CloseCard card])%list)
                        \/ (e = ExitCode 1
                            /\ m_trace st
                               = (OpenCard tags :: ListGames :: mid
                                    ++ [ErrorLine; CloseCard card])%list)
                        \/ (e = ExitCode 1 /\ mid <> []
                            /\ m_trace st
                               = (OpenCard tags :: ListGames :: mid
                                    ++ [CloseCard card; ErrorLine; CloseCard card])%list)))
  | NotFollowed st => nonempty (GAME_FILTER env) = false
  end.
Proof.
  unfold main, keys_present.
  destruct (nonempty (ARC_API_KEY env)); cbn [negb andb];
    [ | left; repeat split ].
  destruct (nonempty (OPENAI_API_KEY env)); cbn [negb andb];
    [ | left; repeat split ].
  cbv zeta. set (tags := scorecard_tags env).
  assert (Hun : forall w1,
             match unhandled (mkMain w1 (m_runtime (say (OpenCard tags)
                                           (mkMain w (mkRuntime None false) [])))
                                (m_trace (say (OpenCard tags)
                                           (mkMain w (mkRuntime None false) []))))
             with
             | Finished e st =>
                 e = ExitCode 0 /\ m_runtime st = mkRuntime None true
                 /\ m_trace st = [OpenCard tags; ErrorLine]
             | NotFollowed _ => False
             end).
  { intros w1. repeat split. }
  destruct (scorecard_open tags w) as [w1 [openRes | ]].
  2: { right. split; [ reflexivity | ]. left. exact (Hun w1). }
  assert (Hrun : forall cardId,
    match
      (let (o, st3) :=
         main_try (GAME_FILTER env) cardId (SELECTED_MODEL env) (SELECTED_EFFORT env)
           (mkMain w1 (mkRuntime (Some cardId) false)
                   (m_trace (say (OpenCard tags) (mkMain w (mkRuntime None false) []))))
       in
       match o with
       | Some true => Finished Returned st3
       | Some false => Finished (ExitCode 1) (main_catch cardId st3)
       | None => NotFollowed st3
       end)
    with
    | Finished e st =>
        exists card mid,
          rt_cardId (m_runtime st) = Some card
          /\ forallb is_play mid = true
          /\ Forall (good_session card) mid
          /\ (nonempty (GAME_FILTER env) = true ->
              Forall (fun g => starts_with (GAME_FILTER env) g = true) (played mid))
          /\ ((e = Returned /\ mid <> []
               /\ rt_shuttingDown (m_runtime st) = true
               /\ m_trace st
                  = (OpenCard tags :: ListGames :: mid ++ [CloseCard card])%list)
              \/ (e = ExitCode 1
                  /\ m_trace st
                     = (OpenCard tags :: ListGames :: mid
                          ++ [ErrorLine; CloseCard card])%list)
              \/ (e = ExitCode 1 /\ mid <> []
                  /\ m_trace st
                     = (OpenCard tags :: ListGames :: mid
                          ++ [CloseCard card; ErrorLine; CloseCard card])%list))
    | NotFollowed _ => nonempty (GAME_FILTER env) = false
    end).
  { intros cardId.
    generalize (main_try_spec (GAME_FILTER env) cardId
      (SELECTED_MODEL env) (SELECTED_EFFORT env)
      (mkMain w1 (mkRuntime (Some cardId) false)
              (m_trace (say (OpenCard tags) (mkMain w (mkRuntime None false) []))))
      eq_refl).
    cbv zeta.
    destruct (main_try _ _ _ _ _) as [[[ | ] | ] st3]; cbn [fst snd];
      cbn [m_runtime m_trace rt_cardId rt_shuttingDown say app];
      [ | | tauto ].
    - intros (Hc & Hs & new & Htr & mid & Hplay & Hbud & Hf & Hne & ->).
      exists cardId, mid.
      split; [ exact Hc | split; [ exact Hplay | split; [ exact Hbud | split; [ exact Hf | ] ] ] ].
      left. repeat split; auto.
    - intros (Hc & Hs & new & Htr & mid & Hplay & Hbud & Hf & Hnew).
      exists cardId, mid.
      assert (Hcatch :
                rt_cardId (m_runtime (main_catch cardId st3)) = Some cardId
                /\ m_trace (main_catch cardId st3)
                   = (m_trace st3 ++ [ErrorLine; CloseCard cardId])%list).
      { unfold main_catch, closeFromMain, say. cbn [m_runtime m_trace m_world].
        rewrite Hs.
        destruct (scorecard_close cardId (m_world st3)) as [w' [data | ]];
          cbn [snd m_runtime m_trace rt_cardId];
          (split; [ assumption | now rewrite <- app_assoc ]). }
      destruct Hcatch as [Hc' Htr'].
      split; [ exact Hc' | split; [ exact Hplay | split; [ exact Hbud | split; [ exact Hf | ] ] ] ].
      right. rewrite Htr', Htr.
      destruct Hnew as [-> | [Hne ->]].
      + left. split; reflexivity.
      + right. split; [ reflexivity | split; [ exact Hne | ] ].
        cbn. now rewrite <- app_assoc. }
  destruct openRes as [ | b | n | t | l | o ].
  1: { right. split; [ reflexivity | ]. left. exact (Hun w1). }
  all: match goal with
       | |- context [main_try ?f ?c ?m ?e ?s] =>
           specialize (Hrun c); revert Hrun;
           destruct (main_try f c m e s) as [[[ | ] | ] st3]
       end;
       intros Hrun;
       try (right; split; [ reflexivity | ]; right);
       exact Hrun.
Qed.

Lemma played_nonempty (mid : list MainEvent) :
  forallb is_play mid = true -> mid <> [] -> played mid <> [].
Proof.
  destruct mid as [ | e mid]; [ congruence | ].
  cbn [forallb]. intros H _. apply andb_prop in H. destruct H as [He _].
  destruct e; discriminate.
Qed.

Lemma good_sessions_within_budget (card : string) (mid : list MainEvent) :
  Forall (good_session card) mid -> Forall within_budget mid.
Proof. apply Forall_impl. intros e [H _]. exact H. Qed.

Lemma or_default_nonempty (a d : string) :
  nonempty d = true -> nonempty (or_default a d) = true.
Proof.
  intros Hd. unfold or_default. destruct (nonempty a) eqn:Ha; assumption.
Qed.

(** X22. [closeScorecardIfOpen] always leaves the shutdown flag set and the
    scorecard id as it was, and calling it again changes nothing.  It posts
    at most one close and starts no game; it posts one exactly when the flag
    was not yet set and a scorecard with a non-empty id is open. *)
Theorem shutdown_closes_at_most_once (st : MainState) :
  let st' := closeScorecardIfOpen st in
  rt_shuttingDown (m_runtime st') = true
  /\ rt_cardId (m_runtime st') = rt_cardId (m_runtime st)
  /\ closeScorecardIfOpen st' = st'
  /\ exists new,
       m_trace st' = (m_trace st ++ new)%list
       /\ count_closes new <= 1
       /\ played new = []
       /\ (count_closes new = 1 <->
           rt_shuttingDown (m_runtime st) = false
           /\ exists card,
                rt_cardId (m_runtime st) = Some card /\ nonempty card = true).
Proof.
  clear arc_post responses_create JSON_parse gridToPngBase64 fs_writeFileSync
        slice200 scorecard_open list_games String_other.
  cbv zeta.
  assert (Hdone : forall st0 : MainState,
             rt_shuttingDown (m_runtime st0) = true ->
             closeScorecardIfOpen st0 = st0).
  { intros st0 H. unfold closeScorecardIfOpen. now rewrite H. }
  destruct (rt_shuttingDown (m_runtime st)) eqn:Hsd.
  - rewrite (Hdone st Hsd).
    split; [ exact Hsd | split; [ reflexivity | split; [ exact (Hdone st Hsd) | ] ] ].
    exists []. rewrite app_nil_r.
    split; [ reflexivity | split; [ apply Nat.le_0_l | split; [ reflexivity | ] ] ].
    split; [ discriminate | intros [H _]; discriminate H ].
  - remember (closeScorecardIfOpen st) as st' eqn:Hst'.
    unfold closeScorecardIfOpen in Hst'. rewrite Hsd in Hst'.
    destruct (rt_cardId (m_runtime st)) as [card | ] eqn:Hc;
      cbn [truthy_string] in Hst'.
    + destruct (nonempty card) eqn:Hn.
      * destruct (scorecard_close card (m_world st)) as [w' [data | ]];
          subst st'; cbn [m_runtime m_trace rt_shuttingDown rt_cardId];
          (split; [ reflexivity | split; [ reflexivity | ] ]);
          (split; [ apply Hdone; reflexivity | ]);
          eexists; (split; [ reflexivity | ]);
          (split; [ cbn; lia | split; [ reflexivity | ] ]);
          (split; [ intros _; split; [ reflexivity | eauto ] | reflexivity ]).
      * subst st'. cbn [m_runtime m_trace rt_shuttingDown rt_cardId].
        split; [ reflexivity | split; [ reflexivity | ] ].
        split; [ apply Hdone; reflexivity | ].
        exists []. rewrite app_nil_r.
        split; [ reflexivity | split; [ apply Nat.le_0_l | split; [ reflexivity | ] ] ].
        split; [ discriminate | ].
        intros (_ & card' & Hc' & Hn'). congruence.
    + subst st'. cbn [m_runtime m_trace rt_shuttingDown rt_cardId].
      split; [ reflexivity | split; [ reflexivity | ] ].
      split; [ apply Hdone; reflexivity | ].
      exists []. rewrite app_nil_r.
      split; [ reflexivity | split; [ apply Nat.le_0_l | split; [ reflexivity | ] ] ].
      split; [ discriminate | ].
      intros (_ & card' & Hc' & _). discriminate Hc'.
Qed.



(** X25. With a non-empty game filter, from the command line or from
    [GAME_ID], the run always ends with an exit or a return, and every game
    it plays has an id that starts with the filter. *)
Theorem filter_selects_played_games (env : Env) (w : World) :
  nonempty (GAME_FILTER env) = true ->
  exists e st,
    main env w = Finished e st
    /\ Forall (fun g => starts_with (GAME_FILTER env) g = true)
              (played (m_trace st)).
Proof.
  intros Hf. generalize (main_shape env w).
  destruct (main env w) as [e st | st]; [ | congruence ].
  intros Hs. exists e, st. split; [ reflexivity | ].
  destruct Hs as [(Hk & -> & ->) | (Hk & Hs)]; [ constructor | ].
  cbv zeta in Hs.
  destruct Hs as [(-> & Hrt & Htr) | (card & mid & Hc & Hplay & Hgood & Hst & Hs)];
    [ rewrite Htr; constructor | ].
  specialize (Hst Hf).
  destruct Hs as [(_ & _ & _ & ->) | [(_ & ->) | (_ & _ & ->)]];
    match goal with
    | |- Forall _ (played (_ :: _ :: mid ++ ?post)%list) =>
        change (played (OpenCard (scorecard_tags env) :: ListGames :: mid ++ post)%list)
          with (played (mid ++ post)%list)
    end;
    rewrite played_app; cbn; rewrite app_nil_r; exact Hst.
Qed.

(** X26. The tags sent when the scorecard is opened start with [agent],
    [reasoning_agent_js] and the selected model, and none of them is empty:
    the model falls back to [gpt-5], an empty effort is left out and empty
    pieces of [TAGS] are dropped. *)
Theorem scorecard_tags_are_not_empty (env : Env) :
  firstn 3 (scorecard_tags env)
  = ["agent"; "reasoning_agent_js"; SELECTED_MODEL env]
  /\ Forall (fun t => nonempty t = true) (scorecard_tags env).
Proof.
  split; [ reflexivity | ].
  unfold scorecard_tags.
  apply Forall_app; split; [ | apply Forall_app; split ].
  - constructor; [ reflexivity | ].
    constructor; [ reflexivity | ].
    constructor; [ | constructor ].
    unfold SELECTED_MODEL, DEFAULT_OPENAI_MODEL.
    apply or_default_nonempty. apply or_default_nonempty. reflexivity.
  - destruct (nonempty (SELECTED_EFFORT env)) eqn:He;
      [ constructor; [ exact He | constructor ] | constructor ].
  - apply Forall_forall. intros t Ht. apply filter_In in Ht. exact (proj2 Ht).
Qed.


End Runner.

(** ** A scripted backend for the runner

    The scorecard calls and the listing of the games answer with fixed
    values; the sessions run against the scripted outside of [Demo]. *)

Module RunnerDemo.

Definition scorecard_open (tags : list string) (w : Demo.World)
    : Demo.World * option JSON :=
  (w, Some (JObj [("card_id", JStr "card-7")])).

Definition scorecard_close (card : string) (w : Demo.World)
    : Demo.World * option JSON :=
  (w, Some (JObj [("card_id", JStr card)])).

Definition list_games (w : Demo.World) : Demo.World * option JSON :=
  (w, Some (JArr [JObj [("game_id", JStr "ft09-16726c5b26ff")];
                  JObj [("game_id", JStr "ls20-016295f7601e")]])).

(** The scripted scorecard has a textual id, so [String] never meets
    another value. *)
Definition String_other (v : option JSON) : string := "undefined".

Definition env : Env :=
  mkEnv "arc-key" "openai-key" "" "" "" "nightly,,demo" ["--game"; "ls20"].

Definition world : Demo.World :=
  Demo.mkWorld [] [Some (Demo.frame "WIN" false)].

Definition run : Env -> Demo.World -> MainResult :=
  main Demo.post Demo.create Demo.parse Demo.render Demo.write Demo.slice200
       scorecard_open scorecard_close list_games String_other.

End RunnerDemo.

(** ** Concrete runs against the scripted outside *)

Local Abbreviation demo_turn :=
  (turn Demo.post Demo.create Demo.parse Demo.render Demo.write Demo.slice200).
Local Abbreviation demo_loop :=
  (mainLoop Demo.post Demo.create Demo.parse Demo.render Demo.write Demo.slice200).
Local Abbreviation demo_answered :=
  (decision_answered Demo.create Demo.render Demo.write).
Local Abbreviation demo_names :=
  ([Named "ACTION1"; Named "ACTION6"; Named "RESET"] : list Name).
Local Abbreviation demo_image := ("cGl4ZWxz" : string).

Ltac find_event := repeat first [ left; reflexivity | right ].
Ltac answered :=
  split; [ reflexivity | split; [ reflexivity | eexists; split; reflexivity ] ].
Local Abbreviation demo_frame := (Demo.frame "NOT_FINISHED" false).
Local Abbreviation reset_frame := (Demo.frame "NOT_FINISHED" true).

(** C1. A session in which the backend answers the first submission with a
    frame whose [full_reset] flag is set.  [clearHistory] runs (both
    histories are empty afterwards), yet the window still holds the record of
    that turn: the input of the next decision call is the four items of the
    earlier turn followed by the new user message, not the new user message
    alone. *)
Theorem full_reset_leaves_window_in_place :
  exists s1 s2 request,
    demo_turn (Some demo_frame)
      (start Demo.playing
         (Demo.mkWorld [Demo.answer Demo.text_action1; Demo.answer Demo.text_action1]
                       [Some reset_frame; Some demo_frame]))
    = Ok tt s1
    /\ last_elem (frames (agent s1)) = Some reset_frame
    /\ history (agent s1) = [] /\ screenHistory (agent s1) = []
    /\ List.length (flattenTurns (agent s1)) = 4
    /\ demo_turn (last_elem (frames (agent s1))) s1 = Ok tt s2
    /\ In (CallDecision request) (added s1 s2)
    /\ List.length (cp_input request) = 5
    /\ firstn 4 (cp_input request) = flattenTurns (agent s1).
Proof.
  eexists. eexists. eexists.
  split; [ vm_compute; reflexivity | ].
  split; [ vm_compute; reflexivity | ].
  split; [ reflexivity | ].
  split; [ reflexivity | ].
  split; [ reflexivity | ].
  split; [ vm_compute; reflexivity | ].
  split; [ vm_compute; find_event | ].
  split; reflexivity.
Qed.

Local Abbreviation three_turns :=
  ([ [ToolOutput "call_1" JNull]; [ToolOutput "call_2" JNull];
     [ToolOutput "call_3" JNull] ] : list Turn).

(** C2 at a cap of two, after three appended records. *)
Lemma window_keeps_most_recent_witness :
  2 <= List.length three_turns
  /\ (0 < 2 -> appendTurns 2 three_turns []
               = [ [ToolOutput "call_2" JNull]; [ToolOutput "call_3" JNull] ])
  /\ flattenTurnsWith 2 (appendTurns 2 three_turns [])
     = [ToolOutput "call_2" JNull; ToolOutput "call_3" JNull].
Proof.
  split; [ simpl; lia | ].
  apply (window_keeps_most_recent 2 [] three_turns). simpl. lia.
Defined.

(** The scenario of a WIN on the fifth turn: five decision calls and five
    submissions, and the loop returns. *)
Lemma win_on_fifth_turn :
  exists s',
    demo_loop 400
      (start Demo.playing
         (Demo.mkWorld (repeat (Demo.answer Demo.text_action1) 9)
                       (repeat (Some demo_frame) 4
                          ++ Some (Demo.frame "WIN" false)
                          :: repeat (Some demo_frame) 4)))
    = Ok tt s'
    /\ actionCounter (agent s') = 5
    /\ count_decisions (trace s') = 5
    /\ count_posts (trace s') = 5
    /\ List.length (turns (agent s')) = 5
    /\ List.length (Demo.decisions (world s')) = 4.
Proof.
  eexists. split; [ vm_compute; reflexivity | ].
  repeat split; reflexivity.
Qed.

(** C3 on a session whose second frame is a WIN. *)
Lemma loop_stops_within_budget_witness :
  MAX_ACTIONS
    - actionCounter
        (agent (start Demo.playing
                  (Demo.mkWorld [Demo.answer Demo.text_action1]
                                [Some (Demo.frame "WIN" false)]))) <= 400
  /\ exists s',
       ((demo_loop 400
           (start Demo.playing
              (Demo.mkWorld [Demo.answer Demo.text_action1]
                            [Some (Demo.frame "WIN" false)])) = Ok tt s'
         /\ (MAX_ACTIONS <= actionCounter (agent s')
             \/ latest_is_win (agent s') = true)
         /\ actionCounter (agent s') <= Nat.max MAX_ACTIONS 0)
        \/ demo_loop 400
             (start Demo.playing
                (Demo.mkWorld [Demo.answer Demo.text_action1]
                              [Some (Demo.frame "WIN" false)])) = Throw s')
       /\ count_decisions (trace s') <= 0 + (MAX_ACTIONS - 0).
Proof.
  split; [ vm_compute; lia | ].
  destruct (loop_stops_within_budget Demo.post Demo.create Demo.parse Demo.render
              Demo.write Demo.slice200 400
              (start Demo.playing
                 (Demo.mkWorld [Demo.answer Demo.text_action1]
                               [Some (Demo.frame "WIN" false)])))
    as (s' & Hend & Hcount & _).
  - vm_compute. lia.
  - exists s'. split; [ exact Hend | exact Hcount ].
Defined.

(** C4, the reading of the design document refuted: with ACTION1 and ACTION6
    permitted, the schema accepts ACTION1 together with the coordinates 5, 5. *)
Lemma schema_accepts_coordinates_with_other_action :
  ~ coordinates_null_exactly_for_other_actions ["ACTION1"; "ACTION6"; "RESET"].
Proof.
  intros H.
  specialize (H (decision_args "ACTION1" (JNum (num_of_Z 5)) (JNum (num_of_Z 5)))
                eq_refl).
  destruct H as [_ H].
  assert (Hnull : prop "x" (decision_args "ACTION1" (JNum (num_of_Z 5))
                                          (JNum (num_of_Z 5))) = Some JNull
                  /\ prop "y" (decision_args "ACTION1" (JNum (num_of_Z 5))
                                             (JNum (num_of_Z 5))) = Some JNull).
  { apply H. simpl. discriminate. }
  destruct Hnull as [Hx _]. simpl in Hx. discriminate.
Qed.


(** The same run, spelled out: RESET goes out with the card id, the turn
    completes, and the console shows no warning. *)
Lemma reset_fallback_run :
  exists s' payload,
    demo_turn (Some demo_frame)
      (start Demo.playing
         (Demo.mkWorld [Some (mkResponse (Some []))] [Some demo_frame]))
    = Ok tt s'
    /\ In (CallPost (command_url "RESET") payload) (trace s')
    /\ p_card_id payload = Some "card-7"
    /\ existsb is_warning (trace s') = false.
Proof.
  eexists. eexists.
  split; [ vm_compute; reflexivity | ].
  split; [ vm_compute; find_event | ].
  split; reflexivity.
Qed.

(** Arguments without an action whose [reason] is a number: [slice] is not a
    function of a number, the decision throws and nothing is submitted. *)
Lemma numeric_reason_aborts_turn :
  exists s',
    demo_turn (Some demo_frame)
      (start Demo.playing
         (Demo.mkWorld [Demo.answer Demo.text_numeric_reason] [Some demo_frame]))
    = Throw s'
    /\ count_posts (trace s') = 0.
Proof.
  eexists. split; [ vm_compute; reflexivity | reflexivity ].
Qed.


(** C6 on the pair 70, -1: the submission carries 63, 0. *)
Lemma coordinates_clamped_witness :
  p_x (buildPayload Demo.playing "ACTION6" None
         (pk_actionData
            (pickAction Demo.parse (Some [Demo.call Demo.text_action6_far]))))
  = Some (num_of_Z 63)
  /\ p_y (buildPayload Demo.playing "ACTION6" None
            (pk_actionData
               (pickAction Demo.parse (Some [Demo.call Demo.text_action6_far]))))
     = Some (num_of_Z 0)
  /\ num_eq (clamp63 (num_of_Z 12)) (num_of_Z 12).
Proof.
  destruct (coordinates_clamped Demo.parse Demo.playing None
              [Demo.call Demo.text_action6_far]
              (Demo.call Demo.text_action6_far)
              (num_of_Z 70) (num_of_Z (-1))
              eq_refl eq_refl eq_refl eq_refl)
    as (_ & Hx & Hy & _).
  destruct (coordinates_clamped Demo.parse Demo.playing None
              [Demo.call Demo.text_action6_inside]
              (Demo.call Demo.text_action6_inside)
              (num_of_Z 12) (num_of_Z 40)
              eq_refl eq_refl eq_refl eq_refl)
    as (_ & _ & _ & _ & _ & Hsame & _).
  split; [ exact Hx | split; [ exact Hy | apply Hsame; reflexivity ] ].
Defined.

(** C6, the reading of the design document refuted: the pair 12.5, 0.5 lies
    within [0,63] x [0,63] and is sent as 12, 0. *)
Lemma fractional_pair_is_truncated :
  ~ pair_in_range_sent_unchanged Demo.parse.
Proof.
  intros H.
  destruct (H Demo.playing None
              [Demo.call Demo.text_action6_fraction]
              (Demo.call Demo.text_action6_fraction)
              (Fin (25 # 2)) (Fin (1 # 2))
              eq_refl eq_refl eq_refl eq_refl eq_refl eq_refl)
    as (x' & y' & Hx & _ & Ex & _).
  vm_compute in Hx. injection Hx as <-.
  vm_compute in Ex. discriminate.
Qed.

(** The same pair, spelled out. *)
Lemma fractional_pair_run :
  in_range (Fin (25 # 2)) = true /\ in_range (Fin (1 # 2)) = true
  /\ pk_actionData
       (pickAction Demo.parse (Some [Demo.call Demo.text_action6_fraction]))
     = Some (mkCoord (num_of_Z 12) (num_of_Z 0)).
Proof. repeat split; vm_compute; reflexivity. Qed.



(** The same run, spelled out: the warning of the coordinate default is
    logged, the turn throws, and no submission goes out. *)
Lemma unsliceable_reason_run :
  exists s',
    demo_turn (Some demo_frame)
      (start Demo.playing
         (Demo.mkWorld [Demo.answer Demo.text_action6_numeric_reason]
                       [Some demo_frame]))
    = Throw s'
    /\ count_decisions (trace s') = 1
    /\ count_posts (trace s') = 0
    /\ existsb is_warning (trace s') = true
    /\ Demo.answers (world s') = [Some demo_frame].
Proof.
  eexists. split; [ vm_compute; reflexivity | ].
  repeat split; reflexivity.
Qed.

(** A turn whose frame lists an id that cannot be converted to a property
    key throws before anything is requested. *)
Lemma unprintable_id_aborts_before_request :
  demo_turn (Some (JObj [("available_actions",
                          JArr [JNum (num_of_Z 6);
                                JObj [("toString", JNum (num_of_Z 1))]])]))
    (start Demo.playing
       (Demo.mkWorld [Demo.answer Demo.text_action1] [Some demo_frame]))
  = Throw (start Demo.playing
             (Demo.mkWorld [Demo.answer Demo.text_action1] [Some demo_frame])).
Proof. vm_compute. reflexivity. Qed.

(** C9 on the frame of a full reset. *)
Lemma full_reset_clears_history_only_witness :
  truthy_opt (prop "full_reset" reset_frame) = true
  /\ exists s',
       handleFullReset reset_frame
         (start (recordFrame reset_frame Demo.playing) (Demo.mkWorld [] []))
       = Ok tt s'
       /\ actionCounter (agent s') = 1.
Proof.
  split; [ reflexivity | ].
  destruct (full_reset_clears_history_only
              Demo.post Demo.create Demo.parse Demo.render Demo.write
              Demo.slice200 reset_frame
              (start (recordFrame reset_frame Demo.playing) (Demo.mkWorld [] []))
              eq_refl)
    as (s' & Hrun & _ & _ & Hcount & _).
  exists s'. split; [ exact Hrun | exact Hcount ].
Defined.

(** ** Concrete runs for the further properties *)

(** A run of the runner against the scripted backend: the filter [ls20]
    from the command line selects the second game listed, whose session
    meets a WIN frame at its reset, and the run returns after one close. *)
Example scripted_run_returns :
  exists w' events,
    RunnerDemo.run RunnerDemo.env RunnerDemo.world
    = Finished Returned
        (mkMain w' (mkRuntime (Some "card-7") true)
           [OpenCard ["agent"; "reasoning_agent_js"; "gpt-5"; "nightly"; "demo"];
            ListGames;
            PlayGame "ls20-016295f7601e" events;
            CloseCard "card-7"])
    /\ count_decisions events = 0.
Proof. eexists. eexists. split; vm_compute; reflexivity. Qed.

(** X5 for a session with one frame that plays one turn into a WIN. *)
Lemma frames_track_the_counter_witness :
  List.length (frames Demo.playing) = actionCounter Demo.playing + 1
  /\ match demo_loop 3
             (start Demo.playing
                (Demo.mkWorld [Demo.answer Demo.text_action1]
                              [Some (Demo.frame "WIN" false)]))
     with
     | Ok _ s' | Throw s' =>
         List.length (frames (agent s')) = actionCounter (agent s') + 1
     | OutOfFuel => True
     end.
Proof.
  split; [ reflexivity | ].
  apply (frames_track_the_counter Demo.post Demo.create Demo.parse Demo.render
           Demo.write Demo.slice200 3
           (start Demo.playing
              (Demo.mkWorld [Demo.answer Demo.text_action1]
                            [Some (Demo.frame "WIN" false)]))).
  reflexivity.
Defined.

(** X6 for the same session, its two buffers empty at the start. *)
Lemma buffers_stay_within_caps_witness :
  List.length (turns Demo.playing) <= MESSAGE_LIMIT
  /\ List.length (screenHistory Demo.playing) <= 10
  /\ match demo_loop 3
             (start Demo.playing
                (Demo.mkWorld [Demo.answer Demo.text_action1]
                              [Some (Demo.frame "WIN" false)]))
     with
     | Ok _ s' | Throw s' =>
         List.length (turns (agent s')) <= MESSAGE_LIMIT
         /\ List.length (screenHistory (agent s')) <= 10
     | OutOfFuel => True
     end.
Proof.
  split; [ vm_compute; lia | split; [ vm_compute; lia | ] ].
  apply (buffers_stay_within_caps Demo.post Demo.create Demo.parse Demo.render
           Demo.write Demo.slice200 3
           (start Demo.playing
              (Demo.mkWorld [Demo.answer Demo.text_action1]
                            [Some (Demo.frame "WIN" false)])));
    vm_compute; lia.
Defined.

(** X11 for a frame that lists the ids 0 and 1. *)
Lemma reset_id_duplicates_reset_witness :
  key_text (JNum (num_of_Z 0)) = Text "0"
  /\ allowedNamesOf
       (Some (JObj [("available_actions",
                     JArr [JNum (num_of_Z 0); JNum (num_of_Z 1)])]))
     = Some [Named "RESET"; Named "ACTION1"; Named "RESET"]
  /\ exists before between,
       [Named "RESET"; Named "ACTION1"; Named "RESET"]
       = (before ++ Named "RESET" :: between ++ [Named "RESET"])%list.
Proof.
  split; [ reflexivity | split; [ reflexivity | ] ].
  apply (reset_id_duplicates_reset
           (Some (JObj [("available_actions",
                         JArr [JNum (num_of_Z 0); JNum (num_of_Z 1)])]))
           [JNum (num_of_Z 0); JNum (num_of_Z 1)] (JNum (num_of_Z 0))
           [Named "RESET"; Named "ACTION1"; Named "RESET"]);
    [ reflexivity | left; reflexivity | reflexivity | reflexivity ].
Defined.

(** X21 for a frame that lists the id 6 and the text [constructor]. *)
Lemma every_allowed_action_is_documented_witness :
  allowedNamesOf
    (Some (JObj [("available_actions",
                  JArr [JNum (num_of_Z 6); JStr "constructor"])]))
  = Some [Named "ACTION6"; Member "constructor"; Named "RESET"]
  /\ actionDocs [Named "ACTION6"; Member "constructor"; Named "RESET"]
     = join newline
         ["- ACTION6: Complex action requiring x,y coordinates (0-63 range)";
          "- function Object() { [native code] }: ";
          "- RESET: Initialize or restarts the game/level state"].
Proof.
  split; [ reflexivity | ].
  destruct (every_allowed_action_is_documented
              (Some (JObj [("available_actions",
                            JArr [JNum (num_of_Z 6); JStr "constructor"])]))
              [Named "ACTION6"; Member "constructor"; Named "RESET"] eq_refl)
    as (Hdocs & _).
  rewrite Hdocs. reflexivity.
Defined.

(** X13 for a decision with its five required fields. *)
Lemma accepted_decision_is_closed_witness :
  schema_accepts (decision_schema ["ACTION1"; "RESET"])
    (JObj [("action", JStr "ACTION1"); ("reason", JStr "try the first key");
           ("short_description", JStr "press up");
           ("hypothesis", JStr "the block moves");
           ("aggregated_findings", JStr "nothing yet")]) = true
  /\ exists a,
       assoc "action"
         [("action", JStr "ACTION1"); ("reason", JStr "try the first key");
          ("short_description", JStr "press up");
          ("hypothesis", JStr "the block moves");
          ("aggregated_findings", JStr "nothing yet")] = Some (JStr a)
       /\ In a ["ACTION1"; "RESET"].
Proof.
  split; [ vm_compute; reflexivity | ].
  apply (accepted_decision_is_closed ["ACTION1"; "RESET"]
           [("action", JStr "ACTION1"); ("reason", JStr "try the first key");
            ("short_description", JStr "press up");
            ("hypothesis", JStr "the block moves");
            ("aggregated_findings", JStr "nothing yet")]).
  vm_compute; reflexivity.
Defined.

(** X9 for a response with two function calls after a reasoning item. *)
Lemma first_function_call_decides_witness :
  pk_actionName
    (pickAction Demo.parse
       (Some [mkItem "reasoning" None None; Demo.call Demo.text_action1;
              Demo.call Demo.text_action6_far])) = "ACTION1"
  /\ pickAction Demo.parse
       (Some ([mkItem "reasoning" None None]
                ++ Demo.call Demo.text_action1
                :: [Demo.call Demo.text_action6_far])%list)
     = pickAction Demo.parse
         (Some ([mkItem "reasoning" None None]
                  ++ Demo.call Demo.text_action1 :: [])%list).
Proof.
  split; [ vm_compute; reflexivity | ].
  apply (first_function_call_decides Demo.parse
           [mkItem "reasoning" None None] [] [Demo.call Demo.text_action6_far]
           (Demo.call Demo.text_action1));
    reflexivity.
Defined.

(** X14 for the model flag. *)
Lemma attached_and_separate_values_agree_witness :
  parseArgs ["--model=gpt-5-mini"; "--game"; "ls20"] = mkCliArgs "gpt-5-mini" "" "ls20"
  /\ parseLoop (attached "model" "gpt-5-mini" :: ["--game"; "ls20"])
               (mkCliArgs "" "" "")
     = parseLoop (("--" ++ "model") :: "gpt-5-mini" :: ["--game"; "ls20"])
                 (mkCliArgs "" "" "").
Proof.
  split; [ vm_compute; reflexivity | ].
  apply (attached_and_separate_values_agree "model" "gpt-5-mini"
           ["--game"; "ls20"] (mkCliArgs "" "" ""));
    [ reflexivity | reflexivity | discriminate | reflexivity ].
Defined.

(** X15 for a game filter that holds an equals sign. *)
Lemma attached_value_is_cut_at_equals_witness :
  arg_game (parseArgs ["--game=ls20=x"]) = "ls20"
  /\ arg_game (parseArgs ["--game"; "ls20=x"]) = "ls20=x"
  /\ parseLoop (attached "game" ("ls20" ++ String "=" "x") :: []) (mkCliArgs "" "" "")
     = parseLoop (attached "game" "ls20" :: []) (mkCliArgs "" "" "").
Proof.
  split; [ vm_compute; reflexivity | split; [ vm_compute; reflexivity | ] ].
  apply (attached_value_is_cut_at_equals "game" "ls20" "x" []
           (mkCliArgs "" "" ""));
    reflexivity.
Defined.

(** X17 for a command line that sets the model three times before. *)
Lemma last_flag_wins_witness :
  Forall (fun t => t <> "") ["--model"; "gpt-5"; "--model=o3"]
  /\ arg_model (parseArgs (["--model"; "gpt-5"; "--model=o3"]
                             ++ [attached "model" "gpt-5-mini"])%list)
     = "gpt-5-mini".
Proof.
  assert (H : Forall (fun t => t <> "") ["--model"; "gpt-5"; "--model=o3"])
    by (repeat constructor; discriminate).
  split; [ exact H | ].
  apply (last_flag_wins ["--model"; "gpt-5"; "--model=o3"] "gpt-5-mini" H);
    [ discriminate | reflexivity ].
Defined.

(** X25 for the scripted run, whose filter comes from the command line. *)
Lemma filter_selects_played_games_witness :
  GAME_FILTER RunnerDemo.env = "ls20"
  /\ exists e st,
       RunnerDemo.run RunnerDemo.env RunnerDemo.world = Finished e st
       /\ Forall (fun g => starts_with (GAME_FILTER RunnerDemo.env) g = true)
                 (played (m_trace st)).
Proof.
  split; [ reflexivity | ].
  apply (filter_selects_played_games Demo.post Demo.create Demo.parse Demo.render
           Demo.write Demo.slice200
           RunnerDemo.scorecard_open RunnerDemo.scorecard_close
           RunnerDemo.list_games RunnerDemo.String_other
           RunnerDemo.env RunnerDemo.world).
  reflexivity.
Defined.

(** X19 for a grid of two rows, the second shorter than the first. *)
Lemma picture_has_one_square_per_cell_witness :
  exists cv,
    gridCanvas (JArr [JArr [JNum (num_of_Z 0); JNum (num_of_Z 9)];
                      JArr [JNum (num_of_Z 15)]]) 40 = Done cv
    /\ cv_width cv = 80%Z
    /\ cv_height cv = 80%Z
    /\ List.length (filter is_fill (cv_ops cv)) = 4
    /\ In (FillRect fallback_color 40 40 40 40) (cv_ops cv).
Proof.
  eexists. split; [ vm_compute; reflexivity | ].
  destruct (picture_has_one_square_per_cell
              [JNum (num_of_Z 0); JNum (num_of_Z 9)] [JArr [JNum (num_of_Z 15)]]
              40 _ eq_refl) as (Hw & Hh & Hn & _ & _).
  split; [ exact Hw | split; [ exact Hh | split; [ exact Hn | ] ] ].
  vm_compute. tauto.
Defined.

(** X20 for the same grid, which is a single zone. *)
Lemma zones_cover_every_cell_witness :
  exists cv,
    gridCanvas (JArr [JArr [JNum (num_of_Z 0); JNum (num_of_Z 9)];
                      JArr [JNum (num_of_Z 15)]]) 40 = Done cv
    /\ In (StrokeRect "#FFD700" 2 0 0 80 80) (cv_ops cv)
    /\ In (FillText "#FFFFFF" (0, 0) 2 14) (cv_ops cv).
Proof.
  eexists. split; [ vm_compute; reflexivity | ].
  destruct (zones_cover_every_cell
              [JNum (num_of_Z 0); JNum (num_of_Z 9)] [JArr [JNum (num_of_Z 15)]]
              40 _ eq_refl) as (Hcover & _).
  destruct (Hcover 1 1) as (_ & _ & Hstroke & Htext);
    [ vm_compute; lia | vm_compute; lia | ].
  split; [ exact Hstroke | exact Htext ].
Defined.
